(** * Task-management backend (backend/server.js, backend/db.sql)

    A shallow embedding of the Express/Socket.IO server: the request
    handlers of [server.js] run in a small state-and-exception monad over
    a world made of the relational store declared in [db.sql], the set of
    live realtime sockets and the log of statements sent to the pool.

    Conventions.
    - JSON body fields are taken at the type of the column they feed
      (text or boolean); every field may be absent ([Undefined]) or [Null].
    - A table is the list of its rows in insertion order; the constraints
      of [db.sql] (PRIMARY KEY, UNIQUE, NOT NULL, FOREIGN KEY) are checked
      by the statement that would violate them, which then throws, as the
      driver's promise rejects.
    - [uuidv4], [bcrypt], [jsonwebtoken] and the process environment are
      third-party or ambient; they are the fields of the class [Platform]. *)

From Stdlib Require Import String Ascii List ZArith Bool Lia DecimalString.
From Stdlib Require Import Sorted Permutation.
Import ListNotations.
Open Scope string_scope.
Open Scope list_scope.

Set Implicit Arguments.

(* ===================================================================== *)
(** * JavaScript values as the handlers use them *)
(* ===================================================================== *)

Module Js.

(** A property read off [req.body], [req.query] or a handshake. *)
Inductive field (A : Type) : Type :=
| Undefined : field A
| Null : field A
| Val : A -> field A.

Arguments Undefined {A}.
Arguments Null {A}.
Arguments Val {A} _.

(** [if (x)] on a text property: only a non-empty string is truthy. *)
Definition truthy (f : field string) : bool :=
  match f with
  | Val s => negb (s =? "")
  | _ => false
  end.

(** [a || b]. *)
Definition or_else (a b : field string) : field string :=
  if truthy a then a else b.

(** [x || null] as a query parameter: SQL text or NULL. *)
Definition or_null (f : field string) : option string :=
  match f with
  | Val s => if s =? "" then None else Some s
  | _ => None
  end.

(** Destructuring default [{ x = d }]: applies to [undefined] only. *)
Definition with_default {A} (d : A) (f : field A) : field A :=
  match f with
  | Undefined => Val d
  | _ => f
  end.

(** A query parameter as the driver sends it: [undefined] and [null]
    both become SQL NULL. *)
Definition to_sql {A} (f : field A) : option A :=
  match f with
  | Val a => Some a
  | _ => None
  end.

(** [a && b]. *)
Definition and_then (a b : field string) : field string :=
  if truthy a then b else a.

(** The string held by a truthy text property. *)
Definition text (f : field string) : string :=
  match f with
  | Val s => s
  | _ => EmptyString
  end.

(** [x !== undefined]. *)
Definition defined {A} (f : field A) : bool :=
  match f with
  | Undefined => false
  | _ => true
  end.

(** [s.split(" ")]. *)
Fixpoint split_space (s : string) : list string :=
  match s with
  | EmptyString => [EmptyString]
  | String c r =>
      if Ascii.eqb c " "%char then EmptyString :: split_space r
      else match split_space r with
           | h :: t => String c h :: t
           | [] => [String c EmptyString]
           end
  end.

(** [arr[i]]. *)
Definition index {A} (l : list A) (i : nat) : field A :=
  match nth_error l i with
  | Some a => Val a
  | None => Undefined
  end.

End Js.
Import Js.

(* ===================================================================== *)
(** * Rows of db.sql *)
(* ===================================================================== *)

Record user := {
  u_user_id : string;
  u_name : string;
  u_email : string;
  u_password_hash : string;
  u_profile_picture : option string;
  u_user_role : string;
  u_created_at : string;
  u_updated_at : string
}.

Record project := {
  p_project_id : string;
  p_title : string;
  p_description : option string;
  p_due_date : option string;
  p_creator_id : string;
  p_created_at : string;
  p_updated_at : string
}.

Record task := {
  task_id : string;
  title : string;
  description : option string;
  due_date : option string;
  priority : string;
  status : string;
  creator_id : string;
  project_id : option string;
  created_at : string;
  updated_at : string
}.

Record subtask := {
  st_subtask_id : string;
  st_task_id : string;
  st_title : string;
  st_is_completed : bool;
  st_created_at : string;
  st_updated_at : string
}.

Record task_comment := {
  c_comment_id : string;
  c_task_id : string;
  c_user_id : string;
  c_comment_text : string;
  c_created_at : string
}.

Record task_assignee := {
  ta_record_id : string;
  ta_task_id : string;
  ta_user_id : string;
  ta_assigned_at : string
}.

Record label := {
  l_label_id : string;
  l_label_name : string
}.

Record task_label := {
  tl_record_id : string;
  tl_task_id : string;
  tl_label_id : string
}.

Record notification := {
  n_notification_id : string;
  n_user_id : string;
  n_notification_type : string;
  n_task_id : option string;
  n_message : string;
  n_is_read : bool;
  n_created_at : string
}.

Record database := {
  users : list user;
  projects : list project;
  tasks : list task;
  subtasks : list subtask;
  task_comments : list task_comment;
  task_assignees : list task_assignee;
  labels : list label;
  task_labels : list task_label;
  notifications : list notification
}.

(* ===================================================================== *)
(** * Identities, events and responses *)
(* ===================================================================== *)

(** The payload signed into a token and read back as [req.user] /
    [socket.user]. *)
Record identity := {
  user_id : string;
  email : string;
  name : string;
  user_role : string
}.

(** A decoded token: its payload, its [exp] claim in seconds, and the
    signature it carries. *)
Record signed_token := {
  tok_payload : identity;
  tok_exp : Z;
  tok_signature : string
}.

(** [updatedFields = { status, priority, due_date }]. *)
Record updated_fields := {
  uf_status : field string;
  uf_priority : field string;
  uf_due_date : field string
}.

(** The [data] member of an envelope, one constructor per payload
    object literal of server.js. *)
Inductive event_data :=
| taskCreatedPayload (task_id title : string) (status : field string)
    (due_date : option string) (creator_id : string)
| taskUpdatedPayload (task_id : string) (updated : updated_fields)
    (updated_at : string)
| taskDeletedPayload (task_id : string)
| commentPayload (comment_id task_id user_id comment_text created_at : string).

(** [{ event, data }], the second argument of [io.emit]. *)
Record envelope := {
  event : string;
  data : event_data
}.

(** [{ user_id, name, email, user_role }] as returned to the client. *)
Record public_user := {
  pu_user_id : string;
  pu_name : string;
  pu_email : string;
  pu_user_role : string
}.

(** A row of [GET /api/tasks]: [t.*] with the two aggregated arrays. *)
Record task_listing := {
  tl_task : task;
  tl_assignees : list string;
  tl_labels : list string
}.

(** The JSON object handed to [res.json]. *)
Inductive json_body :=
| message_only (message : string)
| auth_body (message token : string) (user : public_user)
| task_created_body (message : string) (task : event_data)
| tasks_body (tasks : list task_listing)
| task_updated_body (message : string) (task : field task)
| comment_body (message : string) (comment : event_data).

Record response := {
  res_status : nat;
  res_body : json_body
}.

Definition send (code : nat) (b : json_body) : response :=
  {| res_status := code; res_body := b |}.

(** [res.status(500).json({ message: "Internal server error" })]. *)
Definition internal_server_error : response :=
  send 500 (message_only "Internal server error").

(* ===================================================================== *)
(** * Third-party packages and the process environment *)
(* ===================================================================== *)

Class Platform := {
  (** [process.env.JWT_SECRET || "your_jwt_secret"] *)
  JWT_SECRET : string;
  (** the n-th value drawn from [uuidv4()] *)
  uuidv4 : nat -> string;
  (** [bcrypt.hash(password, 10)] *)
  bcrypt_hash : string -> string;
  (** [bcrypt.compare(password, hash)] *)
  bcrypt_compare : string -> string -> bool;
  (** [jwt.sign(payload, secret, { expiresIn })], at a clock reading and
      with the lifetime in seconds *)
  jwt_sign : identity -> string -> Z -> Z -> string;
  (** decoding of a compact token; [None] when malformed *)
  jwt_parse : string -> option signed_token;
  (** the signature check of a decoded token against a secret *)
  jwt_signature_ok : string -> signed_token -> bool
}.

(** The two clock readings a handler takes: [new Date().toISOString()]
    and the epoch seconds jsonwebtoken compares [exp] with. *)
Record clock := {
  iso : string;
  seconds : Z
}.

(* ===================================================================== *)
(** * The world and the handler monad *)
(* ===================================================================== *)

(** A statement sent through [pool.query], by table and key parameter. *)
Inductive statement :=
| SELECT_users_WHERE_email (email : string)
| INSERT_INTO_users (user_id : string)
| SELECT_tasks_WHERE_task_id (task_id : string)
| SELECT_tasks_FOR_user (user_id : string) (status : option string)
| INSERT_INTO_tasks (task_id : string)
| INSERT_INTO_subtasks (subtask_id : string)
| INSERT_INTO_task_assignees (record_id : string)
| INSERT_INTO_task_labels (record_id : string)
| UPDATE_tasks (task_id : string)
| DELETE_FROM_subtasks (task_id : string)
| DELETE_FROM_task_comments (task_id : string)
| DELETE_FROM_task_assignees (task_id : string)
| DELETE_FROM_task_labels (task_id : string)
| DELETE_FROM_tasks (task_id : string)
| INSERT_INTO_task_comments (comment_id : string)
| SELECT_notifications_WHERE_notification_id (notification_id : string)
| UPDATE_notifications (notification_id : string).

(** An authenticated realtime connection and what it has been sent. *)
Record socket := {
  socket_id : string;
  socket_user : identity;
  received : list (string * envelope)
}.

Record world := {
  db : database;
  sockets : list socket;
  emitted : list (string * envelope);
  queries : list statement;
  uuids_drawn : nat
}.

(** What a rejected promise or a failing expression throws. *)
Inductive exn :=
| constraint_violation (what : string)
| type_error (what : string)
| library_error (what : string).

Inductive outcome (A : Type) : Type :=
| Ok : A -> outcome A
| Threw : exn -> outcome A.

Arguments Ok {A} _.
Arguments Threw {A} _.

Definition M (A : Type) : Type := world -> outcome A * world.

Definition ret {A} (a : A) : M A := fun w => (Ok a, w).

Definition bind {A B} (m : M A) (k : A -> M B) : M B :=
  fun w =>
    match m w with
    | (Ok a, w') => k a w'
    | (Threw e, w') => (Threw e, w')
    end.

Definition throw {A} (e : exn) : M A := fun w => (Threw e, w).

Declare Scope handler_scope.
Delimit Scope handler_scope with handler.
Notation "x <- m ;; k" := (bind m (fun x => k))
  (at level 100, m at next level, right associativity) : handler_scope.
Notation "m ;;; k" := (bind m (fun _ => k))
  (at level 100, right associativity) : handler_scope.
Open Scope handler_scope.

(** [for (const x of xs) { await f(x) }]. *)
Fixpoint for_of {A} (xs : list A) (f : A -> M unit) : M unit :=
  match xs with
  | [] => ret tt
  | x :: rest => f x ;;; for_of rest f
  end.

(** [try { ... } catch (error) { res.status(500)... }]: what the route
    answers and the world it leaves. *)
Definition try_catch (m : M response) : world -> response * world :=
  fun w =>
    match m w with
    | (Ok r, w') => (r, w')
    | (Threw _, w') => (internal_server_error, w')
    end.

Definition set_db (d : database) (w : world) : world :=
  {| db := d; sockets := sockets w; emitted := emitted w;
     queries := queries w; uuids_drawn := uuids_drawn w |}.

Definition log_query (q : statement) (w : world) : world :=
  {| db := db w; sockets := sockets w; emitted := emitted w;
     queries := queries w ++ [q]; uuids_drawn := uuids_drawn w |}.

(** [await pool.query(q, params)]: the statement is logged, then run on
    the store; a rejected statement leaves the store as it was. *)
Definition pool_query {A} (q : statement)
    (run : database -> outcome (A * database)) : M A :=
  fun w =>
    let w1 := log_query q w in
    match run (db w1) with
    | Ok (a, d) => (Ok a, set_db d w1)
    | Threw e => (Threw e, w1)
    end.

(** [uuidv4()]. *)
Definition fresh_uuid `{Platform} : M string :=
  fun w =>
    (Ok (uuidv4 (uuids_drawn w)),
     {| db := db w; sockets := sockets w; emitted := emitted w;
        queries := queries w; uuids_drawn := S (uuids_drawn w) |}).

Definition deliver (ev : string * envelope) (s : socket) : socket :=
  {| socket_id := socket_id s; socket_user := socket_user s;
     received := received s ++ [ev] |}.

(** [io.emit(name, payload)]: every connected socket is sent the event,
    whoever its user is. *)
Definition io_emit (name : string) (payload : envelope) : M unit :=
  fun w =>
    (Ok tt,
     {| db := db w; sockets := map (deliver (name, payload)) (sockets w);
        emitted := emitted w ++ [(name, payload)];
        queries := queries w; uuids_drawn := uuids_drawn w |}).

(* ===================================================================== *)
(** * The store: statements of server.js under the constraints of db.sql *)
(* ===================================================================== *)

Module Pg.

Definition has {A} (key : A -> string) (k : string) (rows : list A) : bool :=
  existsb (fun r => key r =? k) rows.

(** [... WHERE key = $1]. *)
Definition where_eq {A} (key : A -> string) (k : string) (rows : list A)
    : list A :=
  filter (fun r => key r =? k) rows.

(** [DELETE FROM t WHERE key = $1]. *)
Definition delete_where {A} (key : A -> string) (k : string) (rows : list A)
    : list A :=
  filter (fun r => negb (key r =? k)) rows.

(** A nullable foreign key is satisfied by NULL or by a referenced row. *)
Definition references {A} (fk : option string) (key : A -> string)
    (rows : list A) : bool :=
  match fk with
  | None => true
  | Some k => has key k rows
  end.

Definition with_users (l : list user) (d : database) : database :=
  {| users := l; projects := projects d; tasks := tasks d;
     subtasks := subtasks d; task_comments := task_comments d;
     task_assignees := task_assignees d; labels := labels d;
     task_labels := task_labels d; notifications := notifications d |}.

Definition with_tasks (l : list task) (d : database) : database :=
  {| users := users d; projects := projects d; tasks := l;
     subtasks := subtasks d; task_comments := task_comments d;
     task_assignees := task_assignees d; labels := labels d;
     task_labels := task_labels d; notifications := notifications d |}.

Definition with_subtasks (l : list subtask) (d : database) : database :=
  {| users := users d; projects := projects d; tasks := tasks d;
     subtasks := l; task_comments := task_comments d;
     task_assignees := task_assignees d; labels := labels d;
     task_labels := task_labels d; notifications := notifications d |}.

Definition with_task_comments (l : list task_comment) (d : database)
    : database :=
  {| users := users d; projects := projects d; tasks := tasks d;
     subtasks := subtasks d; task_comments := l;
     task_assignees := task_assignees d; labels := labels d;
     task_labels := task_labels d; notifications := notifications d |}.

Definition with_task_assignees (l : list task_assignee) (d : database)
    : database :=
  {| users := users d; projects := projects d; tasks := tasks d;
     subtasks := subtasks d; task_comments := task_comments d;
     task_assignees := l; labels := labels d;
     task_labels := task_labels d; notifications := notifications d |}.

Definition with_task_labels (l : list task_label) (d : database)
    : database :=
  {| users := users d; projects := projects d; tasks := tasks d;
     subtasks := subtasks d; task_comments := task_comments d;
     task_assignees := task_assignees d; labels := labels d;
     task_labels := l; notifications := notifications d |}.

Definition with_notifications (l : list notification) (d : database)
    : database :=
  {| users := users d; projects := projects d; tasks := tasks d;
     subtasks := subtasks d; task_comments := task_comments d;
     task_assignees := task_assignees d; labels := labels d;
     task_labels := task_labels d; notifications := l |}.

Definition violated {A} (what : string) : outcome A :=
  Threw (constraint_violation what).

(** [SELECT * FROM users WHERE email = $1]. *)
Definition select_users_by_email (e : string) (d : database)
    : outcome (list user * database) :=
  Ok (where_eq u_email e (users d), d).

(** [INSERT INTO users (...) VALUES ($1, ..., $8)]. *)
Definition insert_user (u : user) (d : database)
    : outcome (unit * database) :=
  if has u_user_id (u_user_id u) (users d) then violated "users_pkey"
  else if has u_email (u_email u) (users d) then violated "users_email_key"
  else Ok (tt, with_users (users d ++ [u]) d).

(** [SELECT * FROM tasks WHERE task_id = $1]. *)
Definition select_tasks_by_id (id : string) (d : database)
    : outcome (list task * database) :=
  Ok (where_eq task_id id (tasks d), d).

(** [INSERT INTO tasks (...) VALUES ($1, ..., $10)]; [$5] and [$6] feed
    NOT NULL columns and may arrive as NULL. *)
Definition insert_task (id ttl : string) (descr due : option string)
    (prio stat : option string) (creator : string) (proj : option string)
    (created updated : string) (d : database) : outcome (unit * database) :=
  match prio, stat with
  | Some p, Some s =>
      if has task_id id (tasks d) then violated "tasks_pkey"
      else if negb (has u_user_id creator (users d))
      then violated "tasks_creator_id_fkey"
      else if negb (references proj p_project_id (projects d))
      then violated "tasks_project_id_fkey"
      else Ok (tt, with_tasks (tasks d ++
             [{| task_id := id; title := ttl; description := descr;
                 due_date := due; priority := p; status := s;
                 creator_id := creator; project_id := proj;
                 created_at := created; updated_at := updated |}]) d)
  | _, _ => violated "tasks_not_null"
  end.

(** [INSERT INTO subtasks (...) VALUES ($1, ..., $6)]. *)
Definition insert_subtask (id tid : string) (ttl : option string)
    (done : bool) (created updated : string) (d : database)
    : outcome (unit * database) :=
  match ttl with
  | Some t =>
      if has st_subtask_id id (subtasks d) then violated "subtasks_pkey"
      else if negb (has task_id tid (tasks d))
      then violated "subtasks_task_id_fkey"
      else Ok (tt, with_subtasks (subtasks d ++
             [{| st_subtask_id := id; st_task_id := tid; st_title := t;
                 st_is_completed := done; st_created_at := created;
                 st_updated_at := updated |}]) d)
  | None => violated "subtasks_not_null"
  end.

(** [INSERT INTO task_assignees (...) VALUES ($1, ..., $4)]. *)
Definition insert_task_assignee (id tid uid assigned : string)
    (d : database) : outcome (unit * database) :=
  if has ta_record_id id (task_assignees d)
  then violated "task_assignees_pkey"
  else if negb (has task_id tid (tasks d))
  then violated "task_assignees_task_id_fkey"
  else if negb (has u_user_id uid (users d))
  then violated "task_assignees_user_id_fkey"
  else Ok (tt, with_task_assignees (task_assignees d ++
         [{| ta_record_id := id; ta_task_id := tid; ta_user_id := uid;
             ta_assigned_at := assigned |}]) d).

(** [INSERT INTO task_labels (...) VALUES ($1, $2, $3)]. *)
Definition insert_task_label (id tid lid : string) (d : database)
    : outcome (unit * database) :=
  if has tl_record_id id (task_labels d) then violated "task_labels_pkey"
  else if negb (has task_id tid (tasks d))
  then violated "task_labels_task_id_fkey"
  else if negb (has l_label_id lid (labels d))
  then violated "task_labels_label_id_fkey"
  else Ok (tt, with_task_labels (task_labels d ++
         [{| tl_record_id := id; tl_task_id := tid; tl_label_id := lid |}]) d).

(** [INSERT INTO task_comments (...) VALUES ($1, ..., $5)]. *)
Definition insert_task_comment (id tid uid text created : string)
    (d : database) : outcome (unit * database) :=
  if has c_comment_id id (task_comments d)
  then violated "task_comments_pkey"
  else if negb (has task_id tid (tasks d))
  then violated "task_comments_task_id_fkey"
  else if negb (has u_user_id uid (users d))
  then violated "task_comments_user_id_fkey"
  else Ok (tt, with_task_comments (task_comments d ++
         [{| c_comment_id := id; c_task_id := tid; c_user_id := uid;
             c_comment_text := text; c_created_at := created |}]) d).

(** The conditions of the WHERE clause of [GET /api/tasks]. *)
Inductive condition :=
| creator_id_eq (uid : string)
    (* t.creator_id = $1 *)
| task_id_IN_assigned_to (uid : string)
    (* t.task_id IN (SELECT task_id FROM task_assignees WHERE user_id = $1) *)
| status_eq (s : string)
    (* t.status = $2 *).

(** The clause is assembled as text; its pieces are kept as tokens. *)
Inductive where_token :=
| Cond (c : condition)
| OR
| AND.

Definition holds (d : database) (t : task) (c : condition) : bool :=
  match c with
  | creator_id_eq uid => creator_id t =? uid
  | task_id_IN_assigned_to uid =>
      existsb (fun ta => (ta_user_id ta =? uid) && (ta_task_id ta =? task_id t))
        (task_assignees d)
  | status_eq s => status t =? s
  end.

(** SQL reads an unparenthesised clause with AND binding tighter than OR:
    a disjunction of conjunctions. *)
Fixpoint disjuncts (toks : list where_token) : list (list condition) :=
  match toks with
  | [] => [[]]
  | Cond c :: rest =>
      match disjuncts rest with
      | first :: others => (c :: first) :: others
      | [] => [[c]]
      end
  | AND :: rest => disjuncts rest
  | OR :: rest => [] :: disjuncts rest
  end.

Definition satisfies (d : database) (clause : list where_token) (t : task)
    : bool :=
  existsb (forallb (holds d t)) (disjuncts clause).

(** The two correlated subqueries of the select list. *)
Definition listing (d : database) (t : task) : task_listing :=
  {| tl_task := t;
     tl_assignees :=
       map ta_user_id (where_eq ta_task_id (task_id t) (task_assignees d));
     tl_labels :=
       map tl_label_id (where_eq tl_task_id (task_id t) (task_labels d)) |}.

(** [SELECT t.*, (...) AS assignees, (...) AS labels FROM tasks t WHERE
    <clause>]. *)
Definition select_tasks_where (clause : list where_token) (d : database)
    : outcome (list task_listing * database) :=
  Ok (map (listing d) (filter (satisfies d clause) (tasks d)), d).

(** The columns [PUT /api/tasks/:task_id] may name in its SET list. *)
Inductive task_column :=
| title_col
| description_col
| due_date_col
| priority_col
| status_col
| project_id_col
| updated_at_col.

(** [col = $n] applied to one row; NULL into a NOT NULL column throws. *)
Definition assign (c : task_column) (v : option string) (t : task)
    : outcome task :=
  let row ttl descr due prio stat proj upd :=
    {| task_id := task_id t; title := ttl; description := descr;
       due_date := due; priority := prio; status := stat;
       creator_id := creator_id t; project_id := proj;
       created_at := created_at t; updated_at := upd |} in
  match c, v with
  | title_col, Some s =>
      Ok (row s (description t) (due_date t) (priority t) (status t)
            (project_id t) (updated_at t))
  | description_col, _ =>
      Ok (row (title t) v (due_date t) (priority t) (status t)
            (project_id t) (updated_at t))
  | due_date_col, _ =>
      Ok (row (title t) (description t) v (priority t) (status t)
            (project_id t) (updated_at t))
  | priority_col, Some s =>
      Ok (row (title t) (description t) (due_date t) s (status t)
            (project_id t) (updated_at t))
  | status_col, Some s =>
      Ok (row (title t) (description t) (due_date t) (priority t) s
            (project_id t) (updated_at t))
  | project_id_col, _ =>
      Ok (row (title t) (description t) (due_date t) (priority t) (status t)
            v (updated_at t))
  | updated_at_col, Some s =>
      Ok (row (title t) (description t) (due_date t) (priority t) (status t)
            (project_id t) s)
  | _, None => violated "tasks_not_null"
  end.

Fixpoint assign_all (sets : list (task_column * option string)) (t : task)
    : outcome task :=
  match sets with
  | [] => Ok t
  | (c, v) :: rest =>
      match assign c v t with
      | Ok t' => assign_all rest t'
      | Threw e => Threw e
      end
  end.

Definition names_project_id (sets : list (task_column * option string))
    : bool :=
  existsb (fun cv => match fst cv with project_id_col => true | _ => false end)
    sets.

(** One row under [UPDATE tasks SET <sets>]: the new row must still
    reference an existing project when the statement writes project_id. *)
Definition updated_row (d : database)
    (sets : list (task_column * option string)) (t : task) : outcome task :=
  match assign_all sets t with
  | Ok t' =>
      if names_project_id sets
         && negb (references (project_id t') p_project_id (projects d))
      then violated "tasks_project_id_fkey"
      else Ok t'
  | Threw e => Threw e
  end.

(** The table after the update and the rows that RETURNING yields. *)
Fixpoint update_rows (f : task -> outcome task) (id : string)
    (rows : list task) : outcome (list task * list task) :=
  match rows with
  | [] => Ok ([], [])
  | t :: rest =>
      match update_rows f id rest with
      | Threw e => Threw e
      | Ok (table, returned) =>
          if task_id t =? id then
            match f t with
            | Ok t' => Ok (t' :: table, t' :: returned)
            | Threw e => Threw e
            end
          else Ok (t :: table, returned)
      end
  end.

(** [UPDATE tasks SET <sets> WHERE task_id = $n RETURNING *]. *)
Definition update_task (sets : list (task_column * option string))
    (id : string) (d : database) : outcome (list task * database) :=
  match update_rows (updated_row d sets) id (tasks d) with
  | Ok (table, returned) => Ok (returned, with_tasks table d)
  | Threw e => Threw e
  end.

(** [DELETE FROM subtasks WHERE task_id = $1]. *)
Definition delete_subtasks (id : string) (d : database)
    : outcome (unit * database) :=
  Ok (tt, with_subtasks (delete_where st_task_id id (subtasks d)) d).

(** [DELETE FROM task_comments WHERE task_id = $1]. *)
Definition delete_task_comments (id : string) (d : database)
    : outcome (unit * database) :=
  Ok (tt, with_task_comments (delete_where c_task_id id (task_comments d)) d).

(** [DELETE FROM task_assignees WHERE task_id = $1]. *)
Definition delete_task_assignees (id : string) (d : database)
    : outcome (unit * database) :=
  Ok (tt,
      with_task_assignees (delete_where ta_task_id id (task_assignees d)) d).

(** [DELETE FROM task_labels WHERE task_id = $1]. *)
Definition delete_task_labels (id : string) (d : database)
    : outcome (unit * database) :=
  Ok (tt, with_task_labels (delete_where tl_task_id id (task_labels d)) d).

Definition notification_of_task (id : string) (n : notification) : bool :=
  match n_task_id n with
  | Some tid => tid =? id
  | None => false
  end.

(** The five tables of db.sql that declare
    [FOREIGN KEY (task_id) REFERENCES tasks(task_id)]. *)
Definition task_referenced (id : string) (d : database) : option string :=
  if has st_task_id id (subtasks d) then Some "subtasks_task_id_fkey"
  else if has c_task_id id (task_comments d)
  then Some "task_comments_task_id_fkey"
  else if has ta_task_id id (task_assignees d)
  then Some "task_assignees_task_id_fkey"
  else if has tl_task_id id (task_labels d)
  then Some "task_labels_task_id_fkey"
  else if existsb (notification_of_task id) (notifications d)
  then Some "notifications_task_id_fkey"
  else None.

(** [DELETE FROM tasks WHERE task_id = $1]: a row still referenced from
    another table cannot be deleted. *)
Definition delete_task (id : string) (d : database)
    : outcome (unit * database) :=
  if has task_id id (tasks d) then
    match task_referenced id d with
    | Some fk => violated fk
    | None => Ok (tt, with_tasks (delete_where task_id id (tasks d)) d)
    end
  else Ok (tt, d).

(** [SELECT * FROM notifications WHERE notification_id = $1]. *)
Definition select_notifications_by_id (id : string) (d : database)
    : outcome (list notification * database) :=
  Ok (where_eq n_notification_id id (notifications d), d).

Definition mark (b : bool) (id : string) (n : notification) : notification :=
  if n_notification_id n =? id then
    {| n_notification_id := n_notification_id n; n_user_id := n_user_id n;
       n_notification_type := n_notification_type n;
       n_task_id := n_task_id n; n_message := n_message n;
       n_is_read := b; n_created_at := n_created_at n |}
  else n.

(** [UPDATE notifications SET is_read = $1 WHERE notification_id = $2];
    [is_read] is NOT NULL. *)
Definition update_notification (v : option bool) (id : string)
    (d : database) : outcome (unit * database) :=
  match v with
  | Some b => Ok (tt, with_notifications (map (mark b id) (notifications d)) d)
  | None =>
      if has n_notification_id id (notifications d)
      then violated "notifications_not_null"
      else Ok (tt, d)
  end.

End Pg.

(* ===================================================================== *)
(** * server.js *)
(* ===================================================================== *)

Section Server.

Context `{Platform}.

(** ** Token verification *)

(** Modelled from the spec: [jwt.verify(token, secret, cb)] of the
    jsonwebtoken package, which is not among the sources.  The spec's
    verification routine: parse the token, check the signature against
    the server secret, check expiry > now; success yields the payload,
    any failure an error. *)
Definition jwt_verify (token secret : string) (now : Z) : option identity :=
  match jwt_parse token with
  | Some t =>
      if jwt_signature_ok secret t && (now <? tok_exp t)%Z
      then Some (tok_payload t)
      else None
  | None => None
  end.

(** What a middleware does with a request: call [next()] with
    [req.user] set, or answer it. *)
Inductive middleware_result :=
| next (user : identity)
| answered (r : response).

(** [authHeader && authHeader.split(" ")[1]]: the token a request
    presents. *)
Definition bearer_token (authHeader : field string) : field string :=
  and_then authHeader (index (split_space (text authHeader)) 1).

(** [authenticateToken(req, res, next)], on the Authorization header. *)
Definition authenticateToken (authHeader : field string) (now : Z)
    : middleware_result :=
  let token := bearer_token authHeader in
  if negb (truthy token) then answered (send 401 (message_only "Token missing"))
  else
    match jwt_verify (text token) JWT_SECRET now with
    | None => answered (send 403 (message_only "Invalid token"))
    | Some user => next user
    end.

(** [socket.handshake]: the auth payload and the query string. *)
Record handshake := {
  auth_token : field string;
  query_token : field string
}.

(** The outcome of the [io.use] middleware: [next()] with [socket.user]
    set, or [next(new Error(...))]. *)
Inductive handshake_result :=
| admitted (user : identity)
| refused (error : string).

(** [socket.handshake.auth.token || socket.handshake.query.token]: the
    token a connection presents. *)
Definition handshake_token (hs : handshake) : field string :=
  or_else (auth_token hs) (query_token hs).

(** [io.use((socket, next) => ...)]. *)
Definition io_use (hs : handshake) (now : Z) : handshake_result :=
  let token := handshake_token hs in
  if negb (truthy token) then refused "Authentication error: Token missing"
  else
    match jwt_verify (text token) JWT_SECRET now with
    | None => refused "Authentication error: Invalid token"
    | Some user => admitted user
    end.

(** A connection attempt: the socket joins the server's sockets only
    when the middleware admits it. *)
Definition io_connect (id : string) (hs : handshake) (now : Z) (w : world)
    : world :=
  match io_use hs now with
  | admitted user =>
      {| db := db w;
         sockets := sockets w ++
           [{| socket_id := id; socket_user := user; received := [] |}];
         emitted := emitted w; queries := queries w;
         uuids_drawn := uuids_drawn w |}
  | refused _ => w
  end.

(** A disconnect: the socket leaves the server's sockets. *)
Definition io_disconnect (id : string) (w : world) : world :=
  {| db := db w;
     sockets := filter (fun s => negb (socket_id s =? id)) (sockets w);
     emitted := emitted w; queries := queries w;
     uuids_drawn := uuids_drawn w |}.

(** [app.METHOD(path, authenticateToken, handler)]. *)
Definition authenticated (authHeader : field string) (c : clock)
    (handler : identity -> world -> response * world)
    : world -> response * world :=
  match authenticateToken authHeader (seconds c) with
  | next user => handler user
  | answered r => fun w => (r, w)
  end.

(** ** Auth routes *)

Record register_body := {
  rb_name : field string;
  rb_email : field string;
  rb_password : field string;
  rb_profile_picture : field string
}.

(** [app.post("/api/auth/register", ...)]. *)
Definition post_api_auth_register (b : register_body) (c : clock)
    : world -> response * world :=
  try_catch (
    if negb (truthy (rb_name b)) || negb (truthy (rb_email b))
       || negb (truthy (rb_password b))
    then ret (send 400 (message_only "Name, email, and password are required"))
    else
      let name := text (rb_name b) in
      let email := text (rb_email b) in
      let password := text (rb_password b) in
      existingUser <- pool_query (SELECT_users_WHERE_email email)
                        (Pg.select_users_by_email email) ;;
      if (0 <? length existingUser)%nat
      then ret (send 400 (message_only "Email already in use"))
      else
        let hashedPassword := bcrypt_hash password in
        user_id <- fresh_uuid ;;
        let timestamp := iso c in
        let user_role := "user" in
        pool_query (INSERT_INTO_users user_id)
          (Pg.insert_user
             {| u_user_id := user_id; u_name := name; u_email := email;
                u_password_hash := hashedPassword;
                u_profile_picture := or_null (rb_profile_picture b);
                u_user_role := user_role; u_created_at := timestamp;
                u_updated_at := timestamp |}) ;;;
        let token :=
          jwt_sign {| user_id := user_id; email := email; name := name;
                      user_role := user_role |} JWT_SECRET (seconds c) 86400 in
        ret (send 201 (auth_body "Registration successful" token
               {| pu_user_id := user_id; pu_name := name; pu_email := email;
                  pu_user_role := user_role |}))).

(** A property of a JSON body the code hands on as it came: a string,
    or a value of another type (a number, a boolean, an array, an
    object), of which the code reads the truthiness alone; 0 and [false]
    are the falsy ones. *)
Inductive json :=
| json_text (s : string)
| json_other (is_truthy : bool).

(** [!!v] for such a property. *)
Definition json_truthy (v : field json) : bool :=
  match v with
  | Val (json_text s) => truthy (Val s)
  | Val (json_other is_truthy) => is_truthy
  | _ => false
  end.

(** A property that came as the string it should be. *)
Definition json_of (v : field string) : field json :=
  match v with
  | Undefined => Undefined
  | Null => Null
  | Val s => Val (json_text s)
  end.

(** [await bcrypt.compare(data, hash)]: the package rejects when [data]
    is not a string ("data and hash must be strings"; "data and hash
    arguments required" when it is [undefined] or [null]); on a string
    it is the comparison of the platform. *)
Definition bcrypt_compare_data (data : field json) (hash : string)
    : M bool :=
  match data with
  | Val (json_text s) => ret (bcrypt_compare s hash)
  | Val (json_other _) => throw (library_error "data and hash must be strings")
  | _ => throw (library_error "data and hash arguments required")
  end.

Record login_body := {
  lb_email : field string;
  lb_password : field json
}.

(** [app.post("/api/auth/login", ...)]. *)
Definition post_api_auth_login (b : login_body) (c : clock)
    : world -> response * world :=
  try_catch (
    if negb (truthy (lb_email b)) || negb (json_truthy (lb_password b))
    then ret (send 400 (message_only "Email and password are required"))
    else
      let email := text (lb_email b) in
      let password := lb_password b in
      result <- pool_query (SELECT_users_WHERE_email email)
                  (Pg.select_users_by_email email) ;;
      match result with
      | [] => ret (send 400 (message_only "Invalid credentials"))
      | user :: _ =>
          isPasswordValid <- bcrypt_compare_data password
                               (u_password_hash user) ;;
          if negb isPasswordValid
          then ret (send 400 (message_only "Invalid credentials"))
          else
            let token :=
              jwt_sign {| user_id := u_user_id user; email := u_email user;
                          name := u_name user; user_role := u_user_role user |}
                JWT_SECRET (seconds c) 86400 in
            ret (send 200 (auth_body "Login successful" token
                   {| pu_user_id := u_user_id user; pu_name := u_name user;
                      pu_email := u_email user;
                      pu_user_role := u_user_role user |}))
      end).

(** ** Task routes *)

Record subtask_input := {
  si_title : field string
}.

(** The body of [POST /api/tasks] and [PUT /api/tasks/:task_id]. *)
Record task_body := {
  tb_title : field string;
  tb_description : field string;
  tb_due_date : field string;
  tb_priority : field string;
  tb_status : field string;
  tb_project_id : field string;
  tb_assignees : field (list string);
  tb_labels : field (list string);
  tb_subtasks : field (list subtask_input)
}.

(** The iterable a [for ... of] loop walks; [null] is not iterable. *)
Definition iterable {A} (xs : field (list A)) : M (list A) :=
  match xs with
  | Val l => ret l
  | _ => throw (type_error "not iterable")
  end.

(** [subtasks && subtasks.length > 0 && !subtasks.every(st => st.title)]. *)
Definition some_subtask_untitled (subtasks : field (list subtask_input))
    : bool :=
  match subtasks with
  | Val l =>
      (0 <? length l)%nat && negb (forallb (fun st => truthy (si_title st)) l)
  | _ => false
  end.

(** [app.post("/api/tasks", authenticateToken, ...)], past the
    middleware. *)
Definition post_api_tasks (user : identity) (b : task_body) (c : clock)
    : world -> response * world :=
  try_catch (
    let title := tb_title b in
    let description := tb_description b in
    let due_date := tb_due_date b in
    let priority := with_default "medium" (tb_priority b) in
    let status := with_default "pending" (tb_status b) in
    let project_id := tb_project_id b in
    let assignees := with_default [] (tb_assignees b) in
    let labels := with_default [] (tb_labels b) in
    let subtasks := with_default [] (tb_subtasks b) in
    if negb (truthy title)
    then ret (send 400 (message_only "Title is required"))
    else if some_subtask_untitled subtasks
    then ret (send 400 (message_only "Each subtask must have a title"))
    else
      task_id <- fresh_uuid ;;
      let user_id := user_id user in
      let timestamp := iso c in
      pool_query (INSERT_INTO_tasks task_id)
        (Pg.insert_task task_id (text title) (or_null description)
           (or_null due_date) (to_sql priority) (to_sql status) user_id
           (or_null project_id) timestamp timestamp) ;;;
      (xs <- iterable subtasks ;;
       for_of xs (fun subtask =>
         subtask_id <- fresh_uuid ;;
         pool_query (INSERT_INTO_subtasks subtask_id)
           (Pg.insert_subtask subtask_id task_id (to_sql (si_title subtask))
              false timestamp timestamp))) ;;;
      (xs <- iterable assignees ;;
       for_of xs (fun assigned_user_id =>
         record_id <- fresh_uuid ;;
         pool_query (INSERT_INTO_task_assignees record_id)
           (Pg.insert_task_assignee record_id task_id assigned_user_id
              timestamp))) ;;;
      (xs <- iterable labels ;;
       for_of xs (fun label_id =>
         record_id <- fresh_uuid ;;
         pool_query (INSERT_INTO_task_labels record_id)
           (Pg.insert_task_label record_id task_id label_id))) ;;;
      let taskCreatedPayload :=
        taskCreatedPayload task_id (text title) status (or_null due_date)
          user_id in
      io_emit "task_created"
        {| event := "task_created"; data := taskCreatedPayload |} ;;;
      ret (send 201 (task_created_body "Task created" taskCreatedPayload))).

(** The text of [baseQuery] after the optional [+= " AND t.status = $2"]. *)
Definition baseQuery (user_id : string) (status : field string)
    : list Pg.where_token :=
  [Pg.Cond (Pg.creator_id_eq user_id); Pg.OR;
   Pg.Cond (Pg.task_id_IN_assigned_to user_id)]
  ++ (if truthy status then [Pg.AND; Pg.Cond (Pg.status_eq (text status))]
      else []).

(** [app.get("/api/tasks", authenticateToken, ...)], past the middleware;
    [status] is [req.query.status]. *)
Definition get_api_tasks (user : identity) (status : field string)
    : world -> response * world :=
  try_catch (
    let user_id := user_id user in
    tasksResult <-
      pool_query
        (SELECT_tasks_FOR_user user_id
           (if truthy status then Some (text status) else None))
        (Pg.select_tasks_where (baseQuery user_id status)) ;;
    ret (send 200 (tasks_body tasksResult))).

(** The [fields] / [values] pair assembled by the update handler, kept
    as one list of assignments in the order they are pushed. *)
Definition update_fields (b : task_body) (timestamp : string)
    : list (Pg.task_column * option string) :=
  (if truthy (tb_title b)
   then [(Pg.title_col, to_sql (tb_title b))] else [])
  ++ (if defined (tb_description b)
      then [(Pg.description_col, to_sql (tb_description b))] else [])
  ++ (if defined (tb_due_date b)
      then [(Pg.due_date_col, to_sql (tb_due_date b))] else [])
  ++ (if truthy (tb_priority b)
      then [(Pg.priority_col, to_sql (tb_priority b))] else [])
  ++ (if truthy (tb_status b)
      then [(Pg.status_col, to_sql (tb_status b))] else [])
  ++ (if defined (tb_project_id b)
      then [(Pg.project_id_col, to_sql (tb_project_id b))] else [])
  ++ [(Pg.updated_at_col, Some timestamp)].

(** [app.put("/api/tasks/:task_id", authenticateToken, ...)], past the
    middleware. *)
Definition put_api_tasks (user : identity) (task_id : string)
    (b : task_body) (c : clock) : world -> response * world :=
  try_catch (
    existingTaskResult <- pool_query (SELECT_tasks_WHERE_task_id task_id)
                            (Pg.select_tasks_by_id task_id) ;;
    match existingTaskResult with
    | [] => ret (send 404 (message_only "Task not found"))
    | existing :: _ =>
        if negb (creator_id existing =? user_id user)
        then ret (send 403 (message_only
               "Unauthorized: Only the task creator can update the task"))
        else
          let timestamp := iso c in
          updateResult <- pool_query (UPDATE_tasks task_id)
                            (Pg.update_task (update_fields b timestamp)
                               task_id) ;;
          let updatedTask := index updateResult 0 in
          let updatedFields :=
            {| uf_status := tb_status b; uf_priority := tb_priority b;
               uf_due_date := tb_due_date b |} in
          let payload := taskUpdatedPayload task_id updatedFields timestamp in
          io_emit "task_updated"
            {| event := "task_updated"; data := payload |} ;;;
          ret (send 200 (task_updated_body "Task updated" updatedTask))
    end).

(** [app.delete("/api/tasks/:task_id", authenticateToken, ...)], past the
    middleware. *)
Definition delete_api_tasks (user : identity) (task_id : string)
    : world -> response * world :=
  try_catch (
    existingTaskResult <- pool_query (SELECT_tasks_WHERE_task_id task_id)
                            (Pg.select_tasks_by_id task_id) ;;
    match existingTaskResult with
    | [] => ret (send 404 (message_only "Task not found"))
    | existing :: _ =>
        if negb (creator_id existing =? user_id user)
        then ret (send 403 (message_only
               "Unauthorized: Only the task creator can delete the task"))
        else
          pool_query (DELETE_FROM_subtasks task_id)
            (Pg.delete_subtasks task_id) ;;;
          pool_query (DELETE_FROM_task_comments task_id)
            (Pg.delete_task_comments task_id) ;;;
          pool_query (DELETE_FROM_task_assignees task_id)
            (Pg.delete_task_assignees task_id) ;;;
          pool_query (DELETE_FROM_task_labels task_id)
            (Pg.delete_task_labels task_id) ;;;
          pool_query (DELETE_FROM_tasks task_id)
            (Pg.delete_task task_id) ;;;
          io_emit "task_deleted"
            {| event := "task_deleted"; data := taskDeletedPayload task_id |} ;;;
          ret (send 200 (message_only "Task deleted successfully"))
    end).

Record comment_request := {
  cb_comment_text : field string
}.

(** [app.post("/api/tasks/:task_id/comments", authenticateToken, ...)],
    past the middleware. *)
Definition post_api_tasks_comments (user : identity) (task_id : string)
    (b : comment_request) (c : clock) : world -> response * world :=
  try_catch (
    let comment_text := cb_comment_text b in
    if negb (truthy comment_text)
    then ret (send 400 (message_only "Comment text is required"))
    else
      comment_id <- fresh_uuid ;;
      let user_id := user_id user in
      let timestamp := iso c in
      pool_query (INSERT_INTO_task_comments comment_id)
        (Pg.insert_task_comment comment_id task_id user_id
           (text comment_text) timestamp) ;;;
      let commentPayload :=
        commentPayload comment_id task_id user_id (text comment_text)
          timestamp in
      io_emit "new_comment"
        {| event := "new_comment"; data := commentPayload |} ;;;
      ret (send 201 (comment_body "Comment added" commentPayload))).

(** ** Notification routes *)

Record notification_body := {
  nb_is_read : field bool
}.

(** [app.put("/api/notifications/:notification_id", authenticateToken,
    ...)], past the middleware. *)
Definition put_api_notifications (user : identity) (notification_id : string)
    (b : notification_body) : world -> response * world :=
  try_catch (
    let is_read := nb_is_read b in
    notifResult <-
      pool_query (SELECT_notifications_WHERE_notification_id notification_id)
        (Pg.select_notifications_by_id notification_id) ;;
    match notifResult with
    | [] => ret (send 404 (message_only "Notification not found"))
    | notif :: _ =>
        if negb (n_user_id notif =? user_id user)
        then ret (send 403 (message_only
               "Unauthorized: Cannot update this notification"))
        else
          pool_query (UPDATE_notifications notification_id)
            (Pg.update_notification (to_sql is_read) notification_id) ;;;
          ret (send 200 (message_only "Notification updated"))
    end).

(** ** The routes as mounted, middleware included *)

Definition app_post_api_tasks (authHeader : field string) (b : task_body)
    (c : clock) : world -> response * world :=
  authenticated authHeader c (fun user => post_api_tasks user b c).

Definition app_get_api_tasks (authHeader : field string)
    (status : field string) (c : clock) : world -> response * world :=
  authenticated authHeader c (fun user => get_api_tasks user status).

Definition app_put_api_tasks (authHeader : field string) (task_id : string)
    (b : task_body) (c : clock) : world -> response * world :=
  authenticated authHeader c (fun user => put_api_tasks user task_id b c).

Definition app_delete_api_tasks (authHeader : field string)
    (task_id : string) (c : clock) : world -> response * world :=
  authenticated authHeader c (fun user => delete_api_tasks user task_id).

Definition app_post_api_tasks_comments (authHeader : field string)
    (task_id : string) (b : comment_request) (c : clock)
    : world -> response * world :=
  authenticated authHeader c
    (fun user => post_api_tasks_comments user task_id b c).

Definition app_put_api_notifications (authHeader : field string)
    (notification_id : string) (b : notification_body) (c : clock)
    : world -> response * world :=
  authenticated authHeader c
    (fun user => put_api_notifications user notification_id b).

End Server.

(* ===================================================================== *)
(** * The seed data of db.sql *)
(* ===================================================================== *)

Module Seed.

Definition dq : string := String (ascii_of_nat 34) EmptyString.

Definition user1 : user :=
  {| u_user_id := "user1"; u_name := "Alice Johnson"; u_email := "alice@example.com";
     u_password_hash := "hashed_password_alice";
     u_profile_picture := Some "https://picsum.photos/seed/alice/200";
     u_user_role := "user"; u_created_at := "2023-10-01 10:00:00";
     u_updated_at := "2023-10-01 10:00:00" |}.

Definition user2 : user :=
  {| u_user_id := "user2"; u_name := "Bob Smith"; u_email := "bob@example.com";
     u_password_hash := "hashed_password_bob";
     u_profile_picture := Some "https://picsum.photos/seed/bob/200";
     u_user_role := "manager"; u_created_at := "2023-10-01 10:05:00";
     u_updated_at := "2023-10-01 10:05:00" |}.

Definition user3 : user :=
  {| u_user_id := "user3"; u_name := "Cindy Lee"; u_email := "cindy@example.com";
     u_password_hash := "hashed_password_cindy";
     u_profile_picture := Some "https://picsum.photos/seed/cindy/200";
     u_user_role := "user"; u_created_at := "2023-10-01 10:10:00";
     u_updated_at := "2023-10-01 10:10:00" |}.

Definition seed_users : list user := [user1; user2; user3].

Definition seed_projects : list project :=
  [{| p_project_id := "project1"; p_title := "Website Redesign";
      p_description := Some "Revamp the company website";
      p_due_date := Some "2023-11-30"; p_creator_id := "user2";
      p_created_at := "2023-10-01 11:00:00"; p_updated_at := "2023-10-01 11:00:00" |};
   {| p_project_id := "project2"; p_title := "Mobile App Launch";
      p_description := Some "Develop and launch the new mobile app";
      p_due_date := Some "2023-12-15"; p_creator_id := "user2";
      p_created_at := "2023-10-01 11:05:00"; p_updated_at := "2023-10-01 11:05:00" |}].

Definition task1 : task :=
  {| task_id := "task1"; title := "Create wireframes";
     description := Some "Design initial wireframes for the website redesign";
     due_date := Some "2023-10-15"; priority := "high"; status := "in_progress";
     creator_id := "user1"; project_id := Some "project1";
     created_at := "2023-10-02 09:00:00"; updated_at := "2023-10-02 09:30:00" |}.

Definition task2 : task :=
  {| task_id := "task2"; title := "Set up project repository";
     description := Some "Initialize git repo for mobile app project";
     due_date := Some "2023-10-12"; priority := "medium"; status := "pending";
     creator_id := "user2"; project_id := Some "project2";
     created_at := "2023-10-02 10:00:00"; updated_at := "2023-10-02 10:10:00" |}.

Definition task3 : task :=
  {| task_id := "task3"; title := "Write unit tests";
     description := Some "Implement tests for new features";
     due_date := Some "2023-10-20"; priority := "low"; status := "pending";
     creator_id := "user3"; project_id := None;
     created_at := "2023-10-02 10:30:00"; updated_at := "2023-10-02 10:30:00" |}.

Definition task4 : task :=
  {| task_id := "task4"; title := "Deploy to staging";
     description := Some "Deploy current build to staging environment";
     due_date := Some "2023-10-18"; priority := "medium"; status := "in_progress";
     creator_id := "user2"; project_id := Some "project1";
     created_at := "2023-10-02 11:00:00"; updated_at := "2023-10-02 11:15:00" |}.

Definition seed_tasks : list task := [task1; task2; task3; task4].

Definition seed_subtasks : list subtask :=
  [{| st_subtask_id := "subtask1"; st_task_id := "task1";
      st_title := "Sketch layout"; st_is_completed := false;
      st_created_at := "2023-10-03 08:00:00"; st_updated_at := "2023-10-03 08:00:00" |};
   {| st_subtask_id := "subtask2"; st_task_id := "task1";
      st_title := "Review with team"; st_is_completed := false;
      st_created_at := "2023-10-03 08:10:00"; st_updated_at := "2023-10-03 08:10:00" |};
   {| st_subtask_id := "subtask3"; st_task_id := "task2";
      st_title := "Set up CI/CD pipeline"; st_is_completed := false;
      st_created_at := "2023-10-03 09:00:00"; st_updated_at := "2023-10-03 09:00:00" |};
   {| st_subtask_id := "subtask4"; st_task_id := "task4";
      st_title := "Prepare environment variables"; st_is_completed := true;
      st_created_at := "2023-10-03 09:30:00"; st_updated_at := "2023-10-03 09:45:00" |}].

Definition seed_task_comments : list task_comment :=
  [{| c_comment_id := "comment1"; c_task_id := "task1"; c_user_id := "user2";
      c_comment_text := "Looks good, please also consider mobile layout.";
      c_created_at := "2023-10-04 10:00:00" |};
   {| c_comment_id := "comment2"; c_task_id := "task1"; c_user_id := "user3";
      c_comment_text := "I can provide some input on colors.";
      c_created_at := "2023-10-04 10:05:00" |};
   {| c_comment_id := "comment3"; c_task_id := "task2"; c_user_id := "user1";
      c_comment_text := "Repo initialized. Ready for push.";
      c_created_at := "2023-10-04 11:00:00" |};
   {| c_comment_id := "comment4"; c_task_id := "task4"; c_user_id := "user2";
      c_comment_text := "Staging deployment scheduled for today.";
      c_created_at := "2023-10-04 11:30:00" |}].

Definition seed_task_assignees : list task_assignee :=
  [{| ta_record_id := "ta1"; ta_task_id := "task1"; ta_user_id := "user2";
      ta_assigned_at := "2023-10-04 12:00:00" |};
   {| ta_record_id := "ta2"; ta_task_id := "task1"; ta_user_id := "user3";
      ta_assigned_at := "2023-10-04 12:05:00" |};
   {| ta_record_id := "ta3"; ta_task_id := "task2"; ta_user_id := "user1";
      ta_assigned_at := "2023-10-04 12:10:00" |};
   {| ta_record_id := "ta4"; ta_task_id := "task3"; ta_user_id := "user3";
      ta_assigned_at := "2023-10-04 12:15:00" |};
   {| ta_record_id := "ta5"; ta_task_id := "task4"; ta_user_id := "user1";
      ta_assigned_at := "2023-10-04 12:20:00" |};
   {| ta_record_id := "ta6"; ta_task_id := "task4"; ta_user_id := "user2";
      ta_assigned_at := "2023-10-04 12:25:00" |}].

Definition seed_labels : list label :=
  [{| l_label_id := "label1"; l_label_name := "urgent" |};
   {| l_label_id := "label2"; l_label_name := "feature" |};
   {| l_label_id := "label3"; l_label_name := "bug" |};
   {| l_label_id := "label4"; l_label_name := "research" |}].

Definition seed_task_labels : list task_label :=
  [{| tl_record_id := "tl1"; tl_task_id := "task1"; tl_label_id := "label1" |};
   {| tl_record_id := "tl2"; tl_task_id := "task1"; tl_label_id := "label4" |};
   {| tl_record_id := "tl3"; tl_task_id := "task2"; tl_label_id := "label2" |};
   {| tl_record_id := "tl4"; tl_task_id := "task3"; tl_label_id := "label3" |};
   {| tl_record_id := "tl5"; tl_task_id := "task4"; tl_label_id := "label2" |};
   {| tl_record_id := "tl6"; tl_task_id := "task4"; tl_label_id := "label1" |}].

Definition seed_notifications : list notification :=
  [{| n_notification_id := "notif1"; n_user_id := "user2";
      n_notification_type := "assignment"; n_task_id := Some "task1";
      n_message :=
        ("You have been assigned to task " ++ dq ++ "Create wireframes" ++ dq ++ ".");
      n_is_read := false; n_created_at := "2023-10-05 08:00:00" |};
   {| n_notification_id := "notif2"; n_user_id := "user3";
      n_notification_type := "comment"; n_task_id := Some "task1";
      n_message :=
        ("A comment has been added to " ++ dq ++ "Create wireframes" ++ dq ++ ".");
      n_is_read := false; n_created_at := "2023-10-05 08:05:00" |};
   {| n_notification_id := "notif3"; n_user_id := "user1";
      n_notification_type := "status_change"; n_task_id := Some "task2";
      n_message :=
        ("Task " ++ dq ++ "Set up project repository" ++ dq ++ " status updated.");
      n_is_read := false; n_created_at := "2023-10-05 08:10:00" |};
   {| n_notification_id := "notif4"; n_user_id := "user2";
      n_notification_type := "assignment"; n_task_id := Some "task4";
      n_message :=
        ("You have been assigned to task " ++ dq ++ "Deploy to staging" ++ dq ++ ".");
      n_is_read := true; n_created_at := "2023-10-05 08:15:00" |};
   {| n_notification_id := "notif5"; n_user_id := "user1";
      n_notification_type := "general"; n_task_id := None;
      n_message := "System maintenance scheduled for tonight.";
      n_is_read := false; n_created_at := "2023-10-05 08:20:00" |}].

Definition seed : database :=
  {| users := seed_users; projects := seed_projects; tasks := seed_tasks;
     subtasks := seed_subtasks; task_comments := seed_task_comments;
     task_assignees := seed_task_assignees; labels := seed_labels;
     task_labels := seed_task_labels; notifications := seed_notifications |}.

(** The server just started on the seeded store: nobody connected,
    nothing sent. *)
Definition started : world :=
  {| db := seed; sockets := []; emitted := []; queries := [];
     uuids_drawn := 0 |}.

End Seed.

(* ===================================================================== *)
(** * A concrete platform, for running the handlers *)
(* ===================================================================== *)

Module Demo.

Definition alice : identity :=
  {| user_id := "user1"; email := "alice@example.com";
     name := "Alice Johnson"; user_role := "user" |}.

Definition bob : identity :=
  {| user_id := "user2"; email := "bob@example.com";
     name := "Bob Smith"; user_role := "manager" |}.

(** Tokens are the strings ["alice"], ["bob"] (good signature, expiring
    at 1000 s) and ["mallory"] (Alice's payload under a signature that
    does not verify); uuids are ["uuid-0"], ["uuid-1"], ... *)
Definition platform : Platform :=
  {| JWT_SECRET := "your_jwt_secret";
     uuidv4 := fun n =>
       ("uuid-" ++ NilZero.string_of_uint (Nat.to_uint n))%string;
     bcrypt_hash := fun password => ("$2b$10$" ++ password)%string;
     bcrypt_compare := fun password hash =>
       hash =? ("$2b$10$" ++ password)%string;
     jwt_sign := fun payload secret now lifetime => user_id payload;
     jwt_parse := fun token =>
       if token =? "alice"
       then Some {| tok_payload := alice; tok_exp := 1000;
                    tok_signature := "good" |}
       else if token =? "bob"
       then Some {| tok_payload := bob; tok_exp := 1000;
                    tok_signature := "good" |}
       else if token =? "mallory"
       then Some {| tok_payload := alice; tok_exp := 1000;
                    tok_signature := "forged" |}
       else None;
     jwt_signature_ok := fun secret t =>
       (secret =? "your_jwt_secret") && (tok_signature t =? "good") |}.

Definition at_noon : clock :=
  {| iso := "2023-10-06T12:00:00.000Z"; seconds := 500 |}.

(** A task body with every property absent. *)
Definition no_fields : task_body :=
  {| tb_title := Undefined; tb_description := Undefined;
     tb_due_date := Undefined; tb_priority := Undefined;
     tb_status := Undefined; tb_project_id := Undefined;
     tb_assignees := Undefined; tb_labels := Undefined;
     tb_subtasks := Undefined |}.

(** [{ project_id: p }]. *)
Definition move_to_project (p : string) : task_body :=
  {| tb_title := Undefined; tb_description := Undefined;
     tb_due_date := Undefined; tb_priority := Undefined;
     tb_status := Undefined; tb_project_id := Val p;
     tb_assignees := Undefined; tb_labels := Undefined;
     tb_subtasks := Undefined |}.

(** [{ status: s }]. *)
Definition set_status (s : string) : task_body :=
  {| tb_title := Undefined; tb_description := Undefined;
     tb_due_date := Undefined; tb_priority := Undefined;
     tb_status := Val s; tb_project_id := Undefined;
     tb_assignees := Undefined; tb_labels := Undefined;
     tb_subtasks := Undefined |}.

(** [{ title: t, description: null }]. *)
Definition retitle_and_clear (t : string) : task_body :=
  {| tb_title := Val t; tb_description := Null;
     tb_due_date := Undefined; tb_priority := Undefined;
     tb_status := Undefined; tb_project_id := Undefined;
     tb_assignees := Undefined; tb_labels := Undefined;
     tb_subtasks := Undefined |}.

(** [{ title: t, priority: p, status: s }]. *)
Definition new_task (t p s : string) : task_body :=
  {| tb_title := Val t; tb_description := Undefined;
     tb_due_date := Undefined; tb_priority := Val p;
     tb_status := Val s; tb_project_id := Undefined;
     tb_assignees := Undefined; tb_labels := Undefined;
     tb_subtasks := Undefined |}.

End Demo.

(* ===================================================================== *)
(** * Vocabulary of the statements *)
(* ===================================================================== *)

Section Vocabulary.

Context `{Platform}.

(** The signature of the token verifies against the server secret and
    its expiry has not elapsed at [now]; [user] is the payload. *)
Definition verifies (token : string) (now : Z) (user : identity) : Prop :=
  exists t, jwt_parse token = Some t
            /\ jwt_signature_ok JWT_SECRET t = true
            /\ (now < tok_exp t)%Z
            /\ tok_payload t = user.

Definition emails (d : database) : list string := map u_email (users d).


(** A computation leaves an observation [f] of the world alone. *)
Definition keeps {X A} (f : world -> X) (m : M A) : Prop :=
  forall w, f (snd (m w)) = f w.

(** Nothing is sent to anybody. *)
Definition silent (w w' : world) : Prop :=
  emitted w' = emitted w /\ sockets w' = sockets w.

(** Exactly one envelope [{ event: name, data }] is emitted under the
    event name [name], and every socket connected at that moment is sent
    it: the registry holds the same sockets, in place, each with its
    user as before and with what it had received followed by the
    envelope. *)
Definition broadcast_of (name : string) (w w' : world) : Prop :=
  exists d,
    let ev := (name, {| event := name; data := d |}) in
    emitted w' = emitted w ++ [ev]
    /\ sockets w'
       = map (fun s => {| socket_id := socket_id s;
                          socket_user := socket_user s;
                          received := received s ++ [ev] |}) (sockets w).

(** A 2xx answer. *)
Definition succeeded (r : response) : bool := (res_status r <? 300)%nat.

(** A route announces [name]: one broadcast when it answers with
    success, silence when it answers with a failure. *)
Definition announces (name : string) (route : world -> response * world)
    : Prop :=
  forall w,
    if succeeded (fst (route w)) then broadcast_of name w (snd (route w))
    else silent w (snd (route w)).

(** The same for a handler body, where a throw counts as a failure. *)
Definition announces_in (name : string) (m : M response) : Prop :=
  forall w,
    match fst (m w) with
    | Ok r =>
        if succeeded r then broadcast_of name w (snd (m w))
        else silent w (snd (m w))
    | Threw _ => silent w (snd (m w))
    end.

(** The row [PUT /api/tasks/:task_id] writes in place of [t]: title,
    priority and status change when the body holds a non-empty string;
    description, due_date and project_id change when the body holds the
    property at all, [null] included; updated_at is the handler's
    timestamp; the key, the creator and created_at stay. *)
Definition updated_task (b : task_body) (timestamp : string) (t : task)
    : task :=
  {| task_id := task_id t;
     title := if truthy (tb_title b) then text (tb_title b) else title t;
     description :=
       if defined (tb_description b) then to_sql (tb_description b)
       else description t;
     due_date :=
       if defined (tb_due_date b) then to_sql (tb_due_date b)
       else due_date t;
     priority :=
       if truthy (tb_priority b) then text (tb_priority b) else priority t;
     status := if truthy (tb_status b) then text (tb_status b) else status t;
     creator_id := creator_id t;
     project_id :=
       if defined (tb_project_id b) then to_sql (tb_project_id b)
       else project_id t;
     created_at := created_at t;
     updated_at := timestamp |}.

(** The store accepts the project the body names: none, [null], or the
    key of a stored project. *)
Definition project_accepted (b : task_body) (d : database) : bool :=
  match tb_project_id b with
  | Val p => Pg.has p_project_id p (projects d)
  | _ => true
  end.

(** The tasks table after [UPDATE tasks ... WHERE task_id = id] wrote
    [updated_task] over every row with that key. *)
Definition tasks_after_update (id : string) (b : task_body)
    (timestamp : string) (rows : list task) : list task :=
  map (fun t => if task_id t =? id then updated_task b timestamp t else t)
    rows.

(** The event a successful task update emits. *)
Definition task_updated_event (id : string) (b : task_body)
    (timestamp : string) : string * envelope :=
  ("task_updated",
   {| event := "task_updated";
      data := taskUpdatedPayload id
                {| uf_status := tb_status b; uf_priority := tb_priority b;
                   uf_due_date := tb_due_date b |} timestamp |}).

(** The store after the four child-table deletes of the delete handler. *)
Definition without_children (id : string) (d : database) : database :=
  Pg.with_task_labels (Pg.delete_where tl_task_id id (task_labels d))
    (Pg.with_task_assignees (Pg.delete_where ta_task_id id (task_assignees d))
       (Pg.with_task_comments (Pg.delete_where c_task_id id (task_comments d))
          (Pg.with_subtasks (Pg.delete_where st_task_id id (subtasks d)) d))).

(** The statements the delete handler sends once the creator is known,
    in order. *)
Definition cascade (id : string) : list statement :=
  [DELETE_FROM_subtasks id; DELETE_FROM_task_comments id;
   DELETE_FROM_task_assignees id; DELETE_FROM_task_labels id;
   DELETE_FROM_tasks id].

(** Some notification row points at the task. *)
Definition notified (id : string) (d : database) : bool :=
  existsb (Pg.notification_of_task id) (notifications d).

(** The event a successful task deletion emits. *)
Definition task_deleted_event (id : string) : string * envelope :=
  ("task_deleted",
   {| event := "task_deleted"; data := taskDeletedPayload id |}).

(** The owner gate on one answer: Forbidden exactly for a caller who is
    not the owner, and then without any effect on the store or on the
    sockets; success only for the owner. *)
Definition owner_gated (owner caller : string) (w : world)
    (out : response * world) : Prop :=
  (res_status (fst out) = 403 <-> owner <> caller)
  /\ (owner <> caller -> db (snd out) = db w /\ silent w (snd out))
  /\ (res_status (fst out) = 200 -> owner = caller).

(** [is_read] arrived with a value, neither absent nor [null]. *)
Definition is_read_given (b : notification_body) : bool :=
  match nb_is_read b with
  | Val _ => true
  | _ => false
  end.

(** The rows a task-list answer carries. *)
Definition listed (r : response) : list task_listing :=
  match res_body r with
  | tasks_body rows => rows
  | _ => []
  end.

(** The caller is an assignee of the task. *)
Definition assigned_to (d : database) (uid : string) (t : task) : bool :=
  Pg.holds d t (Pg.task_id_IN_assigned_to uid).

(** The enumerations of the data model. *)
Definition priorities : list string := ["low"; "medium"; "high"].
Definition statuses : list string := ["pending"; "in_progress"; "completed"].

Definition in_range (t : task) : Prop :=
  In (priority t) priorities /\ In (status t) statuses.

(** A body property that, when it holds a string, holds one of
    [allowed]. *)
Definition drawn_from (allowed : list string) (f : field string) : Prop :=
  match f with
  | Val s => In s allowed
  | _ => True
  end.

(** A task create or a task update, past the middleware. *)
Inductive task_request :=
| create_request (user : identity) (b : task_body) (c : clock)
| update_request (user : identity) (id : string) (b : task_body) (c : clock).

Definition body_of (rq : task_request) : task_body :=
  match rq with
  | create_request _ b _ => b
  | update_request _ _ b _ => b
  end.

Definition well_valued (rq : task_request) : Prop :=
  drawn_from priorities (tb_priority (body_of rq))
  /\ drawn_from statuses (tb_status (body_of rq)).

Definition serve (rq : task_request) (w : world) : world :=
  match rq with
  | create_request user b c => snd (post_api_tasks user b c w)
  | update_request user id b c => snd (put_api_tasks user id b c w)
  end.

Fixpoint serve_all (rqs : list task_request) (w : world) : world :=
  match rqs with
  | [] => w
  | rq :: rest => serve_all rest (serve rq w)
  end.

(** The tasks table of a world. *)
Definition tasks_of (w : world) : list task := tasks (db w).

(** The one answer of a failed login. *)
Definition invalid_credentials : response :=
  send 400 (message_only "Invalid credentials").

End Vocabulary.

(* ===================================================================== *)
(** * Requests used to run the handlers *)
(* ===================================================================== *)

Module Scenario.



(** A login for Alice with a password that is not hers. *)
Definition alice_wrong_password : login_body :=
  {| lb_email := Val "alice@example.com";
     lb_password := Val (json_text "guess") |}.

(** [{ email: "alice@example.com", password: 12345 }] and the same for
    an email nobody has: the password is a number. *)
Definition alice_numeric_password : login_body :=
  {| lb_email := Val "alice@example.com";
     lb_password := Val (json_other true) |}.

Definition nobody_numeric_password : login_body :=
  {| lb_email := Val "nobody@example.com";
     lb_password := Val (json_other true) |}.

(** Alice creates a task, then completes it. *)
Definition write_spec_then_complete : list task_request :=
  [create_request Demo.alice (Demo.new_task "Write spec" "high" "pending")
     Demo.at_noon;
   update_request Demo.alice "uuid-0" (Demo.set_status "completed")
     Demo.at_noon].

End Scenario.

(* ===================================================================== *)
(** * server.js: the remaining routes *)
(* ===================================================================== *)

(** The order PostgreSQL gives to text under the collation of the
    database, as ORDER BY uses it. *)
Class Collation := {
  text_leb : string -> string -> bool
}.

(** What a route hands to [res.json] when the object is not one of
    [json_body]: a status with a body of the route's own, or one of the
    message answers. *)
Inductive reply (A : Type) : Type :=
| with_body : nat -> A -> reply A
| plain : response -> reply A.

Arguments with_body {A} _ _.
Arguments plain {A} _.

Definition reply_status {A} (r : reply A) : nat :=
  match r with
  | with_body code _ => code
  | plain r => res_status r
  end.

(** [await pool.query(q, params)] for the statements of these routes:
    the statement runs on the store; the log of [world] keeps to the
    statements of its own vocabulary. *)
Definition pool_run {A} (run : database -> outcome (A * database)) : M A :=
  fun w =>
    match run (db w) with
    | Ok (a, d) => (Ok a, set_db d w)
    | Threw e => (Threw e, w)
    end.

(** [try { ... } catch (error) { res.status(500)... }]. *)
Definition try_catch_reply {A} (m : M (reply A))
    : world -> reply A * world :=
  fun w =>
    match m w with
    | (Ok r, w') => (r, w')
    | (Threw _, w') => (plain internal_server_error, w')
    end.

(** The projections and records the SELECT lists of these routes yield. *)

Record profile := {
  pf_user_id : string;
  pf_name : string;
  pf_email : string;
  pf_profile_picture : option string;
  pf_user_role : string
}.

Record statistics := {
  pending : nat;
  in_progress : nat;
  completed : nat;
  total_tasks : nat
}.

Record deadline := {
  dl_task_id : string;
  dl_title : string;
  dl_due_date : string
}.

Record subtask_row := {
  sr_subtask_id : string;
  sr_title : string;
  sr_is_completed : bool
}.

Record comment_row := {
  cr_comment_id : string;
  cr_user_id : string;
  cr_comment_text : string;
  cr_created_at : string
}.

Record assignee_row := {
  ar_user_id : string;
  ar_name : string
}.

Record notification_row := {
  nr_notification_id : string;
  nr_notification_type : string;
  nr_task_id : option string;
  nr_message : string;
  nr_is_read : bool;
  nr_created_at : string
}.

Record project_task := {
  pt_task_id : string;
  pt_title : string;
  pt_status : string;
  pt_due_date : option string
}.

Module PgMore.

Definition profile_of (u : user) : profile :=
  {| pf_user_id := u_user_id u; pf_name := u_name u; pf_email := u_email u;
     pf_profile_picture := u_profile_picture u;
     pf_user_role := u_user_role u |}.

(** [SELECT user_id, name, email, profile_picture, user_role FROM users
    WHERE user_id = $1]. *)
Definition select_profile (id : string) (d : database)
    : outcome (list profile * database) :=
  Ok (map profile_of (Pg.where_eq u_user_id id (users d)), d).

Definition with_profile (nm em : string) (picture : option string)
    (updated : string) (id : string) (u : user) : user :=
  if u_user_id u =? id then
    {| u_user_id := u_user_id u; u_name := nm; u_email := em;
       u_password_hash := u_password_hash u; u_profile_picture := picture;
       u_user_role := u_user_role u; u_created_at := u_created_at u;
       u_updated_at := updated |}
  else u.

(** The new email would be stored twice: another user holds it, or the
    statement writes it on more than one row. *)
Definition email_taken (em id : string) (rows : list user) : bool :=
  existsb (fun u => negb (u_user_id u =? id) && (u_email u =? em)) rows
  || (1 <? length (Pg.where_eq u_user_id id rows))%nat.

(** [UPDATE users SET name = $1, email = $2, profile_picture = $3,
    updated_at = $4 WHERE user_id = $5]; [email] is UNIQUE. *)
Definition update_profile (nm em : string) (picture : option string)
    (updated : string) (id : string) (d : database)
    : outcome (unit * database) :=
  if Pg.has u_user_id id (users d) && email_taken em id (users d)
  then Pg.violated "users_email_key"
  else Ok (tt, Pg.with_users
                 (map (with_profile nm em picture updated id) (users d)) d).

(** [COUNT FILTER (WHERE status = s)], over all rows. *)
Definition count_status (s : string) (rows : list task) : nat :=
  length (filter (fun t => status t =? s) rows).

(** The [statsQuery] of the dashboard: one row of four counts over the
    tasks the user created. *)
Definition select_statistics (uid : string) (d : database)
    : outcome (list statistics * database) :=
  let mine := Pg.where_eq creator_id uid (tasks d) in
  Ok ([{| pending := count_status "pending" mine;
          in_progress := count_status "in_progress" mine;
          completed := count_status "completed" mine;
          total_tasks := length mine |}], d).

(** [ORDER BY key ASC] under a text order: insertion into the rows
    already ordered; rows that compare equal keep their table order. *)
Fixpoint insert_by {A} (leb : string -> string -> bool) (key : A -> string)
    (x : A) (rows : list A) : list A :=
  match rows with
  | [] => [x]
  | y :: rest =>
      if leb (key x) (key y) then x :: y :: rest
      else y :: insert_by leb key x rest
  end.

Definition order_by {A} (leb : string -> string -> bool) (key : A -> string)
    (rows : list A) : list A :=
  fold_right (insert_by leb key) [] rows.

(** The rows of the [deadlineQuery] before ordering: the user's tasks
    with a due date. *)
Definition deadline_of (t : task) : list deadline :=
  match due_date t with
  | Some due =>
      [{| dl_task_id := task_id t; dl_title := title t; dl_due_date := due |}]
  | None => []
  end.

(** [SELECT task_id, title, due_date FROM tasks WHERE creator_id = $1 AND
    due_date IS NOT NULL ORDER BY due_date ASC LIMIT 5]. *)
Definition select_deadlines `{Collation} (uid : string) (d : database)
    : outcome (list deadline * database) :=
  Ok (firstn 5
        (order_by text_leb dl_due_date
           (flat_map deadline_of (Pg.where_eq creator_id uid (tasks d)))), d).

(** [SELECT subtask_id, title, is_completed FROM subtasks WHERE task_id =
    $1]. *)
Definition select_subtasks (id : string) (d : database)
    : outcome (list subtask_row * database) :=
  Ok (map (fun s => {| sr_subtask_id := st_subtask_id s;
                       sr_title := st_title s;
                       sr_is_completed := st_is_completed s |})
        (Pg.where_eq st_task_id id (subtasks d)), d).

(** [SELECT comment_id, user_id, comment_text, created_at FROM
    task_comments WHERE task_id = $1 ORDER BY created_at ASC]. *)
Definition select_comments `{Collation} (id : string) (d : database)
    : outcome (list comment_row * database) :=
  Ok (order_by text_leb cr_created_at
        (map (fun c => {| cr_comment_id := c_comment_id c;
                          cr_user_id := c_user_id c;
                          cr_comment_text := c_comment_text c;
                          cr_created_at := c_created_at c |})
           (Pg.where_eq c_task_id id (task_comments d))), d).

(** [SELECT u.user_id, u.name FROM task_assignees ta JOIN users u ON
    ta.user_id = u.user_id WHERE ta.task_id = $1]. *)
Definition select_assignees (id : string) (d : database)
    : outcome (list assignee_row * database) :=
  Ok (flat_map
        (fun ta =>
           map (fun u => {| ar_user_id := u_user_id u; ar_name := u_name u |})
             (Pg.where_eq u_user_id (ta_user_id ta) (users d)))
        (Pg.where_eq ta_task_id id (task_assignees d)), d).

(** [SELECT label_id FROM task_labels WHERE task_id = $1]. *)
Definition select_task_labels (id : string) (d : database)
    : outcome (list task_label * database) :=
  Ok (Pg.where_eq tl_task_id id (task_labels d), d).

Definition notification_row_of (n : notification) : notification_row :=
  {| nr_notification_id := n_notification_id n;
     nr_notification_type := n_notification_type n;
     nr_task_id := n_task_id n; nr_message := n_message n;
     nr_is_read := n_is_read n; nr_created_at := n_created_at n |}.

(** [SELECT notification_id, notification_type, task_id, message,
    is_read, created_at FROM notifications WHERE user_id = $1 ORDER BY
    created_at DESC]. *)
Definition select_notifications `{Collation} (uid : string) (d : database)
    : outcome (list notification_row * database) :=
  Ok (order_by (fun a b => text_leb b a) nr_created_at
        (map notification_row_of
           (Pg.where_eq n_user_id uid (notifications d))), d).

(** [INSERT INTO projects (...) VALUES ($1, ..., $7)]. *)
Definition insert_project (id ttl : string) (descr due : option string)
    (creator created updated : string) (d : database)
    : outcome (unit * database) :=
  if Pg.has p_project_id id (projects d) then Pg.violated "projects_pkey"
  else if negb (Pg.has u_user_id creator (users d))
  then Pg.violated "projects_creator_id_fkey"
  else Ok (tt,
           {| users := users d;
              projects := projects d ++
                [{| p_project_id := id; p_title := ttl;
                    p_description := descr; p_due_date := due;
                    p_creator_id := creator; p_created_at := created;
                    p_updated_at := updated |}];
              tasks := tasks d; subtasks := subtasks d;
              task_comments := task_comments d;
              task_assignees := task_assignees d; labels := labels d;
              task_labels := task_labels d;
              notifications := notifications d |}).

(** [SELECT * FROM projects WHERE project_id = $1]. *)
Definition select_project (id : string) (d : database)
    : outcome (list project * database) :=
  Ok (Pg.where_eq p_project_id id (projects d), d).

(** A nullable column compared with a parameter: NULL matches nothing. *)
Definition is_value (v : option string) (k : string) : bool :=
  match v with
  | Some s => s =? k
  | None => false
  end.

(** [SELECT task_id, title, status, due_date FROM tasks WHERE project_id
    = $1]. *)
Definition select_project_tasks (id : string) (d : database)
    : outcome (list project_task * database) :=
  Ok (map (fun t => {| pt_task_id := task_id t; pt_title := title t;
                       pt_status := status t; pt_due_date := due_date t |})
        (filter (fun t => is_value (project_id t) id) (tasks d)), d).

(** [SELECT label_id, label_name FROM labels]. *)
Definition select_labels (d : database) : outcome (list label * database) :=
  Ok (labels d, d).

End PgMore.


Section MoreRoutes.

Context `{Platform} `{Collation}.

(** [app.METHOD(path, authenticateToken, handler)] for these routes. *)
Definition authenticated_reply {A} (authHeader : field string) (c : clock)
    (handler : identity -> world -> reply A * world)
    : world -> reply A * world :=
  match authenticateToken authHeader (seconds c) with
  | next user => handler user
  | answered r => fun w => (plain r, w)
  end.

(** ** User profile routes *)

(** [app.get("/api/users/profile", authenticateToken, ...)], past the
    middleware; the body is [{ user }]. *)
Definition get_api_users_profile (user : identity)
    : world -> reply profile * world :=
  try_catch_reply (
    let user_id := user_id user in
    result <- pool_run (PgMore.select_profile user_id) ;;
    match result with
    | [] => ret (plain (send 404 (message_only "User not found")))
    | row :: _ => ret (with_body 200 row)
    end).

Record profile_body := {
  pb_name : field string;
  pb_email : field string;
  pb_profile_picture : field string
}.

(** [{ message: "Profile updated", user: result.rows[0] }]. *)
Record profile_updated := {
  upd_message : string;
  upd_user : field profile
}.

(** [app.put("/api/users/profile", authenticateToken, ...)], past the
    middleware. *)
Definition put_api_users_profile (user : identity) (b : profile_body)
    (c : clock) : world -> reply profile_updated * world :=
  try_catch_reply (
    let name := pb_name b in
    let email := pb_email b in
    let profile_picture := pb_profile_picture b in
    let user_id := user_id user in
    if negb (truthy name) || negb (truthy email)
    then ret (plain (send 400 (message_only "Name and email are required")))
    else
      let timestamp := iso c in
      pool_run (PgMore.update_profile (text name) (text email)
                  (or_null profile_picture) timestamp user_id) ;;;
      result <- pool_run (PgMore.select_profile user_id) ;;
      ret (with_body 200 {| upd_message := "Profile updated";
                            upd_user := index result 0 |})).

(** ** Dashboard route *)

(** [{ statistics, upcoming_deadlines }]. *)
Record dashboard := {
  dash_statistics : field statistics;
  dash_upcoming_deadlines : list deadline
}.

(** [app.get("/api/dashboard", authenticateToken, ...)], past the
    middleware. *)
Definition get_api_dashboard (user : identity)
    : world -> reply dashboard * world :=
  try_catch_reply (
    let user_id := user_id user in
    statsResult <- pool_run (PgMore.select_statistics user_id) ;;
    let statistics := index statsResult 0 in
    deadlineResult <- pool_run (PgMore.select_deadlines user_id) ;;
    let upcoming_deadlines := deadlineResult in
    ret (with_body 200 {| dash_statistics := statistics;
                          dash_upcoming_deadlines := upcoming_deadlines |})).

(** ** Task detail route *)

(** [{ task: { ...task, subtasks, comments, assignees, labels } }]. *)
Record task_detail := {
  td_task : task;
  td_subtasks : list subtask_row;
  td_comments : list comment_row;
  td_assignees : list assignee_row;
  td_labels : list string
}.

(** [app.get("/api/tasks/:task_id", authenticateToken, ...)], past the
    middleware: the handler does not read [req.user]. *)
Definition get_api_tasks_id (task_id : string)
    : world -> reply task_detail * world :=
  try_catch_reply (
    taskResult <- pool_query (SELECT_tasks_WHERE_task_id task_id)
                    (Pg.select_tasks_by_id task_id) ;;
    match taskResult with
    | [] => ret (plain (send 404 (message_only "Task not found")))
    | task :: _ =>
        subtasksResult <- pool_run (PgMore.select_subtasks task_id) ;;
        commentsResult <- pool_run (PgMore.select_comments task_id) ;;
        assigneesResult <- pool_run (PgMore.select_assignees task_id) ;;
        labelsResult <- pool_run (PgMore.select_task_labels task_id) ;;
        ret (with_body 200
               {| td_task := task; td_subtasks := subtasksResult;
                  td_comments := commentsResult;
                  td_assignees := assigneesResult;
                  td_labels := map tl_label_id labelsResult |})
    end).

(** ** Notification list route *)

(** [app.get("/api/notifications", authenticateToken, ...)], past the
    middleware; the body is [{ notifications }]. *)
Definition get_api_notifications (user : identity)
    : world -> reply (list notification_row) * world :=
  try_catch_reply (
    let user_id := user_id user in
    notificationsResult <- pool_run (PgMore.select_notifications user_id) ;;
    ret (with_body 200 notificationsResult)).

(** ** Project routes *)

Record project_body := {
  jb_title : field string;
  jb_description : field string;
  jb_due_date : field string
}.

(** [{ message: "Project created", project: { project_id, title,
    description, due_date } }]. *)
Record project_created := {
  pc_message : string;
  pc_project_id : string;
  pc_title : field string;
  pc_description : field string;
  pc_due_date : field string
}.

(** [app.post("/api/projects", authenticateToken, ...)], past the
    middleware. *)
Definition post_api_projects (user : identity) (b : project_body)
    (c : clock) : world -> reply project_created * world :=
  try_catch_reply (
    let title := jb_title b in
    let description := jb_description b in
    let due_date := jb_due_date b in
    if negb (truthy title)
    then ret (plain (send 400 (message_only "Project title is required")))
    else
      project_id <- fresh_uuid ;;
      let user_id := user_id user in
      let timestamp := iso c in
      pool_run (PgMore.insert_project project_id (text title)
                  (or_null description) (or_null due_date) user_id
                  timestamp timestamp) ;;;
      ret (with_body 201
             {| pc_message := "Project created";
                pc_project_id := project_id; pc_title := title;
                pc_description := description;
                pc_due_date := due_date |})).

(** [{ project }] with [project.tasks] set. *)
Record project_detail := {
  pd_project : project;
  pd_tasks : list project_task
}.

(** [app.get("/api/projects/:project_id", authenticateToken, ...)], past
    the middleware: the handler does not read [req.user]. *)
Definition get_api_projects_id (project_id : string)
    : world -> reply project_detail * world :=
  try_catch_reply (
    projectResult <- pool_run (PgMore.select_project project_id) ;;
    match projectResult with
    | [] => ret (plain (send 404 (message_only "Project not found")))
    | project :: _ =>
        tasksResult <- pool_run (PgMore.select_project_tasks project_id) ;;
        ret (with_body 200 {| pd_project := project;
                              pd_tasks := tasksResult |})
    end).

(** ** Labels route *)

(** [app.get("/api/labels", ...)]: no middleware; the body is
    [{ labels }]. *)
Definition get_api_labels : world -> reply (list label) * world :=
  try_catch_reply (
    labelsResult <- pool_run PgMore.select_labels ;;
    ret (with_body 200 labelsResult)).

(** ** These routes as mounted *)

Definition app_get_api_users_profile (authHeader : field string) (c : clock)
    : world -> reply profile * world :=
  authenticated_reply authHeader c get_api_users_profile.

Definition app_put_api_users_profile (authHeader : field string)
    (b : profile_body) (c : clock)
    : world -> reply profile_updated * world :=
  authenticated_reply authHeader c
    (fun user => put_api_users_profile user b c).

Definition app_get_api_dashboard (authHeader : field string) (c : clock)
    : world -> reply dashboard * world :=
  authenticated_reply authHeader c get_api_dashboard.

Definition app_get_api_tasks_id (authHeader : field string)
    (task_id : string) (c : clock) : world -> reply task_detail * world :=
  authenticated_reply authHeader c (fun _ => get_api_tasks_id task_id).

Definition app_get_api_notifications (authHeader : field string) (c : clock)
    : world -> reply (list notification_row) * world :=
  authenticated_reply authHeader c get_api_notifications.

Definition app_post_api_projects (authHeader : field string)
    (b : project_body) (c : clock)
    : world -> reply project_created * world :=
  authenticated_reply authHeader c (fun user => post_api_projects user b c).

Definition app_get_api_projects_id (authHeader : field string)
    (project_id : string) (c : clock)
    : world -> reply project_detail * world :=
  authenticated_reply authHeader c (fun _ => get_api_projects_id project_id).

End MoreRoutes.


(* ===================================================================== *)
(** * The client store (store/main: useAppStore) *)
(* ===================================================================== *)

Module Store.

Record User := {
  user_id : string;
  name : string;
  email : string;
  profile_picture : string;
  user_role : string
}.

Record AuthState := {
  token : string;
  user : option User;
  is_authenticated : bool
}.

Record Notification := {
  notification_id : string;
  notification_type : string;
  message : string;
  is_read : bool;
  created_at : string
}.

(** [unread_count] is a JavaScript number.  The actions kept here set it
    to 0 or to the length of a list, or add 0 or 1 to it, so it stays an
    integer, on which the addition of numbers is exact (below 2^53).
    [increment_unread_count(count)] adds any number, a fraction too, and
    is left out. *)
Record NotificationState := {
  notifications : list Notification;
  unread_count : Z
}.

Record RealtimeState := {
  socket_connected : bool;
  subscribed_events : list string
}.

Record GlobalUIState := {
  global_error_message : string;
  is_loading_global : bool
}.

(** The data members of [AppStore]. *)
Record AppStore := {
  auth_state : AuthState;
  notification_state : NotificationState;
  realtime_state : RealtimeState;
  global_ui_state : GlobalUIState
}.

(** The defaults [create] is given. *)
Definition initial : AppStore :=
  {| auth_state := {| token := EmptyString; user := None;
                      is_authenticated := false |};
     notification_state := {| notifications := []; unread_count := 0 |};
     realtime_state := {| socket_connected := false;
                          subscribed_events := [] |};
     global_ui_state := {| global_error_message := EmptyString;
                           is_loading_global := false |} |}.

(** [set(() => ({ auth_state: a }))] and its siblings: a partial state
    merged into the store. *)
Definition set_auth_state (a : AuthState) (s : AppStore) : AppStore :=
  {| auth_state := a; notification_state := notification_state s;
     realtime_state := realtime_state s;
     global_ui_state := global_ui_state s |}.

Definition set_notification_state (n : NotificationState) (s : AppStore)
    : AppStore :=
  {| auth_state := auth_state s; notification_state := n;
     realtime_state := realtime_state s;
     global_ui_state := global_ui_state s |}.

Definition set_realtime_state (r : RealtimeState) (s : AppStore)
    : AppStore :=
  {| auth_state := auth_state s;
     notification_state := notification_state s;
     realtime_state := r; global_ui_state := global_ui_state s |}.

Definition set_global_ui_state (g : GlobalUIState) (s : AppStore)
    : AppStore :=
  {| auth_state := auth_state s;
     notification_state := notification_state s;
     realtime_state := realtime_state s; global_ui_state := g |}.

Definition set_auth (data : AuthState) (s : AppStore) : AppStore :=
  set_auth_state data s.

Definition clear_auth (s : AppStore) : AppStore :=
  set_auth_state {| token := EmptyString; user := None;
                    is_authenticated := false |} s.

Definition add_notification (notification : Notification) (s : AppStore)
    : AppStore :=
  let updated_notifications :=
    notifications (notification_state s) ++ [notification] in
  let updated_unread_count :=
    (unread_count (notification_state s)
     + (if is_read notification then 0 else 1))%Z in
  set_notification_state
    {| notifications := updated_notifications;
       unread_count := updated_unread_count |} s.

Definition set_notifications (l : list Notification) (s : AppStore)
    : AppStore :=
  set_notification_state
    {| notifications := l;
       unread_count :=
         Z.of_nat (length (filter (fun n => negb (is_read n)) l)) |} s.

Definition clear_notifications (s : AppStore) : AppStore :=
  set_notification_state {| notifications := []; unread_count := 0 |} s.

Definition reset_unread_count (s : AppStore) : AppStore :=
  set_notification_state
    {| notifications := notifications (notification_state s);
       unread_count := 0 |} s.

Definition set_realtime_connected (connected : bool) (s : AppStore)
    : AppStore :=
  set_realtime_state
    {| socket_connected := connected;
       subscribed_events := subscribed_events (realtime_state s) |} s.

(** [arr.includes(x)] on strings. *)
Definition includes (l : list string) (x : string) : bool :=
  existsb (String.eqb x) l.

Definition add_subscribed_event (event : string) (s : AppStore) : AppStore :=
  if includes (subscribed_events (realtime_state s)) event then s
  else
    set_realtime_state
      {| socket_connected := socket_connected (realtime_state s);
         subscribed_events :=
           subscribed_events (realtime_state s) ++ [event] |} s.

Definition set_global_error_message (msg : string) (s : AppStore)
    : AppStore :=
  set_global_ui_state
    {| global_error_message := msg;
       is_loading_global := is_loading_global (global_ui_state s) |} s.

Definition clear_global_error_message (s : AppStore) : AppStore :=
  set_global_ui_state
    {| global_error_message := EmptyString;
       is_loading_global := is_loading_global (global_ui_state s) |} s.

(** The names [init_realtime] registers a listener for. *)
Definition events : list string :=
  ["task_created"; "task_updated"; "new_comment"; "notification_created";
   "task_deleted"; "assignee_updated"].

(** The second half of the body of [events.forEach] in [init_realtime]:
    the name joins [subscribed_events] unless it is there. *)
Definition subscribe (eventName : string) (s : AppStore) : AppStore :=
  if negb (includes (subscribed_events (realtime_state s)) eventName)
  then
    set_realtime_state
      {| socket_connected := socket_connected (realtime_state s);
         subscribed_events :=
           subscribed_events (realtime_state s) ++ [eventName] |} s
  else s.

(** [events.forEach(...)], as far as the store is concerned. *)
Definition subscribe_all (names : list string) (s : AppStore) : AppStore :=
  fold_left (fun st eventName => subscribe eventName st) names s.

(** The listener [socket.on(eventName, payload => ...)] registered for
    [eventName], run on a payload whose [data] is read as a
    notification. *)
Definition on_event (eventName : string) (payload_data : Notification)
    (s : AppStore) : AppStore :=
  if eventName =? "notification_created" then
    let notification := payload_data in
    let updated_notifications :=
      notifications (notification_state s) ++ [notification] in
    let updated_unread_count :=
      (unread_count (notification_state s)
       + (if is_read notification then 0 else 1))%Z in
    set_notification_state
      {| notifications := updated_notifications;
         unread_count := updated_unread_count |} s
  else s.

End Store.


(* ===================================================================== *)
(** * Vocabulary of the further statements *)
(* ===================================================================== *)

(** No space occurs in the string. *)
Fixpoint spaceless (s : string) : bool :=
  match s with
  | EmptyString => true
  | String c r => negb (Ascii.eqb c " "%char) && spaceless r
  end.

(** [res.status(401).json({ message: "Token missing" })]. *)
Definition token_missing : response :=
  send 401 (message_only "Token missing").

(** The socket after it has been sent [evs], in order. *)
Definition deliver_all (evs : list (string * envelope)) (s : socket)
    : socket :=
  {| socket_id := socket_id s; socket_user := socket_user s;
     received := received s ++ evs |}.

(** The names under which the server emits. *)
Definition server_events : list string :=
  ["task_created"; "task_updated"; "task_deleted"; "new_comment"].

(** Two notification rows that agree on every column but is_read. *)
Definition same_but_is_read (old new : notification) : Prop :=
  n_notification_id new = n_notification_id old
  /\ n_user_id new = n_user_id old
  /\ n_notification_type new = n_notification_type old
  /\ n_task_id new = n_task_id old
  /\ n_message new = n_message old
  /\ n_created_at new = n_created_at old.

(** The columns of a task no route writes after the insert. *)
Definition birth (t : task) : string * string * string :=
  (task_id t, creator_id t, created_at t).

(** [res.status(404).json({ message: "Task not found" })]. *)
Definition task_not_found : response :=
  send 404 (message_only "Task not found").

Section MoreVocabulary.

Context `{Platform}.

(** The identity a users row gives to a token. *)
Definition identity_of (u : user) : identity :=
  {| user_id := u_user_id u; email := u_email u; name := u_name u;
     user_role := u_user_role u |}.

(** [{ user_id, name, email, user_role }] of a users row. *)
Definition public_of (u : user) : public_user :=
  {| pu_user_id := u_user_id u; pu_name := u_name u; pu_email := u_email u;
     pu_user_role := u_user_role u |}.

(** The row a registration stores: the next uuid as key, the hash of the
    password, the role "user". *)
Definition registered_user (b : register_body) (c : clock) (w : world)
    : user :=
  {| u_user_id := uuidv4 (uuids_drawn w); u_name := text (rb_name b);
     u_email := text (rb_email b);
     u_password_hash := bcrypt_hash (text (rb_password b));
     u_profile_picture := or_null (rb_profile_picture b);
     u_user_role := "user"; u_created_at := iso c; u_updated_at := iso c |}.

(** The token both auth routes issue for a users row: its identity,
    signed with the server secret, for one day. *)
Definition issued_token (u : user) (c : clock) : string :=
  jwt_sign (identity_of u) JWT_SECRET (seconds c) 86400.

(** One request to a mutation route, past the middleware. *)
Inductive mutation :=
| create_task (user : identity) (b : task_body) (c : clock)
| update_task (user : identity) (id : string) (b : task_body) (c : clock)
| delete_task (user : identity) (id : string)
| add_comment (user : identity) (id : string) (b : comment_request)
    (c : clock).

Definition perform (m : mutation) (w : world) : world :=
  match m with
  | create_task user b c => snd (post_api_tasks user b c w)
  | update_task user id b c => snd (put_api_tasks user id b c w)
  | delete_task user id => snd (delete_api_tasks user id w)
  | add_comment user id b c => snd (post_api_tasks_comments user id b c w)
  end.

Fixpoint perform_all (ms : list mutation) (w : world) : world :=
  match ms with
  | [] => w
  | m :: rest => perform_all rest (perform m w)
  end.

(** The row a task create sends to the store: the next uuid as key, the
    caller as creator, absent or empty optional texts as NULL, priority
    and status after defaulting. *)
Definition created_task (user : identity) (b : task_body) (c : clock)
    (w : world) : task :=
  {| task_id := uuidv4 (uuids_drawn w); title := text (tb_title b);
     description := or_null (tb_description b);
     due_date := or_null (tb_due_date b);
     priority := text (with_default "medium" (tb_priority b));
     status := text (with_default "pending" (tb_status b));
     creator_id := user_id user; project_id := or_null (tb_project_id b);
     created_at := iso c; updated_at := iso c |}.

(** The store accepts that row: priority and status are not [null], the
    key is new, the caller and the project (if any) are stored. *)
Definition task_insert_accepted (user : identity) (b : task_body)
    (w : world) : bool :=
  match with_default "medium" (tb_priority b),
        with_default "pending" (tb_status b) with
  | Val _, Val _ =>
      negb (Pg.has task_id (uuidv4 (uuids_drawn w)) (tasks (db w)))
      && Pg.has u_user_id (user_id user) (users (db w))
      && Pg.references (or_null (tb_project_id b)) p_project_id
           (projects (db w))
  | _, _ => false
  end.

(** The answer of an accepted task create. *)
Definition task_created_response (user : identity) (b : task_body)
    (w : world) : response :=
  send 201 (task_created_body "Task created"
              (taskCreatedPayload (uuidv4 (uuids_drawn w))
                 (text (tb_title b))
                 (with_default "pending" (tb_status b))
                 (or_null (tb_due_date b)) (user_id user))).

(** The body passes the two validations of the task create. *)
Definition task_body_valid (b : task_body) : bool :=
  truthy (tb_title b)
  && negb (some_subtask_untitled (with_default [] (tb_subtasks b))).

(** A handler body answers [r] whenever it answers at all. *)
Definition answers (r : response) (m : M response) : Prop :=
  forall w, match fst (m w) with
            | Ok r' => r' = r
            | Threw _ => True
            end.

(** From a world satisfying [P], the computation throws. *)
Definition throws_from {A} (P : world -> Prop) (m : M A) : Prop :=
  forall w, P w -> exists e, fst (m w) = Threw e.

(** The part of the task create that follows the insert of the task
    row: the three loops, the event, the answer. *)
Definition create_children (user : identity) (b : task_body) (c : clock)
    (task_id : string) : M response :=
  let timestamp := iso c in
  (xs <- iterable (with_default [] (tb_subtasks b)) ;;
   for_of xs (fun subtask =>
     subtask_id <- fresh_uuid ;;
     pool_query (INSERT_INTO_subtasks subtask_id)
       (Pg.insert_subtask subtask_id task_id (to_sql (si_title subtask))
          false timestamp timestamp))) ;;;
  (xs <- iterable (with_default [] (tb_assignees b)) ;;
   for_of xs (fun assigned_user_id =>
     record_id <- fresh_uuid ;;
     pool_query (INSERT_INTO_task_assignees record_id)
       (Pg.insert_task_assignee record_id task_id assigned_user_id
          timestamp))) ;;;
  (xs <- iterable (with_default [] (tb_labels b)) ;;
   for_of xs (fun label_id =>
     record_id <- fresh_uuid ;;
     pool_query (INSERT_INTO_task_labels record_id)
       (Pg.insert_task_label record_id task_id label_id))) ;;;
  io_emit "task_created"
    {| event := "task_created";
       data := taskCreatedPayload task_id (text (tb_title b))
                 (with_default "pending" (tb_status b))
                 (or_null (tb_due_date b)) (user_id user) |} ;;;
  ret (send 201 (task_created_body "Task created"
                   (taskCreatedPayload task_id (text (tb_title b))
                      (with_default "pending" (tb_status b))
                      (or_null (tb_due_date b)) (user_id user)))).

(** The world in which the loops of an accepted task create start. *)
Definition after_task_insert (user : identity) (b : task_body) (c : clock)
    (w : world) : world :=
  {| db := Pg.with_tasks (tasks (db w) ++ [created_task user b c w]) (db w);
     sockets := sockets w; emitted := emitted w;
     queries := queries w ++ [INSERT_INTO_tasks (uuidv4 (uuids_drawn w))];
     uuids_drawn := S (uuids_drawn w) |}.

(** The labels table of a world. *)
Definition labels_of (w : world) : list label := labels (db w).

(** The comment row and the event of an accepted comment create. *)
Definition created_comment (user : identity) (id : string)
    (b : comment_request) (c : clock) (w : world) : task_comment :=
  {| c_comment_id := uuidv4 (uuids_drawn w); c_task_id := id;
     c_user_id := user_id user; c_comment_text := text (cb_comment_text b);
     c_created_at := iso c |}.

Definition comment_payload (user : identity) (id : string)
    (b : comment_request) (c : clock) (w : world) : event_data :=
  commentPayload (uuidv4 (uuids_drawn w)) id (user_id user)
    (text (cb_comment_text b)) (iso c).

(** The profile a valid profile update writes for the row [u]. *)
Definition updated_profile (b : profile_body) (u : user) : profile :=
  {| pf_user_id := u_user_id u; pf_name := text (pb_name b);
     pf_email := text (pb_email b);
     pf_profile_picture := or_null (pb_profile_picture b);
     pf_user_role := u_user_role u |}.

(** The columns of a user the profile update leaves alone. *)
Definition credentials (u : user) : string * string * string * string :=
  (u_user_id u, u_password_hash u, u_user_role u, u_created_at u).

(** The project row a project create stores. *)
Definition created_project (user : identity) (b : project_body) (c : clock)
    (w : world) : project :=
  {| p_project_id := uuidv4 (uuids_drawn w); p_title := text (jb_title b);
     p_description := or_null (jb_description b);
     p_due_date := or_null (jb_due_date b);
     p_creator_id := user_id user; p_created_at := iso c;
     p_updated_at := iso c |}.

(** [task_id, title, status, due_date] of a task. *)
Definition project_task_of (t : task) : project_task :=
  {| pt_task_id := task_id t; pt_title := title t; pt_status := status t;
     pt_due_date := due_date t |}.

(** The projects table of a world. *)
Definition projects_of (w : world) : list project := projects (db w).

(** The tasks a project detail answer carries. *)
Definition project_tasks (r : reply project_detail) : list project_task :=
  match r with
  | with_body _ detail => pd_tasks detail
  | plain _ => []
  end.

(** The deadline row of a task that has a due date. *)
Definition is_deadline_of (t : task) (x : deadline) : Prop :=
  dl_task_id x = task_id t /\ dl_title x = title t
  /\ due_date t = Some (dl_due_date x).

End MoreVocabulary.

(** [comment_id, user_id, comment_text, created_at] of a comment. *)
Definition comment_row_of (c : task_comment) : comment_row :=
  {| cr_comment_id := c_comment_id c; cr_user_id := c_user_id c;
     cr_comment_text := c_comment_text c; cr_created_at := c_created_at c |}.

(** The comments a task detail answer carries. *)
Definition detail_comments (r : reply task_detail) : list comment_row :=
  match r with
  | with_body _ detail => td_comments detail
  | plain _ => []
  end.

(** A text order in which any two texts compare one way or the other. *)
Definition total_order (leb : string -> string -> bool) : Prop :=
  forall a b, leb a b = true \/ leb b a = true.

(** Each row is at or after the next in [created_at]. *)
Definition newest_first `{Collation} (rows : list notification_row) : Prop :=
  Sorted (fun a b => text_leb (nr_created_at b) (nr_created_at a) = true)
    rows.

(** Each comment is at or before the next in [created_at]. *)
Definition oldest_first `{Collation} (rows : list comment_row) : Prop :=
  Sorted (fun a b => text_leb (cr_created_at a) (cr_created_at b) = true)
    rows.

(** The number of unread notifications of a list. *)
Definition unread (l : list Store.Notification) : Z :=
  Z.of_nat (length (filter (fun n => negb (Store.is_read n)) l)).

(** The unread counter of the store agrees with its list. *)
Definition counted (s : Store.AppStore) : Prop :=
  Store.unread_count (Store.notification_state s)
  = unread (Store.notifications (Store.notification_state s)).

(** The actions of the store and the listeners of [init_realtime], but
    for the two that write the counter alone ([increment_unread_count],
    [reset_unread_count]). *)
Inductive action :=
| do_set_auth (data : Store.AuthState)
| do_clear_auth
| do_add_notification (n : Store.Notification)
| do_set_notifications (l : list Store.Notification)
| do_clear_notifications
| do_set_realtime_connected (connected : bool)
| do_add_subscribed_event (name : string)
| do_set_global_error_message (msg : string)
| do_clear_global_error_message
| do_subscribe (name : string)
| do_on_event (name : string) (payload : Store.Notification).

Definition act (a : action) (s : Store.AppStore) : Store.AppStore :=
  match a with
  | do_set_auth data => Store.set_auth data s
  | do_clear_auth => Store.clear_auth s
  | do_add_notification n => Store.add_notification n s
  | do_set_notifications l => Store.set_notifications l s
  | do_clear_notifications => Store.clear_notifications s
  | do_set_realtime_connected connected =>
      Store.set_realtime_connected connected s
  | do_add_subscribed_event name => Store.add_subscribed_event name s
  | do_set_global_error_message msg => Store.set_global_error_message msg s
  | do_clear_global_error_message => Store.clear_global_error_message s
  | do_subscribe name => Store.subscribe name s
  | do_on_event name payload => Store.on_event name payload s
  end.

Definition act_all (l : list action) (s : Store.AppStore)
    : Store.AppStore :=
  fold_left (fun st a => act a st) l s.

(** The names the store has subscribed to. *)
Definition subscribed (s : Store.AppStore) : list string :=
  Store.subscribed_events (Store.realtime_state s).


(* ===================================================================== *)
(** * Concrete requests, for running the further routes *)
(* ===================================================================== *)

Module Walkthrough.

(** Texts ordered by code point, as under the "C" collation. *)
Definition by_code : Collation := {| text_leb := String.leb |}.

(** A registration under an email no seeded user has, and the login
    that goes with it. *)
Definition carol : register_body :=
  {| rb_name := Val "Carol Diaz"; rb_email := Val "carol@example.com";
     rb_password := Val "secret"; rb_profile_picture := Undefined |}.

Definition carol_login : login_body :=
  {| lb_email := Val "carol@example.com";
     lb_password := Val (json_text "secret") |}.

Definition carol_registered : world :=
  snd (post_api_auth_register (H := Demo.platform) carol Demo.at_noon
         Seed.started).

(** Alice creates a task on the seeded store. *)
Definition write_spec : task_body :=
  Demo.new_task "Write spec" "high" "pending".

Definition spec_written : world :=
  snd (post_api_tasks (H := Demo.platform) Demo.alice write_spec
         Demo.at_noon Seed.started).

(** The same task with a label that is not stored. *)
Definition mislabelled : task_body :=
  {| tb_title := Val "Write spec"; tb_description := Undefined;
     tb_due_date := Undefined; tb_priority := Val "high";
     tb_status := Val "pending"; tb_project_id := Undefined;
     tb_assignees := Undefined; tb_labels := Val ["no-such-label"];
     tb_subtasks := Undefined |}.

Definition looks_good : comment_request :=
  {| cb_comment_text := Val "Looks good" |}.

(** Alice changes her name and email. *)
Definition renamed : profile_body :=
  {| pb_name := Val "Alice J."; pb_email := Val "alice.j@example.com";
     pb_profile_picture := Undefined |}.


(** [{ title: "Q4 plan" }]. *)
Definition q4_plan : project_body :=
  {| jb_title := Val "Q4 plan"; jb_description := Undefined;
     jb_due_date := Undefined |}.

(** An identity whose user row is not stored. *)
Definition stranger : identity :=
  {| user_id := "user9"; email := "zed@example.com"; name := "Zed";
     user_role := "user" |}.

End Walkthrough.

(* ===================================================================== *)
(** * Properties *)
(* ===================================================================== *)

Unset Implicit Arguments.

Ltac run_handler :=
  unfold try_catch, bind, ret, throw, pool_query, fresh_uuid, io_emit,
    set_db, log_query; simpl.

(** ** The small JavaScript helpers *)

Example split_bearer : split_space "Bearer abc.def" = ["Bearer"; "abc.def"].
Proof. reflexivity. Qed.

Example split_no_space : index (split_space "Bearer") 1 = Undefined.
Proof. reflexivity. Qed.

Example split_two_spaces : index (split_space "Bearer  x") 1 = Val EmptyString.
Proof. reflexivity. Qed.

Lemma truthy_Val (f : field string) :
  truthy f = true -> f = Val (text f) /\ text f <> EmptyString.
Proof.
  destruct f as [| |s]; simpl; try discriminate.
  intros E. split; [reflexivity|].
  intros ->. discriminate.
Qed.

Lemma truthy_text (s : string) : s <> EmptyString -> truthy (Val s) = true.
Proof.
  intros E. simpl. destruct (String.eqb_spec s EmptyString); [contradiction|reflexivity].
Qed.

(** ** Rows and keys *)

Lemma has_exists {A} (key : A -> string) k (rows : list A) :
  Pg.has key k rows = true <-> exists r, In r rows /\ key r = k.
Proof.
  unfold Pg.has. rewrite existsb_exists.
  split; intros [r [I E]]; exists r; split; auto.
  - now apply String.eqb_eq.
  - now apply String.eqb_eq.
Qed.

Lemma has_In_map {A} (key : A -> string) k (rows : list A) :
  Pg.has key k rows = true <-> In k (map key rows).
Proof.
  rewrite has_exists, in_map_iff.
  split; intros [r [X Y]]; exists r; auto.
Qed.

Lemma where_eq_nil {A} (key : A -> string) k (rows : list A) :
  Pg.where_eq key k rows = [] <-> Pg.has key k rows = false.
Proof.
  unfold Pg.where_eq, Pg.has.
  induction rows as [|r rows IH]; simpl; [tauto|].
  destruct (key r =? k); simpl; [split; discriminate|exact IH].
Qed.

Lemma where_eq_cons {A} (key : A -> string) k (rows : list A) r rest :
  Pg.where_eq key k rows = r :: rest ->
  In r rows /\ key r = k /\ Pg.has key k rows = true.
Proof.
  intros E.
  assert (I : In r (Pg.where_eq key k rows)) by (rewrite E; now left).
  unfold Pg.where_eq in I. apply filter_In in I. destruct I as [I K].
  apply String.eqb_eq in K. repeat split; auto.
  apply has_exists. eauto.
Qed.

Lemma has_delete_where {A} (key : A -> string) k (rows : list A) :
  Pg.has key k (Pg.delete_where key k rows) = false.
Proof.
  unfold Pg.has, Pg.delete_where.
  induction rows as [|r rows IH]; simpl; [reflexivity|].
  destruct (key r =? k) eqn:E; simpl; [exact IH|].
  now rewrite E.
Qed.

Lemma where_eq_delete_where {A} (key : A -> string) k (rows : list A) :
  Pg.where_eq key k (Pg.delete_where key k rows) = [].
Proof. apply where_eq_nil, has_delete_where. Qed.

(** With a unique key, the first selected row is the only row. *)
Lemma where_eq_unique {A} (key : A -> string) (rows : list A) r r' rest :
  NoDup (map key rows) ->
  Pg.where_eq key (key r') rows = r :: rest ->
  In r' rows -> r = r'.
Proof.
  induction rows as [|x rows IH]; simpl; [contradiction|].
  intros N E I. inversion N as [|? ? NI N']; subst.
  destruct (key x =? key r') eqn:K.
  - injection E as -> _. apply String.eqb_eq in K.
    destruct I as [->|I]; [reflexivity|].
    exfalso. apply NI. rewrite K. now apply in_map.
  - destruct I as [->|I]; [now rewrite String.eqb_refl in K|].
    now apply IH.
Qed.

Section Properties.

Context `{Platform}.

(** ** Token verification (both entry points) *)

Lemma jwt_verify_Some token now user :
  jwt_verify token JWT_SECRET now = Some user <-> verifies token now user.
Proof.
  unfold jwt_verify, verifies. split.
  - destruct (jwt_parse token) as [t|]; [|discriminate].
    destruct (jwt_signature_ok JWT_SECRET t) eqn:S; simpl; [|discriminate].
    destruct (Z.ltb_spec now (tok_exp t)); [|discriminate].
    intros [= <-]. exists t. auto.
  - intros [t [-> [-> [L <-]]]]. simpl.
    apply Z.ltb_lt in L. now rewrite L.
Qed.

Lemma jwt_verify_expired token now t :
  jwt_parse token = Some t -> (tok_exp t <= now)%Z ->
  jwt_verify token JWT_SECRET now = None.
Proof.
  intros P L. unfold jwt_verify. rewrite P.
  destruct (Z.ltb_spec now (tok_exp t)); [lia|].
  now rewrite andb_false_r.
Qed.

Lemma authenticateToken_next authHeader token now user :
  token <> EmptyString -> bearer_token authHeader = Val token ->
  authenticateToken authHeader now = next user <-> verifies token now user.
Proof.
  intros NE B. unfold authenticateToken. rewrite B.
  rewrite (truthy_text _ NE). simpl.
  rewrite <- jwt_verify_Some.
  destruct (jwt_verify token JWT_SECRET now) as [u|].
  - split; intros [= ->]; reflexivity.
  - split; discriminate.
Qed.

Lemma io_use_admitted hs token now user :
  token <> EmptyString -> handshake_token hs = Val token ->
  io_use hs now = admitted user <-> verifies token now user.
Proof.
  intros NE B. unfold io_use. rewrite B.
  rewrite (truthy_text _ NE). simpl.
  rewrite <- jwt_verify_Some.
  destruct (jwt_verify token JWT_SECRET now) as [u|].
  - split; intros [= ->]; reflexivity.
  - split; discriminate.
Qed.

(** C2.  Whatever non-empty token a request presents in its
    Authorization header, or a connection in its handshake, the
    middleware lets it through with an identity exactly when the token's
    signature verifies against the server secret and its expiry lies
    after the current time, and the identity is the token's payload.  In
    particular a token whose expiry has elapsed is answered "Invalid
    token" on both paths, whatever its signature. *)
Theorem token_verification (token : string) (now : Z) :
  token <> EmptyString ->
  (forall authHeader user,
      bearer_token authHeader = Val token ->
      authenticateToken authHeader now = next user <->
      verifies token now user)
  /\ (forall hs user,
         handshake_token hs = Val token ->
         io_use hs now = admitted user <-> verifies token now user)
  /\ (forall t,
         jwt_parse token = Some t -> (tok_exp t <= now)%Z ->
         (forall authHeader,
             bearer_token authHeader = Val token ->
             authenticateToken authHeader now
             = answered (send 403 (message_only "Invalid token")))
         /\ (forall hs,
                handshake_token hs = Val token ->
                io_use hs now
                = refused "Authentication error: Invalid token")).
Proof.
  intros NE. split; [|split].
  - intros authHeader user B. now apply authenticateToken_next.
  - intros hs user B. now apply io_use_admitted.
  - intros t P L. split.
    + intros authHeader B. unfold authenticateToken. rewrite B.
      rewrite (truthy_text _ NE). simpl. now rewrite (jwt_verify_expired _ _ _ P L).
    + intros hs B. unfold io_use. rewrite B.
      rewrite (truthy_text _ NE). simpl. now rewrite (jwt_verify_expired _ _ _ P L).
Qed.

(** ** Registration and login *)






Lemma login_no_user b c w :
  truthy (lb_email b) = true -> json_truthy (lb_password b) = true ->
  Pg.has u_email (text (lb_email b)) (users (db w)) = false ->
  fst (post_api_auth_login b c w) = invalid_credentials.
Proof.
  intros Te Tp N. unfold post_api_auth_login. rewrite Te, Tp. run_handler.
  unfold Pg.select_users_by_email. apply where_eq_nil in N. now rewrite N.
Qed.

Lemma login_first_match b c w u rest p :
  truthy (lb_email b) = true ->
  lb_password b = Val (json_text p) -> truthy (Val p) = true ->
  Pg.where_eq u_email (text (lb_email b)) (users (db w)) = u :: rest ->
  (bcrypt_compare p (u_password_hash u) = false ->
   fst (post_api_auth_login b c w) = invalid_credentials)
  /\ (bcrypt_compare p (u_password_hash u) = true ->
      res_status (fst (post_api_auth_login b c w)) = 200).
Proof.
  intros Te Ep Tp W. unfold post_api_auth_login. rewrite Te, Ep.
  cbn [json_truthy bcrypt_compare_data]. rewrite Tp. run_handler.
  unfold Pg.select_users_by_email. rewrite W. simpl.
  destruct (bcrypt_compare p (u_password_hash u));
    simpl; split; intros; try discriminate; reflexivity.
Qed.

Lemma login_not_text b c w u rest :
  truthy (lb_email b) = true ->
  lb_password b = Val (json_other true) ->
  Pg.where_eq u_email (text (lb_email b)) (users (db w)) = u :: rest ->
  fst (post_api_auth_login b c w) = internal_server_error.
Proof.
  intros Te Ep W. unfold post_api_auth_login. rewrite Te, Ep.
  cbn [json_truthy bcrypt_compare_data]. run_handler.
  unfold Pg.select_users_by_email. now rewrite W.
Qed.

Lemma login_reads_only b c w :
  db (snd (post_api_auth_login b c w)) = db w.
Proof.
  unfold post_api_auth_login.
  destruct (negb (truthy (lb_email b)) || negb (json_truthy (lb_password b)));
    [reflexivity|].
  run_handler. unfold Pg.select_users_by_email.
  destruct (Pg.where_eq u_email (text (lb_email b)) (users (db w)))
    as [|u rest]; simpl; [reflexivity|].
  destruct (lb_password b) as [| |[p|t]]; simpl; try reflexivity.
  now destruct (bcrypt_compare p (u_password_hash u)).
Qed.

(** The login on a string password.  For a request carrying an email and
    a non-empty string as password, over a store whose emails are unique
    (db.sql: [email TEXT NOT NULL UNIQUE]): an unknown email and a known
    email with a password that does not match its stored hash get the
    very same response, 400 "Invalid credentials"; the login succeeds
    exactly when some stored user has that email and the password
    matches that user's hash; the store is not written. *)
Lemma login_outcomes b c w p :
  truthy (lb_email b) = true ->
  lb_password b = Val (json_text p) -> truthy (Val p) = true ->
  NoDup (emails (db w)) ->
  ((forall u, In u (users (db w)) -> u_email u <> text (lb_email b)) ->
   fst (post_api_auth_login b c w) = invalid_credentials)
  /\ (forall u,
         In u (users (db w)) -> u_email u = text (lb_email b) ->
         bcrypt_compare p (u_password_hash u) = false ->
         fst (post_api_auth_login b c w) = invalid_credentials)
  /\ (res_status (fst (post_api_auth_login b c w)) = 200 <->
      exists u, In u (users (db w)) /\ u_email u = text (lb_email b)
                /\ bcrypt_compare p (u_password_hash u) = true)
  /\ db (snd (post_api_auth_login b c w)) = db w.
Proof.
  intros Te Ep Tp N.
  assert (Tj : json_truthy (lb_password b) = true) by (now rewrite Ep).
  destruct (Pg.where_eq u_email (text (lb_email b)) (users (db w)))
    as [|u0 rest] eqn:W.
  - pose proof W as W0. apply where_eq_nil in W0.
    assert (NU : forall u, In u (users (db w)) -> u_email u <> text (lb_email b)).
    { intros u I E.
      assert (X : Pg.has u_email (text (lb_email b)) (users (db w)) = true)
        by (apply has_exists; eauto).
      congruence. }
    pose proof (login_no_user b c w Te Tj W0) as L.
    split; [auto|]. split; [intros u I E; now destruct (NU u I)|].
    split; [|apply login_reads_only].
    rewrite L. split; [discriminate|].
    intros [u [I [E _]]]. now destruct (NU u I).
  - destruct (login_first_match b c w u0 rest p Te Ep Tp W) as [Lf Lt].
    destruct (where_eq_cons _ _ _ _ _ W) as [I0 [E0 _]].
    assert (U : forall u, In u (users (db w)) -> u_email u = text (lb_email b) ->
                          u = u0).
    { intros u I E. symmetry. rewrite <- E in W.
      now apply (where_eq_unique u_email (users (db w)) u0 u rest N W). }
    split; [intros NU; now destruct (NU u0 I0)|].
    split; [intros u I E C; rewrite (U u I E) in C; auto|].
    split; [|apply login_reads_only].
    split.
    + intros S. exists u0. repeat split; auto.
      destruct (bcrypt_compare p (u_password_hash u0));
        [reflexivity|].
      rewrite Lf in S by reflexivity. discriminate.
    + intros [u [I [E C]]]. rewrite (U u I E) in C. auto.
Qed.

(** C8.  The login tells a registered email from an unknown one when the
    password of the body is a truthy value that is not a string (a
    number, [true], an array, an object).  Both fields are then present
    for the guard of the handler; when a user with the email is stored,
    bcrypt.compare rejects and the catch answers 500 "Internal server
    error"; when none is stored, the answer is 400 "Invalid
    credentials".  So the two failure cases do not get the identical
    outcome the handler gives them on string passwords. *)
Theorem non_string_password_reveals_account b c w :
  truthy (lb_email b) = true ->
  lb_password b = Val (json_other true) ->
  (Pg.has u_email (text (lb_email b)) (users (db w)) = true ->
   fst (post_api_auth_login b c w) = internal_server_error)
  /\ (Pg.has u_email (text (lb_email b)) (users (db w)) = false ->
      fst (post_api_auth_login b c w) = invalid_credentials)
  /\ internal_server_error <> invalid_credentials.
Proof.
  intros Te Ep. split; [|split].
  - intros S.
    destruct (Pg.where_eq u_email (text (lb_email b)) (users (db w)))
      as [|u rest] eqn:W.
    + apply where_eq_nil in W. congruence.
    + exact (login_not_text b c w u rest Te Ep W).
  - intros N. apply login_no_user; [exact Te| |exact N]. now rewrite Ep.
  - discriminate.
Qed.

(** ** What a handler leaves alone *)

Lemma keeps_ret {X A} (f : world -> X) (a : A) : keeps f (ret a).
Proof. intros w. reflexivity. Qed.

Lemma keeps_throw {X A} (f : world -> X) e : keeps f (@throw A e).
Proof. intros w. reflexivity. Qed.

Lemma keeps_bind {X A B} (f : world -> X) (m : M A) (k : A -> M B) :
  keeps f m -> (forall a, keeps f (k a)) -> keeps f (bind m k).
Proof.
  intros Km Kk w. unfold bind.
  specialize (Km w). destruct (m w) as [[a|e] w1]; simpl in *.
  - now rewrite Kk.
  - exact Km.
Qed.

Lemma keeps_for_of {X A} (f : world -> X) (xs : list A) (g : A -> M unit) :
  (forall x, keeps f (g x)) -> keeps f (for_of xs g).
Proof.
  intros Kg. induction xs as [|x xs IH]; simpl.
  - apply keeps_ret.
  - apply keeps_bind; auto.
Qed.

Lemma keeps_iterable {X A} (f : world -> X) (xs : field (list A)) :
  keeps f (iterable xs).
Proof. destruct xs; simpl; [apply keeps_throw|apply keeps_throw|apply keeps_ret]. Qed.

Lemma keeps_emitted_fresh_uuid : keeps emitted fresh_uuid.
Proof. intros w. reflexivity. Qed.

Lemma keeps_sockets_fresh_uuid : keeps sockets fresh_uuid.
Proof. intros w. reflexivity. Qed.

Lemma keeps_db_fresh_uuid : keeps db fresh_uuid.
Proof. intros w. reflexivity. Qed.

Lemma keeps_emitted_pool_query {A} q (run : database -> outcome (A * database)) :
  keeps emitted (pool_query q run).
Proof.
  intros w. unfold pool_query.
  destruct (run (db (log_query q w))) as [[a d]|e]; reflexivity.
Qed.

Lemma keeps_sockets_pool_query {A} q (run : database -> outcome (A * database)) :
  keeps sockets (pool_query q run).
Proof.
  intros w. unfold pool_query.
  destruct (run (db (log_query q w))) as [[a d]|e]; reflexivity.
Qed.

(** A statement that leaves a table alone whenever it is accepted. *)
Lemma keeps_table_pool_query {X A} (table : database -> X) q
    (run : database -> outcome (A * database)) :
  (forall d a d', run d = Ok (a, d') -> table d' = table d) ->
  keeps (fun w => table (db w)) (pool_query q run).
Proof.
  intros R w. unfold pool_query. simpl.
  destruct (run (db w)) as [[a d]|e] eqn:E; simpl; [|reflexivity].
  now apply R in E.
Qed.

Lemma keeps_db_io_emit name e : keeps db (io_emit name e).
Proof. intros w. reflexivity. Qed.

Create HintDb quiet.

#[local] Hint Resolve keeps_ret keeps_throw keeps_iterable
  keeps_emitted_fresh_uuid keeps_sockets_fresh_uuid keeps_db_fresh_uuid
  keeps_emitted_pool_query keeps_sockets_pool_query keeps_db_io_emit : quiet.

Ltac quiet :=
  repeat first
    [ apply keeps_bind; [|intros ?]
    | apply keeps_for_of; intros ?
    | solve [auto with quiet] ].

(** ** Events *)

Lemma announces_try_catch name m :
  announces_in name m -> announces name (try_catch m).
Proof.
  intros A w. specialize (A w). unfold try_catch.
  destruct (m w) as [[r|e] w']; simpl in *; exact A.
Qed.

Lemma announces_in_failure name r :
  succeeded r = false -> announces_in name (ret r).
Proof.
  intros F w. simpl. rewrite F. split; reflexivity.
Qed.

Lemma announces_in_bind {A} name (m : M A) (k : A -> M response) :
  keeps emitted m -> keeps sockets m ->
  (forall a, announces_in name (k a)) -> announces_in name (bind m k).
Proof.
  intros Ke Ks Ak w. unfold bind.
  specialize (Ke w). specialize (Ks w).
  destruct (m w) as [[a|e] w1]; simpl in *.
  - specialize (Ak a w1). unfold broadcast_of, silent in *.
    rewrite Ke, Ks in Ak. exact Ak.
  - split; assumption.
Qed.

Lemma announces_in_emit name d r :
  succeeded r = true ->
  announces_in name
    (io_emit name {| event := name; data := d |} ;;; ret r).
Proof.
  intros S w. unfold bind, io_emit, ret. simpl. rewrite S.
  exists d. split; reflexivity.
Qed.

Lemma announces_authenticated name authHeader c handler :
  (forall user, announces name (handler user)) ->
  announces name (authenticated authHeader c handler).
Proof.
  intros A. unfold authenticated, authenticateToken.
  destruct (negb (truthy (bearer_token authHeader))).
  - intros w. simpl. split; reflexivity.
  - destruct (jwt_verify _ _ _); [apply A|].
    intros w. simpl. split; reflexivity.
Qed.

Ltac announce :=
  repeat first
    [ apply announces_in_emit; reflexivity
    | apply announces_in_failure; reflexivity
    | apply announces_in_bind; [solve [quiet] | solve [quiet] | intros ?] ].

Lemma post_api_tasks_announces user b c :
  announces "task_created" (post_api_tasks user b c).
Proof.
  unfold post_api_tasks. apply announces_try_catch.
  destruct (negb (truthy (tb_title b))); [announce|].
  destruct (some_subtask_untitled _); announce.
Qed.

Lemma put_api_tasks_announces user id b c :
  announces "task_updated" (put_api_tasks user id b c).
Proof.
  unfold put_api_tasks. apply announces_try_catch.
  announce. destruct a as [|existing rest]; [announce|].
  destruct (negb (creator_id existing =? user_id user)); announce.
Qed.

Lemma delete_api_tasks_announces user id :
  announces "task_deleted" (delete_api_tasks user id).
Proof.
  unfold delete_api_tasks. apply announces_try_catch.
  announce. destruct a as [|existing rest]; [announce|].
  destruct (negb (creator_id existing =? user_id user)); announce.
Qed.

Lemma post_api_tasks_comments_announces user id b c :
  announces "new_comment" (post_api_tasks_comments user id b c).
Proof.
  unfold post_api_tasks_comments. apply announces_try_catch.
  destruct (negb (truthy (cb_comment_text b))); announce.
Qed.

(** C3.  Each of the four mutation routes (task create, task update,
    task delete, comment create), middleware included and from any world:
    when it answers with success, exactly one envelope
    [{ event, data }] of its own type has been emitted and every socket
    connected at that moment has been sent it, whoever its user is; when
    it answers with any failure (validation, authentication or
    authorization, not found, storage), nothing has been emitted and no
    socket has been sent anything. *)
Theorem one_event_per_successful_mutation :
  (forall authHeader b c,
      announces "task_created" (app_post_api_tasks authHeader b c))
  /\ (forall authHeader id b c,
         announces "task_updated" (app_put_api_tasks authHeader id b c))
  /\ (forall authHeader id c,
         announces "task_deleted" (app_delete_api_tasks authHeader id c))
  /\ (forall authHeader id b c,
         announces "new_comment"
           (app_post_api_tasks_comments authHeader id b c)).
Proof.
  repeat split; intros;
    apply announces_authenticated; intros user.
  - apply post_api_tasks_announces.
  - apply put_api_tasks_announces.
  - apply delete_api_tasks_announces.
  - apply post_api_tasks_comments_announces.
Qed.

(** ** Task update *)

Lemma assign_all_update_fields b timestamp t :
  Pg.assign_all (update_fields b timestamp) t
  = Ok (updated_task b timestamp t).
Proof.
  destruct b as [ti de du pr st pj ? ? ?], t.
  unfold update_fields, updated_task; simpl.
  destruct ti as [| |s1], de as [| |s2], du as [| |s3], pr as [| |s4],
    st as [| |s5], pj as [| |s6]; simpl;
    repeat match goal with
           | |- context [?s =? EmptyString] =>
               destruct (s =? EmptyString); simpl
           end;
    reflexivity.
Qed.


Lemma names_project_id_update_fields b timestamp :
  Pg.names_project_id (update_fields b timestamp) = defined (tb_project_id b).
Proof.
  unfold update_fields, Pg.names_project_id.
  rewrite !existsb_app.
  destruct (truthy (tb_title b)), (defined (tb_description b)),
    (defined (tb_due_date b)), (truthy (tb_priority b)),
    (truthy (tb_status b)), (defined (tb_project_id b)); reflexivity.
Qed.

Lemma updated_row_update_fields d b timestamp t :
  Pg.updated_row d (update_fields b timestamp) t
  = if project_accepted b d then Ok (updated_task b timestamp t)
    else Pg.violated "tasks_project_id_fkey".
Proof.
  unfold Pg.updated_row.
  rewrite assign_all_update_fields, names_project_id_update_fields.
  unfold project_accepted, updated_task; simpl.
  destruct (tb_project_id b) as [| |p]; simpl; try reflexivity.
  now destruct (Pg.has p_project_id p (projects d)).
Qed.

Lemma update_rows_accepted f e id rows :
  (forall t, f t = Ok (e t)) ->
  Pg.update_rows f id rows
  = Ok (map (fun t => if task_id t =? id then e t else t) rows,
        map e (Pg.where_eq task_id id rows)).
Proof.
  intros F. induction rows as [|t rows IH]; simpl; [reflexivity|].
  rewrite IH. destruct (task_id t =? id); simpl; [now rewrite F|reflexivity].
Qed.

Lemma update_rows_rejected f x id rows :
  (forall t, f t = Threw x) -> Pg.has task_id id rows = true ->
  Pg.update_rows f id rows = Threw x.
Proof.
  intros F. induction rows as [|t rows IH]; simpl; [discriminate|].
  destruct (Pg.update_rows f id rows) as [[table returned]|y] eqn:U.
  - destruct (task_id t =? id) eqn:K; simpl.
    + now rewrite F.
    + intros Hs. now specialize (IH Hs).
  - destruct (task_id t =? id) eqn:K; simpl.
    + intros _. unfold Pg.has in IH.
      destruct (existsb (fun r => task_id r =? id) rows) eqn:X.
      * now apply IH.
      * clear IH. exfalso. revert U X. clear.
        induction rows as [|r rows IH] in y |- *; simpl; [discriminate|].
        destruct (Pg.update_rows f id rows) as [[tb rt]|z] eqn:U.
        -- destruct (task_id r =? id); simpl; [discriminate|].
           discriminate.
        -- destruct (task_id r =? id); simpl; [discriminate|].
           intros _ X. now apply (IH z).
    + intros Hs. now apply IH.
Qed.


(** Every path of the update handler, as one equation. *)
Lemma put_api_tasks_paths user id b c w :
  put_api_tasks user id b c w
  = let w1 := log_query (SELECT_tasks_WHERE_task_id id) w in
    match Pg.where_eq task_id id (tasks (db w)) with
    | [] => (send 404 (message_only "Task not found"), w1)
    | existing :: _ =>
        if creator_id existing =? user_id user then
          if project_accepted b (db w) then
            (send 200 (task_updated_body "Task updated"
                         (Val (updated_task b (iso c) existing))),
             {| db := Pg.with_tasks
                        (tasks_after_update id b (iso c) (tasks (db w)))
                        (db w);
                sockets :=
                  map (deliver (task_updated_event id b (iso c))) (sockets w);
                emitted := emitted w ++ [task_updated_event id b (iso c)];
                queries := queries w ++ [SELECT_tasks_WHERE_task_id id]
                           ++ [UPDATE_tasks id];
                uuids_drawn := uuids_drawn w |})
          else (internal_server_error, log_query (UPDATE_tasks id) w1)
        else
          (send 403 (message_only
             "Unauthorized: Only the task creator can update the task"), w1)
    end.
Proof.
  unfold put_api_tasks. run_handler. unfold Pg.select_tasks_by_id.
  destruct (Pg.where_eq task_id id (tasks (db w))) as [|existing rest] eqn:W;
    simpl; [reflexivity|].
  destruct (creator_id existing =? user_id user); simpl; [|reflexivity].
  unfold Pg.update_task.
  destruct (project_accepted b (db w)) eqn:P.
  - rewrite (update_rows_accepted _ (updated_task b (iso c))).
    + rewrite W. simpl. unfold tasks_after_update, task_updated_event.
      now rewrite <- app_assoc.
    + intros t. rewrite updated_row_update_fields. now rewrite P.
  - rewrite (update_rows_rejected _ (constraint_violation "tasks_project_id_fkey")).
    + reflexivity.
    + intros t. rewrite updated_row_update_fields. now rewrite P.
    + now destruct (where_eq_cons _ _ _ _ _ W) as [_ [_ X]].
Qed.


(** ** Task deletion *)

Lemma task_referenced_without_children id d :
  Pg.task_referenced id (without_children id d)
  = if notified id d then Some "notifications_task_id_fkey" else None.
Proof.
  unfold Pg.task_referenced, without_children; simpl.
  now rewrite !has_delete_where.
Qed.

(** Every path of the delete handler, as one equation. *)
Lemma delete_api_tasks_paths user id w :
  delete_api_tasks user id w
  = let w1 := log_query (SELECT_tasks_WHERE_task_id id) w in
    match Pg.where_eq task_id id (tasks (db w)) with
    | [] => (send 404 (message_only "Task not found"), w1)
    | existing :: _ =>
        if creator_id existing =? user_id user then
          if notified id (db w) then
            (internal_server_error,
             {| db := without_children id (db w);
                sockets := sockets w; emitted := emitted w;
                queries := queries w ++ [SELECT_tasks_WHERE_task_id id]
                           ++ cascade id;
                uuids_drawn := uuids_drawn w |})
          else
            (send 200 (message_only "Task deleted successfully"),
             {| db := Pg.with_tasks
                        (Pg.delete_where task_id id (tasks (db w)))
                        (without_children id (db w));
                sockets := map (deliver (task_deleted_event id)) (sockets w);
                emitted := emitted w ++ [task_deleted_event id];
                queries := queries w ++ [SELECT_tasks_WHERE_task_id id]
                           ++ cascade id;
                uuids_drawn := uuids_drawn w |})
        else
          (send 403 (message_only
             "Unauthorized: Only the task creator can delete the task"), w1)
    end.
Proof.
  unfold delete_api_tasks. run_handler. unfold Pg.select_tasks_by_id.
  destruct (Pg.where_eq task_id id (tasks (db w))) as [|existing rest] eqn:W;
    simpl; [reflexivity|].
  destruct (creator_id existing =? user_id user); simpl; [|reflexivity].
  destruct (where_eq_cons _ _ _ _ _ W) as [_ [_ X]].
  unfold Pg.delete_task; simpl. rewrite X.
  pose proof (task_referenced_without_children id (db w)) as R.
  unfold without_children in R. rewrite R. clear R.
  unfold cascade.
  destruct (notified id (db w)); simpl;
    repeat rewrite <- app_assoc; reflexivity.
Qed.

(** ** Notification update *)

Lemma put_api_notifications_paths user id b w :
  put_api_notifications user id b w
  = let w1 := log_query (SELECT_notifications_WHERE_notification_id id) w in
    match Pg.where_eq n_notification_id id (notifications (db w)) with
    | [] => (send 404 (message_only "Notification not found"), w1)
    | notif :: _ =>
        if n_user_id notif =? user_id user then
          match nb_is_read b with
          | Val v =>
              (send 200 (message_only "Notification updated"),
               set_db (Pg.with_notifications
                         (map (Pg.mark v id) (notifications (db w))) (db w))
                 (log_query (UPDATE_notifications id) w1))
          | _ => (internal_server_error, log_query (UPDATE_notifications id) w1)
          end
        else
          (send 403 (message_only
             "Unauthorized: Cannot update this notification"), w1)
    end.
Proof.
  unfold put_api_notifications. run_handler.
  unfold Pg.select_notifications_by_id.
  destruct (Pg.where_eq n_notification_id id (notifications (db w)))
    as [|notif rest] eqn:W; simpl; [reflexivity|].
  destruct (n_user_id notif =? user_id user); simpl; [|reflexivity].
  destruct (where_eq_cons _ _ _ _ _ W) as [_ [_ X]].
  unfold Pg.update_notification.
  destruct (nb_is_read b) as [| |v]; simpl; try rewrite X; reflexivity.
Qed.


(** ** The owner gate *)

(** C1, amended.  On an existing task (update, delete) or notification
    (update) and for an authenticated caller: the answer is Forbidden
    (403) exactly when the caller is not the owner (creator_id of the
    task, user_id of the notification), and then the store and the
    sockets are as before; the answer is success (200) only when the
    caller is the owner.  The owner's request succeeds when the store
    accepts its statements: a task update succeeds exactly when the body
    names no project, [null], or a stored project; a task delete
    succeeds when no notification row points at the task; a notification
    update succeeds exactly when [is_read] is given, neither absent nor
    [null].  An owner's request the store refuses (a task update naming
    a project that is not stored, a task delete while a notification
    row points at the task, a notification update without [is_read]) is
    answered 500 "Internal server error". *)
Theorem owner_gate :
  (forall user id b c w existing rest,
      Pg.where_eq task_id id (tasks (db w)) = existing :: rest ->
      owner_gated (creator_id existing) (user_id user) w
        (put_api_tasks user id b c w)
      /\ (creator_id existing = user_id user ->
          (res_status (fst (put_api_tasks user id b c w)) = 200 <->
           project_accepted b (db w) = true)
          /\ (project_accepted b (db w) = false ->
              fst (put_api_tasks user id b c w) = internal_server_error)))
  /\ (forall user id w existing rest,
         Pg.where_eq task_id id (tasks (db w)) = existing :: rest ->
         owner_gated (creator_id existing) (user_id user) w
           (delete_api_tasks user id w)
         /\ (creator_id existing = user_id user ->
             (notified id (db w) = false ->
              res_status (fst (delete_api_tasks user id w)) = 200)
             /\ (notified id (db w) = true ->
                 fst (delete_api_tasks user id w) = internal_server_error)))
  /\ (forall user id b w notif rest,
         Pg.where_eq n_notification_id id (notifications (db w))
         = notif :: rest ->
         owner_gated (n_user_id notif) (user_id user) w
           (put_api_notifications user id b w)
         /\ (n_user_id notif = user_id user ->
             (res_status (fst (put_api_notifications user id b w)) = 200 <->
              is_read_given b = true)
             /\ (is_read_given b = false ->
                 fst (put_api_notifications user id b w)
                 = internal_server_error))).
Proof.
  split; [|split].
  - intros user id b c w existing rest W.
    rewrite put_api_tasks_paths, W. simpl. unfold owner_gated, silent.
    destruct (String.eqb_spec (creator_id existing) (user_id user)) as [E|N].
    + destruct (project_accepted b (db w)); simpl;
        repeat split; auto; try discriminate; try contradiction.
    + simpl. repeat split; auto; try discriminate; try contradiction.
  - intros user id w existing rest W.
    rewrite delete_api_tasks_paths, W. simpl. unfold owner_gated, silent.
    destruct (String.eqb_spec (creator_id existing) (user_id user)) as [E|N].
    + destruct (notified id (db w)); simpl;
        repeat split; auto; try discriminate; try contradiction.
    + simpl. repeat split; auto; try discriminate; try contradiction.
  - intros user id b w notif rest W.
    rewrite put_api_notifications_paths, W. simpl.
    unfold owner_gated, silent, is_read_given.
    destruct (String.eqb_spec (n_user_id notif) (user_id user)) as [E|N].
    + destruct (nb_is_read b); simpl;
        repeat split; auto; try discriminate; try contradiction.
    + simpl. repeat split; auto; try discriminate; try contradiction.
Qed.

Lemma where_eq_tasks_after_update id b timestamp rows :
  Pg.where_eq task_id id (tasks_after_update id b timestamp rows)
  = map (updated_task b timestamp) (Pg.where_eq task_id id rows).
Proof.
  unfold tasks_after_update, Pg.where_eq.
  induction rows as [|t rows IH]; simpl; [reflexivity|].
  destruct (task_id t =? id) eqn:K; simpl.
  - rewrite K. simpl. now rewrite IH.
  - rewrite K. exact IH.
Qed.

(** C6, amended.  When the creator updates an existing task and the
    store accepts the project the body names, the answer is 200 and the
    tasks table is the old one with [updated_task] written over the rows
    of that key: title, priority and status take the body's value when
    it is a non-empty string and are left alone otherwise ([null] and
    the empty string included); description, due_date and project_id
    take the body's value whenever the property is present ([null]
    writes NULL) and are left alone when it is absent; updated_at is
    always the handler's timestamp, also for a body with no field at
    all; every other column, every other row and every other table is
    left alone. *)
Theorem sparse_update user id b c w existing rest :
  Pg.where_eq task_id id (tasks (db w)) = existing :: rest ->
  creator_id existing = user_id user ->
  project_accepted b (db w) = true ->
  res_status (fst (put_api_tasks user id b c w)) = 200
  /\ db (snd (put_api_tasks user id b c w))
     = Pg.with_tasks (tasks_after_update id b (iso c) (tasks (db w))) (db w)
  /\ Pg.where_eq task_id id (tasks (db (snd (put_api_tasks user id b c w))))
     = map (updated_task b (iso c)) (existing :: rest)
  /\ updated_at (updated_task b (iso c) existing) = iso c
  /\ updated_task Demo.no_fields (iso c) existing
     = {| task_id := task_id existing; title := title existing;
          description := description existing;
          due_date := due_date existing; priority := priority existing;
          status := status existing; creator_id := creator_id existing;
          project_id := project_id existing;
          created_at := created_at existing; updated_at := iso c |}.
Proof.
  intros W O P.
  pose proof (put_api_tasks_paths user id b c w) as E.
  rewrite W in E. cbv zeta in E. rewrite O, String.eqb_refl, P in E.
  rewrite E. cbn [fst snd db send res_status].
  split; [reflexivity|]. split; [reflexivity|].
  split; [|split; reflexivity].
  cbn [tasks Pg.with_tasks]. now rewrite where_eq_tasks_after_update, W.
Qed.

(** C10.  Whenever the update route answers 200, the event it has
    emitted is [task_updated] with, as [updated_fields], the body's
    status, priority and due_date as they arrived (absent ones
    undefined), the task id and the timestamp; two bodies that agree on
    these three properties give the same event, whatever their title,
    description and project_id. *)
Theorem updated_fields_of_event :
  (forall user id b c w,
      res_status (fst (put_api_tasks user id b c w)) = 200 ->
      emitted (snd (put_api_tasks user id b c w))
      = emitted w ++ [task_updated_event id b (iso c)])
  /\ (forall id b b' timestamp,
         tb_status b = tb_status b' -> tb_priority b = tb_priority b' ->
         tb_due_date b = tb_due_date b' ->
         task_updated_event id b timestamp
         = task_updated_event id b' timestamp).
Proof.
  split.
  - intros user id b c w. rewrite put_api_tasks_paths. simpl.
    destruct (Pg.where_eq task_id id (tasks (db w))) as [|existing rest];
      simpl; [discriminate|].
    destruct (creator_id existing =? user_id user); simpl; [|discriminate].
    destruct (project_accepted b (db w)); simpl; [reflexivity|discriminate].
  - intros id b b' timestamp S P D. unfold task_updated_event.
    now rewrite S, P, D.
Qed.


(** ** Task list *)

(** What the assembled WHERE clause selects: with a status filter, the
    tasks the caller created, whatever their status, and the tasks
    assigned to the caller that have the status. *)
Lemma satisfies_baseQuery d uid st t :
  Pg.satisfies d (baseQuery uid st) t
  = if truthy st
    then (creator_id t =? uid)
         || (assigned_to d uid t && (status t =? text st))
    else (creator_id t =? uid) || assigned_to d uid t.
Proof.
  unfold Pg.satisfies, baseQuery, assigned_to.
  destruct (truthy st); simpl;
    now rewrite ?andb_true_r, ?orb_false_r.
Qed.

Lemma get_api_tasks_lists user st w :
  fst (get_api_tasks user st w)
  = send 200 (tasks_body
      (map (Pg.listing (db w))
         (filter (Pg.satisfies (db w) (baseQuery (user_id user) st))
            (tasks (db w))))).
Proof. reflexivity. Qed.

(** Without a status filter the list is exactly the tasks the caller
    created or is assigned to. *)
Lemma get_api_tasks_unfiltered user w t :
  In t (map tl_task (listed (fst (get_api_tasks user Undefined w))))
  <-> In t (tasks (db w))
      /\ (creator_id t = user_id user
          \/ assigned_to (db w) (user_id user) t = true).
Proof.
  rewrite get_api_tasks_lists. unfold listed; simpl.
  rewrite map_map; simpl. rewrite map_id, filter_In.
  rewrite satisfies_baseQuery; simpl.
  rewrite orb_true_iff, String.eqb_eq. reflexivity.
Qed.

(** With a status filter the list is the tasks the caller created,
    whatever their status, and the tasks assigned to the caller that
    have the status. *)
Lemma get_api_tasks_filtered user st w t :
  st <> EmptyString ->
  In t (map tl_task (listed (fst (get_api_tasks user (Val st) w))))
  <-> In t (tasks (db w))
      /\ (creator_id t = user_id user
          \/ (assigned_to (db w) (user_id user) t = true
              /\ status t = st)).
Proof.
  intros NE. rewrite get_api_tasks_lists. unfold listed; simpl.
  rewrite map_map; simpl. rewrite map_id, filter_In.
  rewrite satisfies_baseQuery. rewrite (truthy_text _ NE). simpl.
  rewrite orb_true_iff, andb_true_iff, !String.eqb_eq. reflexivity.
Qed.

(** ** Task deletion by the creator *)

(** Whenever the creator deletes an existing task, the handler sends the
    four child deletes and then the task delete, in this order; the four
    child tables hold no row of the task afterwards; the task row is
    gone, and the answer is 200, exactly when no notification row points
    at the task. *)
Lemma delete_by_creator user id w existing rest :
  Pg.where_eq task_id id (tasks (db w)) = existing :: rest ->
  creator_id existing = user_id user ->
  let out := delete_api_tasks user id w in
  queries (snd out)
  = queries w ++ [SELECT_tasks_WHERE_task_id id] ++ cascade id
  /\ Pg.where_eq st_task_id id (subtasks (db (snd out))) = []
  /\ Pg.where_eq c_task_id id (task_comments (db (snd out))) = []
  /\ Pg.where_eq ta_task_id id (task_assignees (db (snd out))) = []
  /\ Pg.where_eq tl_task_id id (task_labels (db (snd out))) = []
  /\ (notified id (db w) = false ->
      res_status (fst out) = 200
      /\ Pg.where_eq task_id id (tasks (db (snd out))) = [])
  /\ (notified id (db w) = true ->
      fst out = internal_server_error
      /\ tasks (db (snd out)) = tasks (db w)).
Proof.
  intros W O out. subst out.
  rewrite delete_api_tasks_paths, W. cbv zeta.
  rewrite O, String.eqb_refl.
  destruct (notified id (db w)); cbn [fst snd db queries];
    unfold without_children; simpl;
    rewrite !where_eq_delete_where;
    repeat split; try reflexivity; try discriminate.
Qed.


(** ** Priority and status of stored tasks *)

Lemma snd_try_catch m w : snd (try_catch m w) = snd (m w).
Proof. unfold try_catch. now destruct (m w) as [[r|e] w']. Qed.

Lemma insert_subtask_tasks id tid ttl done created updated d a d' :
  Pg.insert_subtask id tid ttl done created updated d = Ok (a, d') ->
  tasks d' = tasks d.
Proof.
  unfold Pg.insert_subtask. destruct ttl; [|discriminate].
  destruct (Pg.has _ _ _); [discriminate|].
  destruct (negb _); [discriminate|]. now intros [= <- <-].
Qed.

Lemma insert_task_assignee_tasks id tid uid assigned d a d' :
  Pg.insert_task_assignee id tid uid assigned d = Ok (a, d') ->
  tasks d' = tasks d.
Proof.
  unfold Pg.insert_task_assignee.
  destruct (Pg.has _ _ _); [discriminate|].
  destruct (negb _); [discriminate|].
  destruct (negb _); [discriminate|]. now intros [= <- <-].
Qed.

Lemma insert_task_label_tasks id tid lid d a d' :
  Pg.insert_task_label id tid lid d = Ok (a, d') ->
  tasks d' = tasks d.
Proof.
  unfold Pg.insert_task_label.
  destruct (Pg.has _ _ _); [discriminate|].
  destruct (negb _); [discriminate|].
  destruct (negb _); [discriminate|]. now intros [= <- <-].
Qed.

Lemma keeps_tasks_fresh_uuid : keeps tasks_of fresh_uuid.
Proof. intros w. reflexivity. Qed.

Lemma keeps_tasks_io_emit name e : keeps tasks_of (io_emit name e).
Proof. intros w. reflexivity. Qed.

Lemma keeps_tasks_insert_subtask q id tid ttl done created updated :
  keeps tasks_of
    (pool_query q (Pg.insert_subtask id tid ttl done created updated)).
Proof.
  apply (keeps_table_pool_query tasks). intros d a d'.
  apply insert_subtask_tasks.
Qed.

Lemma keeps_tasks_insert_task_assignee q id tid uid assigned :
  keeps tasks_of
    (pool_query q (Pg.insert_task_assignee id tid uid assigned)).
Proof.
  apply (keeps_table_pool_query tasks). intros d a d'.
  apply insert_task_assignee_tasks.
Qed.

Lemma keeps_tasks_insert_task_label q id tid lid :
  keeps tasks_of (pool_query q (Pg.insert_task_label id tid lid)).
Proof.
  apply (keeps_table_pool_query tasks). intros d a d'.
  apply insert_task_label_tasks.
Qed.

#[local] Hint Resolve keeps_tasks_fresh_uuid keeps_tasks_io_emit
  keeps_tasks_insert_subtask keeps_tasks_insert_task_assignee
  keeps_tasks_insert_task_label : quiet.

Lemma bind_fresh_uuid {B} (k : string -> M B) w :
  bind fresh_uuid k w
  = k (uuidv4 (uuids_drawn w))
      {| db := db w; sockets := sockets w; emitted := emitted w;
         queries := queries w; uuids_drawn := S (uuids_drawn w) |}.
Proof. reflexivity. Qed.

Lemma tasks_bind_right {A B} (m : M A) (k : A -> M B) w :
  (forall a, keeps tasks_of (k a)) ->
  tasks (db (snd (bind m k w))) = tasks (db (snd (m w))).
Proof.
  intros K. unfold bind. destruct (m w) as [[a|e] w1]; simpl; [|reflexivity].
  apply (K a w1).
Qed.

(** The tasks table after a create: as before, or with one more row
    whose priority and status are the body's after defaulting. *)
Lemma post_api_tasks_tasks user b c w :
  tasks (db (snd (post_api_tasks user b c w))) = tasks (db w)
  \/ exists t,
       tasks (db (snd (post_api_tasks user b c w))) = tasks (db w) ++ [t]
       /\ with_default "medium" (tb_priority b) = Val (priority t)
       /\ with_default "pending" (tb_status b) = Val (status t).
Proof.
  unfold post_api_tasks. rewrite snd_try_catch.
  destruct (negb (truthy (tb_title b))); [now left|].
  destruct (some_subtask_untitled _); [now left|].
  rewrite bind_fresh_uuid.
  rewrite tasks_bind_right by (intros; quiet).
  unfold pool_query, Pg.insert_task. cbn [db log_query].
  destruct (with_default "medium" (tb_priority b)) as [| |p];
    try (now left).
  destruct (with_default "pending" (tb_status b)) as [| |s];
    try (now left).
  cbn [to_sql].
  destruct (Pg.has task_id _ (tasks (db w))); [now left|].
  destruct (negb (Pg.has u_user_id _ (users (db w)))); [now left|].
  destruct (negb (Pg.references _ p_project_id (projects (db w))));
    [now left|].
  right. eexists. split; [reflexivity|]. split; reflexivity.
Qed.

Lemma drawn_from_default allowed d f s :
  In d allowed -> drawn_from allowed f -> with_default d f = Val s ->
  In s allowed.
Proof.
  intros D F. destruct f as [| |x]; simpl in *; try discriminate.
  - now intros [= <-].
  - now intros [= <-].
Qed.

Lemma drawn_from_truthy allowed f old :
  In old allowed -> drawn_from allowed f ->
  In (if truthy f then text f else old) allowed.
Proof.
  intros O F. destruct f as [| |x]; simpl in *; auto.
  now destruct (x =? EmptyString).
Qed.

Lemma post_api_tasks_in_range user b c w :
  Forall in_range (tasks (db w)) ->
  well_valued (create_request user b c) ->
  Forall in_range (tasks (db (snd (post_api_tasks user b c w)))).
Proof.
  intros R [Vp Vs]. simpl in Vp, Vs.
  destruct (post_api_tasks_tasks user b c w) as [-> | [t [-> [P S]]]];
    [exact R|].
  apply Forall_app. split; [exact R|].
  constructor; [|constructor]. split.
  - apply (drawn_from_default priorities "medium" (tb_priority b));
      simpl; auto.
  - apply (drawn_from_default statuses "pending" (tb_status b));
      simpl; auto.
Qed.

Lemma put_api_tasks_in_range user id b c w :
  Forall in_range (tasks (db w)) ->
  well_valued (update_request user id b c) ->
  Forall in_range (tasks (db (snd (put_api_tasks user id b c w)))).
Proof.
  intros R [Vp Vs]. simpl in Vp, Vs.
  rewrite put_api_tasks_paths. cbv zeta.
  destruct (Pg.where_eq task_id id (tasks (db w))) as [|existing rest];
    [exact R|].
  destruct (creator_id existing =? user_id user); [|exact R].
  destruct (project_accepted b (db w)); [|exact R].
  cbn [snd db tasks Pg.with_tasks]. unfold tasks_after_update.
  apply Forall_map. revert R. apply Forall_impl. intros t [Rp Rs].
  destruct (task_id t =? id); [|now split].
  split; cbn [priority status updated_task].
  - now apply drawn_from_truthy.
  - now apply drawn_from_truthy.
Qed.

(** C9, amended.  The handlers store the priority and the status a body
    carries as they arrive, without comparing them with the
    enumerations.  So: from a store whose tasks all have priority in
    {low, medium, high} and status in {pending, in_progress, completed},
    any sequence of task creates and task updates whose bodies carry, for
    priority and for status, either nothing, [null] or a value of the
    enumeration, leads to a store whose tasks all have priority and
    status in the enumerations. *)
Theorem enumerations_preserved rqs : forall w,
  Forall in_range (tasks (db w)) ->
  Forall well_valued rqs ->
  Forall in_range (tasks (db (serve_all rqs w))).
Proof.
  induction rqs as [|rq rqs IH]; intros w R V; simpl; [exact R|].
  inversion V as [|? ? Vrq Vrqs]; subst.
  apply IH; [|exact Vrqs].
  destruct rq as [user b c|user id b c]; simpl.
  - now apply post_api_tasks_in_range.
  - now apply put_api_tasks_in_range.
Qed.

End Properties.

(* ===================================================================== *)
(** * The handlers on the seeded store *)
(* ===================================================================== *)

(** C4.  On the seeded store, Alice (user1) created task1, and
    notif1 and notif2 point at it.  Her DELETE sends the four child
    deletes and the task delete in order; the last one is refused by
    [notifications.task_id REFERENCES tasks(task_id)], so the answer is
    500, the task row is still stored, its subtasks are already gone,
    and nothing is emitted. *)
Theorem seeded_task_cannot_be_deleted :
  let out := delete_api_tasks Demo.alice "task1" Seed.started in
  Pg.where_eq task_id "task1" (tasks (db Seed.started)) = [Seed.task1]
  /\ creator_id Seed.task1 = user_id Demo.alice
  /\ fst out = internal_server_error
  /\ Pg.where_eq task_id "task1" (tasks (db (snd out))) = [Seed.task1]
  /\ queries (snd out)
     = SELECT_tasks_WHERE_task_id "task1" :: cascade "task1"
  /\ map st_subtask_id (subtasks (db (snd out))) = ["subtask3"; "subtask4"]
  /\ emitted (snd out) = [].
Proof. vm_compute. repeat split. Qed.

(** C5.  On the seeded store, Bob (user2) created task2 (pending) and
    task4 (in_progress) and is assigned to task1 (in_progress).  His list
    filtered by status=completed holds task2 and task4, neither of which
    is completed. *)
Theorem status_filter_keeps_own_tasks :
  map (fun l => (task_id (tl_task l), status (tl_task l)))
    (listed (fst (get_api_tasks Demo.bob (Val "completed") Seed.started)))
  = [("task2", "pending"); ("task4", "in_progress")].
Proof. vm_compute. reflexivity. Qed.

(** ** Where the code parts from an unconditional reading *)

(** Alice created task1 and asks to move it to a project that is not
    stored: the caller is the owner, yet the update does not succeed;
    the store refuses the row and the answer is 500. *)
Lemma owner_update_refused_by_store :
  Pg.where_eq task_id "task1" (tasks (db Seed.started)) = [Seed.task1]
  /\ creator_id Seed.task1 = user_id Demo.alice
  /\ fst (put_api_tasks Demo.alice "task1" (Demo.move_to_project "project9")
            Demo.at_noon Seed.started)
     = internal_server_error.
Proof. vm_compute. repeat split. Qed.

(** Alice sends [{ title: "", description: null }] for task1: the update
    succeeds, the supplied empty title is not written (the title stays
    "Create wireframes"), while the supplied null description is. *)
Lemma empty_title_is_not_written :
  let out := put_api_tasks Demo.alice "task1"
               (Demo.retitle_and_clear EmptyString) Demo.at_noon
               Seed.started in
  title Seed.task1 = "Create wireframes"
  /\ description Seed.task1
     = Some "Design initial wireframes for the website redesign"
  /\ res_status (fst out) = 200
  /\ map (fun t => (title t, description t))
       (Pg.where_eq task_id "task1" (tasks (db (snd out))))
     = [("Create wireframes", None)].
Proof. vm_compute. repeat split. Qed.


(** Alice creates a task with priority "urgent" and status "archived":
    the answer is 201 and the row is stored with these two values. *)
Lemma urgent_priority_is_stored :
  let out := post_api_tasks (H := Demo.platform) Demo.alice
               (Demo.new_task "Fix login" "urgent" "archived") Demo.at_noon
               Seed.started in
  res_status (fst out) = 201
  /\ map (fun t => (title t, priority t, status t))
       (Pg.where_eq task_id "uuid-0" (tasks (db (snd out))))
     = [("Fix login", "urgent", "archived")]
  /\ existsb (String.eqb "urgent") priorities = false
  /\ existsb (String.eqb "archived") statuses = false.
Proof. vm_compute. repeat split. Qed.

(** ** The theorems at concrete inputs *)

Lemma token_verification_witness :
  "alice" <> EmptyString
  /\ bearer_token (Val "Bearer alice") = Val "alice"
  /\ authenticateToken (H := Demo.platform) (Val "Bearer alice") 500
     = next Demo.alice
  /\ authenticateToken (H := Demo.platform) (Val "Bearer alice") 1000
     = answered (send 403 (message_only "Invalid token")).
Proof.
  assert (NE : "alice" <> EmptyString) by discriminate.
  split; [exact NE|]. split; [reflexivity|].
  destruct (token_verification (H := Demo.platform) "alice" 500 NE)
    as [Http _].
  destruct (token_verification (H := Demo.platform) "alice" 1000 NE)
    as [_ [_ Expired]].
  split.
  - apply Http; [reflexivity|].
    exists {| tok_payload := Demo.alice; tok_exp := 1000;
              tok_signature := "good" |}.
    repeat split; reflexivity.
  - apply (Expired {| tok_payload := Demo.alice; tok_exp := 1000;
                      tok_signature := "good" |}); [reflexivity| |reflexivity].
    simpl. lia.
Defined.


Lemma seed_emails_unique : NoDup (emails Seed.seed).
Proof.
  repeat constructor; simpl; intuition discriminate.
Defined.

Lemma login_outcomes_witness :
  truthy (lb_email Scenario.alice_wrong_password) = true
  /\ lb_password Scenario.alice_wrong_password = Val (json_text "guess")
  /\ NoDup (emails (db Seed.started))
  /\ fst (post_api_auth_login (H := Demo.platform) Scenario.alice_wrong_password
            Demo.at_noon Seed.started)
     = invalid_credentials.
Proof.
  split; [reflexivity|]. split; [reflexivity|].
  split; [exact seed_emails_unique|].
  destruct (login_outcomes (H := Demo.platform) Scenario.alice_wrong_password
              Demo.at_noon Seed.started "guess" eq_refl eq_refl eq_refl
              seed_emails_unique)
    as [_ [Wrong _]].
  apply (Wrong Seed.user1); [simpl; auto|reflexivity|reflexivity].
Defined.

Lemma non_string_password_reveals_account_witness :
  Pg.has u_email "alice@example.com" (users (db Seed.started)) = true
  /\ Pg.has u_email "nobody@example.com" (users (db Seed.started)) = false
  /\ fst (post_api_auth_login (H := Demo.platform)
            Scenario.alice_numeric_password Demo.at_noon Seed.started)
     = internal_server_error
  /\ fst (post_api_auth_login (H := Demo.platform)
            Scenario.nobody_numeric_password Demo.at_noon Seed.started)
     = invalid_credentials.
Proof.
  split; [reflexivity|]. split; [reflexivity|].
  destruct (non_string_password_reveals_account (H := Demo.platform)
              Scenario.alice_numeric_password Demo.at_noon Seed.started
              eq_refl eq_refl) as [Stored _].
  destruct (non_string_password_reveals_account (H := Demo.platform)
              Scenario.nobody_numeric_password Demo.at_noon Seed.started
              eq_refl eq_refl) as [_ [Unknown _]].
  split; [exact (Stored eq_refl)|exact (Unknown eq_refl)].
Defined.

Lemma owner_gate_witness :
  Pg.where_eq task_id "task1" (tasks (db Seed.started)) = [Seed.task1]
  /\ creator_id Seed.task1 <> user_id Demo.bob
  /\ res_status (fst (put_api_tasks Demo.bob "task1"
                        (Demo.set_status "completed") Demo.at_noon
                        Seed.started)) = 403
  /\ db (snd (put_api_tasks Demo.bob "task1" (Demo.set_status "completed")
                Demo.at_noon Seed.started)) = db Seed.started.
Proof.
  assert (W : Pg.where_eq task_id "task1" (tasks (db Seed.started))
              = [Seed.task1]) by reflexivity.
  assert (N : creator_id Seed.task1 <> user_id Demo.bob) by discriminate.
  split; [exact W|]. split; [exact N|].
  destruct (proj1 owner_gate Demo.bob "task1" (Demo.set_status "completed")
              Demo.at_noon Seed.started Seed.task1 [] W)
    as [[Forbidden [Untouched _]] _].
  split; [now apply Forbidden|now apply Untouched].
Defined.

Lemma sparse_update_witness :
  Pg.where_eq task_id "task1" (tasks (db Seed.started)) = [Seed.task1]
  /\ creator_id Seed.task1 = user_id Demo.alice
  /\ project_accepted (Demo.set_status "completed") (db Seed.started) = true
  /\ res_status (fst (put_api_tasks Demo.alice "task1"
                        (Demo.set_status "completed") Demo.at_noon
                        Seed.started)) = 200
  /\ Pg.where_eq task_id "task1"
       (tasks (db (snd (put_api_tasks Demo.alice "task1"
                          (Demo.set_status "completed") Demo.at_noon
                          Seed.started))))
     = [updated_task (Demo.set_status "completed") (iso Demo.at_noon)
          Seed.task1].
Proof.
  assert (W : Pg.where_eq task_id "task1" (tasks (db Seed.started))
              = [Seed.task1]) by reflexivity.
  assert (O : creator_id Seed.task1 = user_id Demo.alice) by reflexivity.
  assert (P : project_accepted (Demo.set_status "completed")
                (db Seed.started) = true) by reflexivity.
  split; [exact W|]. split; [exact O|]. split; [exact P|].
  destruct (sparse_update Demo.alice "task1" (Demo.set_status "completed")
              Demo.at_noon Seed.started Seed.task1 [] W O P)
    as [Status [_ [Rows _]]].
  split; [exact Status|exact Rows].
Defined.

Lemma enumerations_preserved_witness :
  Forall in_range (tasks (db Seed.started))
  /\ Forall well_valued Scenario.write_spec_then_complete
  /\ Forall in_range
       (tasks (db (serve_all (H := Demo.platform) Scenario.write_spec_then_complete
                     Seed.started))).
Proof.
  assert (R : Forall in_range (tasks (db Seed.started)))
    by (repeat apply Forall_cons; try apply Forall_nil; split; simpl; auto).
  assert (V : Forall well_valued Scenario.write_spec_then_complete)
    by (repeat apply Forall_cons; try apply Forall_nil; split; simpl; auto).
  split; [exact R|]. split; [exact V|].
  exact (enumerations_preserved (H := Demo.platform)
           Scenario.write_spec_then_complete Seed.started R V).
Defined.

(** Bob is connected when Alice creates a task and when she completes
    it: his socket is sent both events, in order. *)
Example bob_is_sent_alice_events :
  let connected :=
    io_connect (H := Demo.platform) "socket-1"
      {| auth_token := Val "bob"; query_token := Undefined |} 500
      Seed.started in
  map (fun s => (user_id (socket_user s), map fst (received s)))
    (sockets (serve_all (H := Demo.platform) Scenario.write_spec_then_complete
                connected))
  = [("user2", ["task_created"; "task_updated"])].
Proof. vm_compute. reflexivity. Qed.

(** The event of a status change carries the three properties as the
    body had them. *)
Example completed_event :
  emitted (snd (put_api_tasks Demo.alice "task1"
                  (Demo.set_status "completed") Demo.at_noon Seed.started))
  = [("task_updated",
      {| event := "task_updated";
         data := taskUpdatedPayload "task1"
                   {| uf_status := Val "completed";
                      uf_priority := Undefined;
                      uf_due_date := Undefined |}
                   "2023-10-06T12:00:00.000Z" |})].
Proof. vm_compute. reflexivity. Qed.


(* ===================================================================== *)
(** * Further properties *)
(* ===================================================================== *)

(** ** The Authorization header *)

Lemma split_space_spaceless s :
  spaceless s = true -> split_space s = [s].
Proof.
  induction s as [|c r IH]; simpl; [reflexivity|].
  destruct (Ascii.eqb c " "); simpl; [discriminate|].
  intros S. now rewrite (IH S).
Qed.

Lemma split_space_word s rest :
  spaceless s = true ->
  split_space (s ++ String " " rest)%string = s :: split_space rest.
Proof.
  induction s as [|c r IH]; simpl; [reflexivity|].
  destruct (Ascii.eqb c " "); simpl; [discriminate|].
  intros S. now rewrite (IH S).
Qed.

Lemma truthy_word s rest :
  truthy (Val (s ++ String " " rest)%string) = true.
Proof. destruct s; reflexivity. Qed.

Section MoreProperties.

Context `{Platform} `{Collation}.

(** X1.  When the Authorization header is a word, one space and a token,
    neither holding a space, the token the request presents is that
    token, whatever the word is: the header of any scheme is treated as
    a Bearer header.  When more words follow, the token is the second
    word alone. *)
Theorem bearer_token_second_word scheme token :
  spaceless scheme = true -> spaceless token = true ->
  bearer_token (Val (scheme ++ " " ++ token)%string) = Val token
  /\ (forall now,
         authenticateToken (Val (scheme ++ " " ++ token)%string) now
         = authenticateToken (Val ("Bearer " ++ token)%string) now)
  /\ (forall rest,
         bearer_token (Val (scheme ++ " " ++ token ++ " " ++ rest)%string)
         = Val token).
Proof.
  intros Ss St.
  assert (B : forall sch, spaceless sch = true ->
                          bearer_token (Val (sch ++ " " ++ token)%string) = Val token).
  { intros sch S. unfold bearer_token, and_then. cbn [append].
    rewrite truthy_word. cbn [text].
    now rewrite (split_space_word _ _ S), (split_space_spaceless _ St). }
  split; [now apply B|]. split.
  - intros now. unfold authenticateToken.
    rewrite (B scheme Ss).
    change ("Bearer " ++ token)%string
      with ("Bearer" ++ " " ++ token)%string.
    now rewrite (B "Bearer" eq_refl).
  - intros rest. unfold bearer_token, and_then. cbn [append].
    rewrite truthy_word. cbn [text].
    now rewrite (split_space_word _ _ Ss), (split_space_word _ _ St).
Qed.

(** X2.  A request without an Authorization header, with a [null] or
    empty one, with one that holds no space, or with one whose first
    space is followed by the end or by another space, is answered 401
    "Token missing", at any time and whatever the verifier is. *)
Theorem no_token_is_unauthenticated now :
  authenticateToken Undefined now = answered token_missing
  /\ authenticateToken Null now = answered token_missing
  /\ (forall header,
         spaceless header = true ->
         authenticateToken (Val header) now = answered token_missing)
  /\ (forall scheme,
         spaceless scheme = true ->
         authenticateToken (Val (scheme ++ " ")%string) now
         = answered token_missing)
  /\ (forall scheme rest,
         spaceless scheme = true ->
         authenticateToken (Val (scheme ++ " " ++ " " ++ rest)%string) now
         = answered token_missing).
Proof.
  split; [reflexivity|]. split; [reflexivity|]. split; [|split].
  - intros header S. unfold authenticateToken, bearer_token, and_then.
    destruct (truthy (Val header)) eqn:T.
    + cbn [text]. now rewrite (split_space_spaceless _ S).
    + now rewrite T.
  - intros scheme S. unfold authenticateToken, bearer_token, and_then.
    rewrite truthy_word. cbn [text].
    now rewrite (split_space_word _ _ S).
  - intros scheme rest S.
    unfold authenticateToken, bearer_token, and_then. cbn [append].
    rewrite truthy_word. cbn [text].
    now rewrite (split_space_word _ _ S).
Qed.

(** ** Events and sockets over a sequence of requests *)

Lemma deliver_all_nil s : deliver_all [] s = s.
Proof. destruct s. unfold deliver_all; simpl. now rewrite app_nil_r. Qed.

Lemma deliver_all_app n1 n2 s :
  deliver_all n2 (deliver_all n1 s) = deliver_all (n1 ++ n2) s.
Proof. unfold deliver_all; simpl. now rewrite app_assoc. Qed.

Lemma announces_step name route w :
  announces name route ->
  exists news,
    emitted (snd (route w)) = emitted w ++ news
    /\ sockets (snd (route w)) = map (deliver_all news) (sockets w)
    /\ (length news <= 1)%nat
    /\ (forall ev, In ev news -> fst ev = name).
Proof.
  intros A. specialize (A w).
  destruct (succeeded (fst (route w))).
  - destruct A as [d [E S]]. cbv zeta in E, S.
    exists [(name, {| event := name; data := d |})].
    split; [exact E|]. split; [exact S|]. split; [simpl; lia|].
    intros ev [<-|[]]. reflexivity.
  - destruct A as [E S]. exists []. rewrite E, S, app_nil_r.
    split; [reflexivity|]. split.
    + rewrite <- (map_id (sockets w)) at 1. apply map_ext.
      intros s. now rewrite deliver_all_nil.
    + split; [simpl; lia|intros ev []].
Qed.

Lemma perform_step m w :
  exists news,
    emitted (perform m w) = emitted w ++ news
    /\ sockets (perform m w) = map (deliver_all news) (sockets w)
    /\ (length news <= 1)%nat
    /\ (forall ev, In ev news -> In (fst ev) server_events).
Proof.
  destruct m as [user b c|user id b c|user id|user id b c]; simpl.
  - destruct (announces_step _ _ w (post_api_tasks_announces user b c))
      as [news [E [S [L N]]]].
    exists news. repeat split; auto.
    intros ev I. rewrite (N ev I). simpl. auto.
  - destruct (announces_step _ _ w (put_api_tasks_announces user id b c))
      as [news [E [S [L N]]]].
    exists news. repeat split; auto.
    intros ev I. rewrite (N ev I). simpl. auto.
  - destruct (announces_step _ _ w (delete_api_tasks_announces user id))
      as [news [E [S [L N]]]].
    exists news. repeat split; auto.
    intros ev I. rewrite (N ev I). simpl. auto.
  - destruct (announces_step _ _ w
                (post_api_tasks_comments_announces user id b c))
      as [news [E [S [L N]]]].
    exists news. repeat split; auto.
    intros ev I. rewrite (N ev I). simpl. auto 6.
Qed.

Lemma perform_all_steps ms : forall w,
  exists news,
    emitted (perform_all ms w) = emitted w ++ news
    /\ sockets (perform_all ms w) = map (deliver_all news) (sockets w)
    /\ (length news <= length ms)%nat
    /\ (forall ev, In ev news -> In (fst ev) server_events).
Proof.
  induction ms as [|m ms IH]; intros w; simpl.
  - exists []. rewrite app_nil_r. split; [reflexivity|]. split.
    + rewrite <- (map_id (sockets w)) at 1. apply map_ext.
      intros s. now rewrite deliver_all_nil.
    + split; [simpl; lia|intros ev []].
  - destruct (perform_step m w) as [n1 [E1 [S1 [L1 N1]]]].
    destruct (IH (perform m w)) as [n2 [E2 [S2 [L2 N2]]]].
    exists (n1 ++ n2). split; [|split; [|split]].
    + now rewrite E2, E1, app_assoc.
    + rewrite S2, S1, map_map. apply map_ext.
      intros s. apply deliver_all_app.
    + rewrite length_app. lia.
    + intros ev I. apply in_app_or in I.
      destruct I as [I|I]; [now apply N1|now apply N2].
Qed.

(** X3.  Over any sequence of requests to the four mutation routes
    (task create, update, delete, comment create), by whatever users:
    every socket that is connected throughout is sent exactly the events
    emitted meanwhile, in the order of emission and whoever its user is;
    there is at most one event per request, and every event bears one of
    the four names task_created, task_updated, task_deleted,
    new_comment. *)
Theorem every_socket_is_sent_every_event ms w :
  exists news,
    emitted (perform_all ms w) = emitted w ++ news
    /\ sockets (perform_all ms w) = map (deliver_all news) (sockets w)
    /\ (length news <= length ms)%nat
    /\ (forall ev, In ev news -> In (fst ev) server_events).
Proof. apply perform_all_steps. Qed.

(** X4.  A handshake the middleware refuses leaves the world as it was.
    A socket admitted after some requests starts with an empty inbox and
    is sent the events of the later requests only; a socket that has
    disconnected is in no later registry, so it is sent nothing more. *)
Theorem socket_lifetime id hs now ms w :
  (forall error, io_use hs now = refused error ->
                 io_connect id hs now w = w)
  /\ (forall user,
         io_use hs now = admitted user ->
         exists news,
           emitted (perform_all ms (io_connect id hs now w))
           = emitted w ++ news
           /\ sockets (perform_all ms (io_connect id hs now w))
              = map (deliver_all news) (sockets w)
                ++ [{| socket_id := id; socket_user := user;
                       received := news |}])
  /\ (forall s, In s (sockets (perform_all ms (io_disconnect id w))) ->
                socket_id s <> id).
Proof.
  split; [|split].
  - intros error R. unfold io_connect. now rewrite R.
  - intros user A.
    destruct (perform_all_steps ms (io_connect id hs now w))
      as [news [E [S _]]].
    exists news. rewrite E, S. unfold io_connect. rewrite A. simpl.
    split; [reflexivity|]. now rewrite map_app.
  - intros s I.
    destruct (perform_all_steps ms (io_disconnect id w))
      as [news [_ [S _]]].
    rewrite S in I. apply in_map_iff in I. destruct I as [s0 [<- I]].
    simpl in I. apply filter_In in I. destruct I as [_ N]. simpl.
    intros E. rewrite E, String.eqb_refl in N. discriminate.
Qed.

(** ** Registration and login, accepted *)

Lemma where_eq_app {A} (key : A -> string) k (l1 l2 : list A) :
  Pg.where_eq key k (l1 ++ l2) = Pg.where_eq key k l1 ++ Pg.where_eq key k l2.
Proof. unfold Pg.where_eq. apply filter_app. Qed.

Lemma post_api_auth_register_accepted b c w :
  truthy (rb_name b) = true -> truthy (rb_email b) = true ->
  truthy (rb_password b) = true ->
  Pg.has u_email (text (rb_email b)) (users (db w)) = false ->
  Pg.has u_user_id (uuidv4 (uuids_drawn w)) (users (db w)) = false ->
  fst (post_api_auth_register b c w)
  = send 201 (auth_body "Registration successful"
                (issued_token (registered_user b c w) c)
                (public_of (registered_user b c w)))
  /\ db (snd (post_api_auth_register b c w))
     = Pg.with_users (users (db w) ++ [registered_user b c w]) (db w).
Proof.
  intros Tn Te Tp E U. unfold post_api_auth_register.
  rewrite Tn, Te, Tp. run_handler.
  unfold Pg.select_users_by_email.
  pose proof E as E0. apply where_eq_nil in E0. rewrite E0. simpl.
  unfold Pg.insert_user. simpl. rewrite U, E. simpl.
  split; reflexivity.
Qed.


(** X6.  Provided bcrypt accepts a password against its own hash: after
    an accepted registration, a login with the same email and password,
    at any later time, is answered 200 with the user the registration
    stored, and with a token for the identity the registration
    returned. *)
Theorem login_after_registration b c c' w :
  bcrypt_compare (text (rb_password b))
    (bcrypt_hash (text (rb_password b))) = true ->
  truthy (rb_name b) = true -> truthy (rb_email b) = true ->
  truthy (rb_password b) = true ->
  Pg.has u_email (text (rb_email b)) (users (db w)) = false ->
  Pg.has u_user_id (uuidv4 (uuids_drawn w)) (users (db w)) = false ->
  fst (post_api_auth_login
         {| lb_email := rb_email b;
            lb_password := json_of (rb_password b) |} c'
         (snd (post_api_auth_register b c w)))
  = send 200 (auth_body "Login successful"
                (issued_token (registered_user b c w) c')
                (public_of (registered_user b c w))).
Proof.
  intros B Tn Te Tp E U.
  destruct (post_api_auth_register_accepted b c w Tn Te Tp E U) as [_ D].
  unfold post_api_auth_login. cbn [lb_email lb_password].
  assert (J : json_of (rb_password b)
              = Val (json_text (text (rb_password b))))
    by (destruct (rb_password b); try discriminate; reflexivity).
  assert (Tj : json_truthy (json_of (rb_password b)) = true)
    by (destruct (rb_password b); try discriminate; exact Tp).
  rewrite Te, Tj, J. cbn [bcrypt_compare_data].
  run_handler. unfold Pg.select_users_by_email.
  rewrite D. cbn [users Pg.with_users]. rewrite where_eq_app.
  pose proof E as E0. apply where_eq_nil in E0. rewrite E0.
  unfold Pg.where_eq, registered_user. simpl.
  rewrite String.eqb_refl. simpl. rewrite B. reflexivity.
Qed.

(** X7.  Whenever a login is answered 200, some stored user has the
    email sent and a hash the password matches, and the answer carries
    that user's id, name, email and role and a token signed with the
    server secret for exactly that identity, with a lifetime of 86400
    seconds. *)
Theorem login_token_matches_user b c w :
  res_status (fst (post_api_auth_login b c w)) = 200 ->
  exists u,
    In u (users (db w))
    /\ u_email u = text (lb_email b)
    /\ (exists p, lb_password b = Val (json_text p)
                  /\ bcrypt_compare p (u_password_hash u) = true)
    /\ fst (post_api_auth_login b c w)
       = send 200 (auth_body "Login successful"
                     (jwt_sign {| user_id := u_user_id u;
                                  email := u_email u; name := u_name u;
                                  user_role := u_user_role u |}
                        JWT_SECRET (seconds c) 86400)
                     {| pu_user_id := u_user_id u; pu_name := u_name u;
                        pu_email := u_email u;
                        pu_user_role := u_user_role u |}).
Proof.
  unfold post_api_auth_login.
  destruct (negb (truthy (lb_email b)) || negb (json_truthy (lb_password b)));
    run_handler; [discriminate|].
  unfold Pg.select_users_by_email.
  destruct (Pg.where_eq u_email (text (lb_email b)) (users (db w)))
    as [|u rest] eqn:W; simpl; [discriminate|].
  destruct (where_eq_cons _ _ _ _ _ W) as [I [E _]].
  destruct (lb_password b) as [| |[p|t]]; simpl; try discriminate.
  destruct (bcrypt_compare p (u_password_hash u)) eqn:C;
    simpl; [|discriminate].
  intros _. exists u. split; [exact I|]. split; [exact E|].
  split; [exists p; auto|reflexivity].
Qed.

(** ** Task creation, path by path *)

Create HintDb calm.

#[local] Hint Resolve keeps_ret keeps_throw keeps_iterable
  keeps_emitted_fresh_uuid keeps_sockets_fresh_uuid keeps_db_fresh_uuid
  keeps_emitted_pool_query keeps_sockets_pool_query keeps_db_io_emit
  keeps_tasks_fresh_uuid keeps_tasks_io_emit
  keeps_tasks_insert_subtask keeps_tasks_insert_task_assignee
  keeps_tasks_insert_task_label : calm.

Ltac calm :=
  repeat first
    [ apply keeps_bind; [|intros ?]
    | apply keeps_for_of; intros ?
    | solve [auto with calm] ].

Lemma fst_try_catch m w :
  fst (try_catch m w)
  = match fst (m w) with
    | Ok r => r
    | Threw _ => internal_server_error
    end.
Proof. unfold try_catch. now destruct (m w) as [[r|e] w']. Qed.

Lemma bind_pool_query_ok {A B} q (run : database -> outcome (A * database))
    (k : A -> M B) w a d :
  run (db w) = Ok (a, d) ->
  bind (pool_query q run) k w = k a (set_db d (log_query q w)).
Proof. intros R. unfold bind, pool_query. simpl. now rewrite R. Qed.

Lemma bind_pool_query_threw {A B} q
    (run : database -> outcome (A * database)) (k : A -> M B) w e :
  run (db w) = Threw e ->
  bind (pool_query q run) k w = (Threw e, log_query q w).
Proof. intros R. unfold bind, pool_query. simpl. now rewrite R. Qed.

Lemma answers_ret r : answers r (ret r).
Proof. intros w. reflexivity. Qed.

Lemma answers_bind {A} r (m : M A) (k : A -> M response) :
  (forall a, answers r (k a)) -> answers r (bind m k).
Proof.
  intros K w. unfold bind. destruct (m w) as [[a|e] w1]; simpl; [|exact I].
  apply K.
Qed.

Ltac answer := repeat first [apply answers_ret | apply answers_bind; intros ?].

Lemma insert_task_accepted user b c w :
  task_insert_accepted user b w = true ->
  Pg.insert_task (uuidv4 (uuids_drawn w)) (text (tb_title b))
    (or_null (tb_description b)) (or_null (tb_due_date b))
    (to_sql (with_default "medium" (tb_priority b)))
    (to_sql (with_default "pending" (tb_status b))) (user_id user)
    (or_null (tb_project_id b)) (iso c) (iso c) (db w)
  = Ok (tt, Pg.with_tasks (tasks (db w) ++ [created_task user b c w])
              (db w)).
Proof.
  unfold task_insert_accepted, Pg.insert_task, created_task.
  destruct (with_default "medium" (tb_priority b)) as [| |p];
    try discriminate.
  destruct (with_default "pending" (tb_status b)) as [| |s];
    try discriminate.
  cbn [to_sql text].
  destruct (Pg.has task_id _ (tasks (db w))); [discriminate|].
  destruct (Pg.has u_user_id _ (users (db w))); [|discriminate].
  destruct (Pg.references _ p_project_id (projects (db w)));
    [reflexivity|discriminate].
Qed.

Lemma insert_task_refused user b c w :
  task_insert_accepted user b w = false ->
  exists e,
    Pg.insert_task (uuidv4 (uuids_drawn w)) (text (tb_title b))
      (or_null (tb_description b)) (or_null (tb_due_date b))
      (to_sql (with_default "medium" (tb_priority b)))
      (to_sql (with_default "pending" (tb_status b))) (user_id user)
      (or_null (tb_project_id b)) (iso c) (iso c) (db w)
    = Threw e.
Proof.
  unfold task_insert_accepted, Pg.insert_task.
  destruct (with_default "medium" (tb_priority b)) as [| |p];
    try (intros _; eexists; reflexivity).
  destruct (with_default "pending" (tb_status b)) as [| |s];
    try (intros _; eexists; reflexivity).
  cbn [to_sql].
  destruct (Pg.has task_id _ (tasks (db w)));
    [intros _; eexists; reflexivity|].
  destruct (Pg.has u_user_id _ (users (db w)));
    [|intros _; eexists; reflexivity].
  destruct (Pg.references _ p_project_id (projects (db w)));
    [discriminate|intros _; eexists; reflexivity].
Qed.

Lemma post_api_tasks_invalid user b c w :
  task_body_valid b = false ->
  snd (post_api_tasks user b c w) = w
  /\ fst (post_api_tasks user b c w)
     = send 400 (message_only
         (if truthy (tb_title b) then "Each subtask must have a title"
          else "Title is required")).
Proof.
  unfold task_body_valid, post_api_tasks. intros V.
  destruct (truthy (tb_title b)); simpl in *.
  - apply negb_false_iff in V. rewrite V. now split.
  - now split.
Qed.

Lemma post_api_tasks_refused user b c w :
  task_body_valid b = true -> task_insert_accepted user b w = false ->
  fst (post_api_tasks user b c w) = internal_server_error
  /\ db (snd (post_api_tasks user b c w)) = db w
  /\ silent w (snd (post_api_tasks user b c w)).
Proof.
  unfold task_body_valid, post_api_tasks. intros V R.
  apply andb_true_iff in V. destruct V as [T S].
  apply negb_true_iff in S. rewrite T, S. cbn [negb].
  destruct (insert_task_refused user b c w R) as [e E].
  unfold try_catch. rewrite bind_fresh_uuid.
  erewrite bind_pool_query_threw by exact E.
  repeat split.
Qed.

Lemma post_api_tasks_accepted user b c w :
  task_body_valid b = true -> task_insert_accepted user b w = true ->
  post_api_tasks user b c w
  = try_catch (create_children user b c (uuidv4 (uuids_drawn w)))
      (after_task_insert user b c w).
Proof.
  unfold task_body_valid, post_api_tasks. intros V R.
  apply andb_true_iff in V. destruct V as [T S].
  apply negb_true_iff in S. rewrite T, S. cbn [negb].
  unfold try_catch at 1. rewrite bind_fresh_uuid.
  erewrite bind_pool_query_ok
    by (exact (insert_task_accepted user b c w R)).
  reflexivity.
Qed.

Lemma create_children_answers user b c id :
  answers (send 201 (task_created_body "Task created"
                       (taskCreatedPayload id (text (tb_title b))
                          (with_default "pending" (tb_status b))
                          (or_null (tb_due_date b)) (user_id user))))
    (create_children user b c id).
Proof. unfold create_children. answer. Qed.

Lemma create_children_keeps_tasks user b c id :
  keeps tasks_of (create_children user b c id).
Proof. unfold create_children. calm. Qed.

Lemma create_children_announces user b c id :
  announces_in "task_created" (create_children user b c id).
Proof.
  unfold create_children.
  repeat first
    [ apply announces_in_emit; reflexivity
    | apply announces_in_bind; [solve [calm] | solve [calm] | intros ?] ].
Qed.

Lemma post_api_tasks_valid_status user b c w :
  task_body_valid b = true ->
  fst (post_api_tasks user b c w) = internal_server_error
  \/ (task_insert_accepted user b w = true
      /\ fst (post_api_tasks user b c w) = task_created_response user b w).
Proof.
  intros V. destruct (task_insert_accepted user b w) eqn:R.
  - rewrite (post_api_tasks_accepted user b c w V R), fst_try_catch.
    pose proof (create_children_answers user b c (uuidv4 (uuids_drawn w))
                  (after_task_insert user b c w)) as A.
    destruct (fst (create_children user b c (uuidv4 (uuids_drawn w))
                     (after_task_insert user b c w))) as [r|e].
    + right. split; [reflexivity|]. rewrite A. reflexivity.
    + now left.
  - left. now destruct (post_api_tasks_refused user b c w V R).
Qed.

(** X8.  A task create is answered 400 exactly when the title is absent,
    [null] or empty, or when a non-empty subtasks array holds a subtask
    without a title; it has then done nothing at all: no uuid drawn, no
    statement sent, no row stored, nothing emitted. *)
Theorem task_create_validation user b c w :
  (res_status (fst (post_api_tasks user b c w)) = 400 <->
   task_body_valid b = false)
  /\ (task_body_valid b = false -> snd (post_api_tasks user b c w) = w).
Proof.
  split.
  - split.
    + intros S. destruct (task_body_valid b) eqn:V; [|reflexivity].
      destruct (post_api_tasks_valid_status user b c w V) as [E|[_ E]];
        rewrite E in S; discriminate.
    + intros V. now destruct (post_api_tasks_invalid user b c w V) as [_ ->].
  - intros V. now destruct (post_api_tasks_invalid user b c w V).
Qed.

(** X9.  Whenever a task create is answered 201, the tasks table has
    gained exactly one row: the drawn uuid as key, the caller as
    creator, the title as sent, priority and status as sent or medium
    and pending when absent, both timestamps the handler's; the answer
    carries that key; and the creator's unfiltered task list, asked
    next, holds the row. *)
Theorem created_task_is_stored_and_listed user b c w :
  res_status (fst (post_api_tasks user b c w)) = 201 ->
  fst (post_api_tasks user b c w) = task_created_response user b w
  /\ tasks (db (snd (post_api_tasks user b c w)))
     = tasks (db w) ++ [created_task user b c w]
  /\ In (created_task user b c w)
       (map tl_task
          (listed (fst (get_api_tasks user Undefined
                          (snd (post_api_tasks user b c w)))))).
Proof.
  intros S.
  assert (V : task_body_valid b = true).
  { destruct (task_body_valid b) eqn:V; [reflexivity|].
    destruct (post_api_tasks_invalid user b c w V) as [_ E].
    rewrite E in S. discriminate. }
  destruct (post_api_tasks_valid_status user b c w V) as [E|[R E]];
    [rewrite E in S; discriminate|].
  assert (T : tasks (db (snd (post_api_tasks user b c w)))
              = tasks (db w) ++ [created_task user b c w]).
  { rewrite (post_api_tasks_accepted user b c w V R), snd_try_catch.
    apply (create_children_keeps_tasks user b c (uuidv4 (uuids_drawn w))
             (after_task_insert user b c w)). }
  split; [exact E|]. split; [exact T|].
  apply get_api_tasks_unfiltered. rewrite T. split.
  - apply in_or_app. right. now left.
  - left. reflexivity.
Qed.

Lemma throws_bind {A B} (P : world -> Prop) (m : M A) (k : A -> M B) :
  (forall w, P w -> P (snd (m w))) ->
  (forall a, throws_from P (k a)) -> throws_from P (bind m k).
Proof.
  intros Pm K w Pw. unfold bind. specialize (Pm w Pw).
  destruct (m w) as [[a|e] w1]; simpl in *; [now apply K|eauto].
Qed.

Lemma throws_bind_left {A B} (P : world -> Prop) (m : M A) (k : A -> M B) :
  throws_from P m -> throws_from P (bind m k).
Proof.
  intros T w Pw. unfold bind. destruct (T w Pw) as [e E].
  destruct (m w) as [[a|e'] w1]; simpl in *; [discriminate|eauto].
Qed.

Lemma insert_subtask_labels id tid ttl done created updated d a d' :
  Pg.insert_subtask id tid ttl done created updated d = Ok (a, d') ->
  labels d' = labels d.
Proof.
  unfold Pg.insert_subtask. destruct ttl; [|discriminate].
  destruct (Pg.has _ _ _); [discriminate|].
  destruct (negb _); [discriminate|]. now intros [= <- <-].
Qed.

Lemma insert_task_assignee_labels id tid uid assigned d a d' :
  Pg.insert_task_assignee id tid uid assigned d = Ok (a, d') ->
  labels d' = labels d.
Proof.
  unfold Pg.insert_task_assignee.
  destruct (Pg.has _ _ _); [discriminate|].
  destruct (negb _); [discriminate|].
  destruct (negb _); [discriminate|]. now intros [= <- <-].
Qed.

Lemma keeps_labels_fresh_uuid : keeps labels_of fresh_uuid.
Proof. intros w. reflexivity. Qed.

Lemma keeps_labels_insert_subtask q id tid ttl done created updated :
  keeps labels_of
    (pool_query q (Pg.insert_subtask id tid ttl done created updated)).
Proof.
  apply (keeps_table_pool_query labels). intros d a d'.
  apply insert_subtask_labels.
Qed.

Lemma keeps_labels_insert_task_assignee q id tid uid assigned :
  keeps labels_of
    (pool_query q (Pg.insert_task_assignee id tid uid assigned)).
Proof.
  apply (keeps_table_pool_query labels). intros d a d'.
  apply insert_task_assignee_labels.
Qed.

#[local] Hint Resolve keeps_labels_fresh_uuid keeps_labels_insert_subtask
  keeps_labels_insert_task_assignee : calm.

Lemma unknown_label_throws id l ls :
  throws_from (fun w => Pg.has l_label_id l (labels_of w) = false)
    (for_of (l :: ls) (fun label_id =>
       record_id <- fresh_uuid ;;
       pool_query (INSERT_INTO_task_labels record_id)
         (Pg.insert_task_label record_id id label_id))).
Proof.
  intros w U. cbn [for_of]. apply throws_bind_left with (P := fun w' => w' = w);
    [|reflexivity].
  intros w' ->. rewrite bind_fresh_uuid. unfold pool_query, Pg.insert_task_label.
  cbn [db log_query]. unfold labels_of in U. rewrite U.
  destruct (Pg.has tl_record_id _ _); [eexists; reflexivity|].
  destruct (negb (Pg.has task_id id _)); eexists; reflexivity.
Qed.

(** X10.  The task create is not atomic.  When the body is valid and the
    store accepts the task row, but the first label of the body is not a
    stored label, the answer is 500 and nothing is emitted, yet the task
    row stays stored. *)
Theorem refused_label_leaves_the_task user b c w l ls :
  task_body_valid b = true -> task_insert_accepted user b w = true ->
  tb_labels b = Val (l :: ls) ->
  Pg.has l_label_id l (labels (db w)) = false ->
  fst (post_api_tasks user b c w) = internal_server_error
  /\ tasks (db (snd (post_api_tasks user b c w)))
     = tasks (db w) ++ [created_task user b c w]
  /\ silent w (snd (post_api_tasks user b c w)).
Proof.
  intros V R L U.
  rewrite (post_api_tasks_accepted user b c w V R).
  assert (T : throws_from (fun w' => Pg.has l_label_id l (labels_of w') = false)
                (create_children user b c (uuidv4 (uuids_drawn w)))).
  { unfold create_children. rewrite L. cbn [with_default].
    apply throws_bind.
    { intros w' P. rewrite <- P. f_equal.
      match goal with
      | |- labels_of (snd (?m w')) = _ => assert (K : keeps labels_of m) by calm
      end.
      apply K. }
    intros _. apply throws_bind.
    { intros w' P. rewrite <- P. f_equal.
      match goal with
      | |- labels_of (snd (?m w')) = _ => assert (K : keeps labels_of m) by calm
      end.
      apply K. }
    intros _. apply throws_bind_left. cbn [iterable].
    intros w' P. unfold bind at 1, ret at 1.
    apply (unknown_label_throws (uuidv4 (uuids_drawn w)) l ls w' P). }
  destruct (T (after_task_insert user b c w) U) as [e E].
  split; [now rewrite fst_try_catch, E|]. split.
  - rewrite snd_try_catch.
    apply (create_children_keeps_tasks user b c (uuidv4 (uuids_drawn w))
             (after_task_insert user b c w)).
  - rewrite snd_try_catch.
    pose proof (create_children_announces user b c (uuidv4 (uuids_drawn w))
                  (after_task_insert user b c w)) as A.
    rewrite E in A. exact A.
Qed.

(** ** Comments *)

(** X11.  A comment with an absent, [null] or empty text is answered 400
    and does nothing at all.  A comment on a task id that is not stored
    is answered 500 (the store refuses the row, task_comments.task_id
    references tasks), not 404; no row is stored and nothing is
    emitted. *)
Theorem comment_refused user id b c w :
  (truthy (cb_comment_text b) = false ->
   post_api_tasks_comments user id b c w
   = (send 400 (message_only "Comment text is required"), w))
  /\ (truthy (cb_comment_text b) = true ->
      Pg.has task_id id (tasks (db w)) = false ->
      fst (post_api_tasks_comments user id b c w) = internal_server_error
      /\ db (snd (post_api_tasks_comments user id b c w)) = db w
      /\ silent w (snd (post_api_tasks_comments user id b c w))).
Proof.
  unfold post_api_tasks_comments. split.
  - intros T. now rewrite T.
  - intros T N. rewrite T. cbn [negb]. unfold try_catch.
    rewrite bind_fresh_uuid.
    assert (E : exists e,
               Pg.insert_task_comment (uuidv4 (uuids_drawn w)) id
                 (user_id user) (text (cb_comment_text b)) (iso c) (db w)
               = Threw e).
    { unfold Pg.insert_task_comment. rewrite N. cbn [negb].
      destruct (Pg.has c_comment_id _ _); eexists; reflexivity. }
    destruct E as [e E].
    erewrite bind_pool_query_threw by exact E.
    repeat split.
Qed.

(** X12.  Any authenticated identity whose user row is stored may
    comment on any stored task, its own or not: with a non-empty text
    and a fresh uuid the answer is 201, exactly one task_comments row is
    appended (the drawn uuid as key, the caller as author, the text as
    sent), no other table changes, and one new_comment event carrying
    the same five values is emitted. *)
Theorem comment_accepted user id b c w :
  truthy (cb_comment_text b) = true ->
  Pg.has task_id id (tasks (db w)) = true ->
  Pg.has u_user_id (user_id user) (users (db w)) = true ->
  Pg.has c_comment_id (uuidv4 (uuids_drawn w)) (task_comments (db w))
  = false ->
  fst (post_api_tasks_comments user id b c w)
  = send 201 (comment_body "Comment added" (comment_payload user id b c w))
  /\ db (snd (post_api_tasks_comments user id b c w))
     = Pg.with_task_comments
         (task_comments (db w) ++ [created_comment user id b c w]) (db w)
  /\ emitted (snd (post_api_tasks_comments user id b c w))
     = emitted w
       ++ [("new_comment",
            {| event := "new_comment";
               data := comment_payload user id b c w |})].
Proof.
  intros T K U F. unfold post_api_tasks_comments. rewrite T. cbn [negb].
  unfold try_catch. rewrite bind_fresh_uuid.
  erewrite bind_pool_query_ok.
  - repeat split.
  - unfold Pg.insert_task_comment. cbn [db]. rewrite F, K, U.
    reflexivity.
Qed.

(** ** Notifications *)

Lemma mark_mark v id n : Pg.mark v id (Pg.mark v id n) = Pg.mark v id n.
Proof.
  unfold Pg.mark. destruct (n_notification_id n =? id) eqn:E;
    simpl; now rewrite E.
Qed.

Lemma where_eq_map {A} (key : A -> string) k (f : A -> A) rows :
  (forall r, key (f r) = key r) ->
  Pg.where_eq key k (map f rows) = map f (Pg.where_eq key k rows).
Proof.
  intros K. unfold Pg.where_eq.
  induction rows as [|r rows IH]; simpl; [reflexivity|].
  rewrite K. destruct (key r =? k); simpl; now rewrite IH.
Qed.

Lemma mark_keeps_key v id n :
  n_notification_id (Pg.mark v id n) = n_notification_id n.
Proof. unfold Pg.mark. now destruct (n_notification_id n =? id). Qed.

Lemma where_eq_id_mark v id rows :
  Pg.where_eq n_notification_id id (map (Pg.mark v id) rows)
  = map (Pg.mark v id) (Pg.where_eq n_notification_id id rows).
Proof. apply where_eq_map. intros r. apply mark_keeps_key. Qed.

(** X13.  Sending the same notification update twice is the same as
    sending it once: the second request gets the answer of the first
    and leaves the store as the first left it, whether the first
    succeeded or failed. *)
Theorem notification_update_idempotent user id b w :
  fst (put_api_notifications user id b
         (snd (put_api_notifications user id b w)))
  = fst (put_api_notifications user id b w)
  /\ db (snd (put_api_notifications user id b
                (snd (put_api_notifications user id b w))))
     = db (snd (put_api_notifications user id b w)).
Proof.
  rewrite (put_api_notifications_paths user id b w).
  rewrite (put_api_notifications_paths user id b).
  cbv zeta.
  destruct (Pg.where_eq n_notification_id id (notifications (db w)))
    as [|notif rest] eqn:W; cbn [fst snd db log_query].
  - rewrite W. now split.
  - destruct (n_user_id notif =? user_id user) eqn:O;
      cbn [fst snd db log_query].
    + destruct (nb_is_read b) as [| |v] eqn:R; cbn [fst snd db log_query].
      * rewrite W, O. now split.
      * rewrite W, O. now split.
      * cbn [set_db db notifications Pg.with_notifications].
        rewrite where_eq_id_mark, W. cbn [map].
        assert (U : n_user_id (Pg.mark v id notif) = n_user_id notif)
          by (unfold Pg.mark; now destruct (n_notification_id notif =? id)).
        rewrite U, O. cbn [fst snd db set_db notifications
                             Pg.with_notifications log_query].
        split; [reflexivity|].
        unfold Pg.with_notifications. cbn [users projects tasks subtasks
          task_comments task_assignees labels task_labels notifications].
        rewrite map_map. f_equal.
        apply map_ext. intros n. apply mark_mark.
    + rewrite W, O. now split.
Qed.

Lemma Forall2_map_self {A} (R : A -> A -> Prop) (f : A -> A) l :
  (forall x, R x (f x)) -> Forall2 R l (map f l).
Proof. intros F. induction l; simpl; constructor; auto. Qed.

(** X14.  A notification update writes nothing but is_read, and only on
    the notification with the key: whatever the answer, every other
    table is as before, and the notifications table holds, whatever the
    order of its rows, one row for each row it held, agreeing with it on
    every column but is_read, and identical to it when its key is
    another one. *)
Theorem notification_update_frame user id b w :
  let d := db (snd (put_api_notifications user id b w)) in
  users d = users (db w) /\ projects d = projects (db w)
  /\ tasks d = tasks (db w) /\ subtasks d = subtasks (db w)
  /\ task_comments d = task_comments (db w)
  /\ task_assignees d = task_assignees (db w)
  /\ labels d = labels (db w) /\ task_labels d = task_labels (db w)
  /\ exists rows,
       Permutation rows (notifications d)
       /\ Forall2 (fun old new =>
                     same_but_is_read old new
                     /\ (n_notification_id old <> id -> new = old))
            (notifications (db w)) rows.
Proof.
  cbv zeta. rewrite (put_api_notifications_paths user id b w). cbv zeta.
  assert (Same : exists rows,
             Permutation rows (notifications (db w))
             /\ Forall2 (fun old new =>
                           same_but_is_read old new
                           /\ (n_notification_id old <> id -> new = old))
                  (notifications (db w)) rows).
  { exists (notifications (db w)). split; [apply Permutation_refl|].
    rewrite <- (map_id (notifications (db w))) at 2.
    apply Forall2_map_self. intros n. unfold same_but_is_read.
    repeat split; reflexivity. }
  destruct (Pg.where_eq n_notification_id id (notifications (db w)))
    as [|notif rest]; cbn [fst snd db log_query];
    [repeat split; exact Same|].
  destruct (n_user_id notif =? user_id user); cbn [fst snd db log_query];
    [|repeat split; exact Same].
  destruct (nb_is_read b) as [| |v]; cbn [fst snd db log_query];
    [repeat split; exact Same|repeat split; exact Same|].
  cbn [set_db db]. unfold Pg.with_notifications.
  cbn [users projects tasks subtasks task_comments task_assignees labels
       task_labels notifications].
  repeat (split; [reflexivity|]).
  eexists. split; [apply Permutation_refl|].
  apply Forall2_map_self. intros n. unfold Pg.mark, same_but_is_read.
  destruct (String.eqb_spec (n_notification_id n) id) as [E|N]; simpl.
  - repeat split; try reflexivity. intros X. contradiction.
  - repeat split; reflexivity.
Qed.

(** ** Tasks: missing keys, deletion, identity *)

Lemma where_eq_delete_where_other {A} (key : A -> string) k k' rows :
  k <> k' ->
  Pg.where_eq key k' (Pg.delete_where key k rows) = Pg.where_eq key k' rows.
Proof.
  intros N. unfold Pg.where_eq, Pg.delete_where.
  induction rows as [|r rows IH]; simpl; [reflexivity|].
  destruct (String.eqb_spec (key r) k) as [E|D]; simpl.
  - destruct (String.eqb_spec (key r) k') as [E'|_]; [congruence|exact IH].
  - destruct (key r =? k'); now rewrite IH.
Qed.

Lemma get_api_tasks_id_missing id w :
  Pg.where_eq task_id id (tasks (db w)) = [] ->
  fst (get_api_tasks_id id w) = plain task_not_found.
Proof.
  intros W. unfold get_api_tasks_id, try_catch_reply.
  erewrite bind_pool_query_ok
    by (unfold Pg.select_tasks_by_id; rewrite W; reflexivity).
  reflexivity.
Qed.

(** X15.  Once a task delete has been answered 200, the task id is
    unknown to every task route: an update, a second delete and a
    detail request for it, by anyone, are each answered 404 "Task not
    found". *)
Theorem deleted_task_is_not_found user id w :
  res_status (fst (delete_api_tasks user id w)) = 200 ->
  forall user' b c,
    fst (put_api_tasks user' id b c (snd (delete_api_tasks user id w)))
    = task_not_found
    /\ fst (delete_api_tasks user' id (snd (delete_api_tasks user id w)))
       = task_not_found
    /\ fst (get_api_tasks_id id (snd (delete_api_tasks user id w)))
       = plain task_not_found.
Proof.
  intros S user' b c.
  assert (G : Pg.where_eq task_id id
                (tasks (db (snd (delete_api_tasks user id w)))) = []).
  { revert S. rewrite (delete_api_tasks_paths user id w). cbv zeta.
    destruct (Pg.where_eq task_id id (tasks (db w))) as [|existing rest];
      [discriminate|].
    destruct (creator_id existing =? user_id user); [|discriminate].
    destruct (notified id (db w)); [discriminate|].
    intros _. cbn [snd db tasks Pg.with_tasks].
    apply where_eq_delete_where. }
  split; [|split].
  - rewrite put_api_tasks_paths. cbv zeta. now rewrite G.
  - rewrite delete_api_tasks_paths. cbv zeta. now rewrite G.
  - now apply get_api_tasks_id_missing.
Qed.

(** X16.  A task delete answered 200 removes the rows of that task and
    nothing else: users, projects, labels and notifications are as
    before, and for every other task id the task row and its subtasks,
    comments, assignees and label links are exactly the ones stored
    before. *)
Theorem task_delete_frame user id w :
  res_status (fst (delete_api_tasks user id w)) = 200 ->
  let d := db (snd (delete_api_tasks user id w)) in
  users d = users (db w) /\ projects d = projects (db w)
  /\ labels d = labels (db w) /\ notifications d = notifications (db w)
  /\ forall other, id <> other ->
       Pg.where_eq task_id other (tasks d)
       = Pg.where_eq task_id other (tasks (db w))
       /\ Pg.where_eq st_task_id other (subtasks d)
          = Pg.where_eq st_task_id other (subtasks (db w))
       /\ Pg.where_eq c_task_id other (task_comments d)
          = Pg.where_eq c_task_id other (task_comments (db w))
       /\ Pg.where_eq ta_task_id other (task_assignees d)
          = Pg.where_eq ta_task_id other (task_assignees (db w))
       /\ Pg.where_eq tl_task_id other (task_labels d)
          = Pg.where_eq tl_task_id other (task_labels (db w)).
Proof.
  cbv zeta. rewrite (delete_api_tasks_paths user id w). cbv zeta.
  destruct (Pg.where_eq task_id id (tasks (db w))) as [|existing rest];
    [discriminate|].
  destruct (creator_id existing =? user_id user); [|discriminate].
  destruct (notified id (db w)); [discriminate|].
  intros _. cbn [snd db]. unfold without_children. simpl.
  repeat (split; [reflexivity|]).
  intros other N.
  repeat split; now apply where_eq_delete_where_other.
Qed.

(** X17.  The task list never shows a task the caller neither created
    nor is assigned to, whatever the status filter is, and it reads
    only: the store, the sockets and the emitted events are as
    before. *)
Theorem task_list_shows_own_tasks_only user st w :
  (forall t,
      In t (map tl_task (listed (fst (get_api_tasks user st w)))) ->
      In t (tasks (db w))
      /\ (creator_id t = user_id user
          \/ assigned_to (db w) (user_id user) t = true))
  /\ db (snd (get_api_tasks user st w)) = db w
  /\ silent w (snd (get_api_tasks user st w)).
Proof.
  split; [|split; [reflexivity|split; reflexivity]].
  intros t. rewrite get_api_tasks_lists. unfold listed; simpl.
  rewrite map_map; simpl. rewrite map_id, filter_In.
  rewrite satisfies_baseQuery. intros [I S]. split; [exact I|].
  destruct (truthy st).
  - apply orb_true_iff in S. destruct S as [S|S].
    + left. now apply String.eqb_eq.
    + right. now apply andb_true_iff in S.
  - apply orb_true_iff in S. destruct S as [S|S].
    + left. now apply String.eqb_eq.
    + now right.
Qed.

(** X18.  No task update, by whoever and with whatever body, changes
    the key, the creator or the creation time of any task, adds or
    removes a task, or touches another table: the creator recorded at
    creation stays the owner. *)
Theorem task_update_keeps_birth user id b c w :
  let d := db (snd (put_api_tasks user id b c w)) in
  map birth (tasks d) = map birth (tasks (db w))
  /\ users d = users (db w) /\ projects d = projects (db w)
  /\ subtasks d = subtasks (db w)
  /\ task_comments d = task_comments (db w)
  /\ task_assignees d = task_assignees (db w)
  /\ labels d = labels (db w) /\ task_labels d = task_labels (db w)
  /\ notifications d = notifications (db w).
Proof.
  cbv zeta. rewrite put_api_tasks_paths. cbv zeta.
  destruct (Pg.where_eq task_id id (tasks (db w))) as [|existing rest];
    [repeat split|].
  destruct (creator_id existing =? user_id user); [|repeat split].
  destruct (project_accepted b (db w)); [|repeat split].
  cbn [snd db]. unfold Pg.with_tasks.
  cbn [users projects tasks subtasks task_comments task_assignees labels
       task_labels notifications].
  split; [|repeat split].
  unfold tasks_after_update. rewrite map_map. apply map_ext.
  intros t. now destruct (task_id t =? id).
Qed.

(** ** User profile *)

Lemma bind_pool_run_ok {A B} (run : database -> outcome (A * database))
    (k : A -> M B) w a d :
  run (db w) = Ok (a, d) -> bind (pool_run run) k w = k a (set_db d w).
Proof. intros R. unfold bind, pool_run. now rewrite R. Qed.


Lemma set_db_same w : set_db (db w) w = w.
Proof. now destruct w. Qed.

Lemma where_eq_single {A} (key : A -> string) (rows : list A) r :
  NoDup (map key rows) -> In r rows -> Pg.where_eq key (key r) rows = [r].
Proof.
  unfold Pg.where_eq.
  induction rows as [|x rows IH]; simpl; [contradiction|].
  intros N I. inversion N as [|? ? NI N']; subst.
  destruct I as [->|I].
  - rewrite String.eqb_refl. f_equal.
    apply where_eq_nil.
    destruct (Pg.has key (key r) rows) eqn:X; [|reflexivity].
    apply has_In_map in X. contradiction.
  - destruct (String.eqb_spec (key x) (key r)) as [E|_].
    + exfalso. apply NI. rewrite E. now apply in_map.
    + now apply IH.
Qed.

Lemma with_profile_other nm em picture updated id rows :
  Pg.has u_user_id id rows = false ->
  map (PgMore.with_profile nm em picture updated id) rows = rows.
Proof.
  unfold Pg.has, PgMore.with_profile.
  induction rows as [|u rows IH]; simpl; [reflexivity|].
  destruct (u_user_id u =? id); simpl; [discriminate|].
  intros X. now rewrite IH.
Qed.

Lemma with_profile_key nm em picture updated id u :
  u_user_id (PgMore.with_profile nm em picture updated id u) = u_user_id u.
Proof.
  unfold PgMore.with_profile. now destruct (u_user_id u =? id).
Qed.

Lemma with_users_same d : Pg.with_users (users d) d = d.
Proof. now destruct d. Qed.

(** X19.  Over a store whose user ids are unique: when the caller's row
    is stored and no other user holds the email sent, a profile update
    with name and email present is answered 200 with the new profile; a
    profile read that follows returns the same profile; name, email and
    picture (absent or empty: NULL) are written on the caller's row
    only, and no row changes its id, password hash, role or creation
    time. *)
Theorem profile_update_round_trip user b c w u :
  truthy (pb_name b) = true -> truthy (pb_email b) = true ->
  NoDup (map u_user_id (users (db w))) ->
  In u (users (db w)) -> u_user_id u = user_id user ->
  (forall u', In u' (users (db w)) -> u_email u' = text (pb_email b) ->
              u_user_id u' = user_id user) ->
  fst (put_api_users_profile user b c w)
  = with_body 200 {| upd_message := "Profile updated";
                     upd_user := Val (updated_profile b u) |}
  /\ fst (get_api_users_profile user (snd (put_api_users_profile user b c w)))
     = with_body 200 (updated_profile b u)
  /\ map credentials (users (db (snd (put_api_users_profile user b c w))))
     = map credentials (users (db w))
  /\ forall u', In u' (users (db w)) -> u_user_id u' <> user_id user ->
               In u' (users (db (snd (put_api_users_profile user b c w)))).
Proof.
  intros Tn Te N I K Free.
  assert (W : Pg.where_eq u_user_id (user_id user) (users (db w)) = [u])
    by (rewrite <- K; now apply where_eq_single).
  assert (Taken : PgMore.email_taken (text (pb_email b)) (user_id user)
                    (users (db w)) = false).
  { unfold PgMore.email_taken. rewrite W. cbn [length Nat.ltb Nat.leb].
    rewrite orb_false_r.
    destruct (existsb _ (users (db w))) eqn:X; [|reflexivity].
    apply existsb_exists in X. destruct X as [u' [I' X]].
    apply andb_true_iff in X. destruct X as [X1 X2].
    apply String.eqb_eq in X2. rewrite (Free u' I' X2) in X1.
    now rewrite String.eqb_refl in X1. }
  assert (Run : PgMore.update_profile (text (pb_name b)) (text (pb_email b))
                  (or_null (pb_profile_picture b)) (iso c) (user_id user)
                  (db w)
                = Ok (tt, Pg.with_users
                            (map (PgMore.with_profile (text (pb_name b))
                                    (text (pb_email b))
                                    (or_null (pb_profile_picture b)) (iso c)
                                    (user_id user)) (users (db w))) (db w))).
  { unfold PgMore.update_profile. now rewrite Taken, andb_false_r. }
  assert (W' : Pg.where_eq u_user_id (user_id user)
                 (map (PgMore.with_profile (text (pb_name b))
                         (text (pb_email b))
                         (or_null (pb_profile_picture b)) (iso c)
                         (user_id user)) (users (db w)))
               = [PgMore.with_profile (text (pb_name b)) (text (pb_email b))
                    (or_null (pb_profile_picture b)) (iso c) (user_id user)
                    u]).
  { rewrite where_eq_map by (intros r; apply with_profile_key).
    now rewrite W. }
  assert (P : PgMore.profile_of
                (PgMore.with_profile (text (pb_name b)) (text (pb_email b))
                   (or_null (pb_profile_picture b)) (iso c) (user_id user) u)
              = updated_profile b u).
  { unfold PgMore.with_profile, PgMore.profile_of, updated_profile.
    now rewrite K, String.eqb_refl. }
  assert (E : put_api_users_profile user b c w
              = (with_body 200 {| upd_message := "Profile updated";
                                  upd_user := Val (updated_profile b u) |},
                 set_db (Pg.with_users
                           (map (PgMore.with_profile (text (pb_name b))
                                   (text (pb_email b))
                                   (or_null (pb_profile_picture b)) (iso c)
                                   (user_id user)) (users (db w))) (db w))
                   w)).
  { unfold put_api_users_profile. rewrite Tn, Te. cbn [negb orb].
    unfold try_catch_reply.
    erewrite bind_pool_run_ok by exact Run.
    erewrite bind_pool_run_ok
      by (unfold PgMore.select_profile; reflexivity).
    cbn [db set_db users Pg.with_users]. rewrite W'. cbn [map index nth_error].
    rewrite P. reflexivity. }
  rewrite E. cbn [fst snd]. split; [reflexivity|]. split; [|split].
  - unfold get_api_users_profile, try_catch_reply.
    erewrite bind_pool_run_ok
      by (unfold PgMore.select_profile; reflexivity).
    cbn [db set_db users Pg.with_users]. rewrite W'. cbn [map].
    now rewrite P.
  - cbn [db set_db users Pg.with_users]. rewrite map_map. apply map_ext.
    intros r. unfold PgMore.with_profile, credentials.
    now destruct (u_user_id r =? user_id user).
  - intros u' I' D. cbn [db set_db users Pg.with_users].
    apply in_map_iff. exists u'. split; [|exact I'].
    unfold PgMore.with_profile.
    destruct (String.eqb_spec (u_user_id u') (user_id user));
      [contradiction|reflexivity].
Qed.



(** X21.  When the token's user has no row in the users table, a profile
    read is answered 404 "User not found", while a profile update with
    name and email present is answered 200 "Profile updated" with no
    user in the body; neither changes the store. *)
Theorem profile_of_unknown_user user b c w :
  Pg.has u_user_id (user_id user) (users (db w)) = false ->
  get_api_users_profile user w
  = (plain (send 404 (message_only "User not found")), w)
  /\ (truthy (pb_name b) = true -> truthy (pb_email b) = true ->
      put_api_users_profile user b c w
      = (with_body 200 {| upd_message := "Profile updated";
                          upd_user := Undefined |}, w)).
Proof.
  intros N. pose proof N as W. apply where_eq_nil in W. split.
  - unfold get_api_users_profile, try_catch_reply.
    erewrite bind_pool_run_ok
      by (unfold PgMore.select_profile; reflexivity).
    rewrite W. cbn [map ret]. now rewrite set_db_same.
  - intros Tn Te. unfold put_api_users_profile. rewrite Tn, Te.
    cbn [negb orb]. unfold try_catch_reply.
    erewrite bind_pool_run_ok.
    2:{ unfold PgMore.update_profile. rewrite N. cbn [andb].
        rewrite (with_profile_other _ _ _ _ _ _ N), with_users_same.
        reflexivity. }
    erewrite bind_pool_run_ok
      by (unfold PgMore.select_profile; reflexivity).
    rewrite set_db_same. rewrite W. cbn [map index nth_error ret].
    now rewrite set_db_same.
Qed.

(** ** Projects *)

Lemma post_api_projects_accepted user b c w :
  truthy (jb_title b) = true ->
  Pg.has u_user_id (user_id user) (users (db w)) = true ->
  Pg.has p_project_id (uuidv4 (uuids_drawn w)) (projects (db w)) = false ->
  fst (post_api_projects user b c w)
  = with_body 201
      {| pc_message := "Project created";
         pc_project_id := uuidv4 (uuids_drawn w); pc_title := jb_title b;
         pc_description := jb_description b; pc_due_date := jb_due_date b |}
  /\ projects (db (snd (post_api_projects user b c w)))
     = projects (db w) ++ [created_project user b c w]
  /\ tasks (db (snd (post_api_projects user b c w))) = tasks (db w).
Proof.
  intros T U F. unfold post_api_projects. rewrite T. cbn [negb].
  unfold try_catch_reply. rewrite bind_fresh_uuid.
  erewrite bind_pool_run_ok.
  2:{ unfold PgMore.insert_project. cbn [db]. rewrite F, U. reflexivity. }
  repeat split.
Qed.

(** X22.  A project create with a non-empty title, by a stored user and
    under a fresh uuid, is answered 201 and appends exactly one project
    row with the caller as creator and absent or empty description and
    due date as NULL, while the answer echoes description and due date
    as they were sent; a detail request for the returned id then
    answers 200 with that row.  Without a title the answer is 400 and
    nothing happens. *)
Theorem project_create_round_trip user b c w :
  (truthy (jb_title b) = false ->
   post_api_projects user b c w
   = (plain (send 400 (message_only "Project title is required")), w))
  /\ (truthy (jb_title b) = true ->
      Pg.has u_user_id (user_id user) (users (db w)) = true ->
      Pg.has p_project_id (uuidv4 (uuids_drawn w)) (projects (db w))
      = false ->
      fst (post_api_projects user b c w)
      = with_body 201
          {| pc_message := "Project created";
             pc_project_id := uuidv4 (uuids_drawn w);
             pc_title := jb_title b; pc_description := jb_description b;
             pc_due_date := jb_due_date b |}
      /\ projects (db (snd (post_api_projects user b c w)))
         = projects (db w) ++ [created_project user b c w]
      /\ fst (get_api_projects_id (uuidv4 (uuids_drawn w))
                (snd (post_api_projects user b c w)))
         = with_body 200
             {| pd_project := created_project user b c w;
                pd_tasks :=
                  map project_task_of
                    (filter (fun t => PgMore.is_value (project_id t)
                                        (uuidv4 (uuids_drawn w)))
                       (tasks (db w))) |}).
Proof.
  split.
  - intros T. unfold post_api_projects. now rewrite T.
  - intros T U F.
    destruct (post_api_projects_accepted user b c w T U F) as [R [P K]].
    split; [exact R|]. split; [exact P|].
    unfold get_api_projects_id, try_catch_reply.
    erewrite bind_pool_run_ok
      by (unfold PgMore.select_project; reflexivity).
    rewrite P, where_eq_app.
    pose proof F as F0. apply where_eq_nil in F0. rewrite F0.
    unfold Pg.where_eq. cbn [filter app created_project p_project_id].
    rewrite String.eqb_refl.
    erewrite bind_pool_run_ok
      by (unfold PgMore.select_project_tasks; reflexivity).
    cbn [db set_db ret fst]. now rewrite K.
Qed.

Lemma get_api_projects_id_tasks id w p rest :
  Pg.where_eq p_project_id id (projects (db w)) = p :: rest ->
  fst (get_api_projects_id id w)
  = with_body 200
      {| pd_project := p;
         pd_tasks := map project_task_of
                       (filter (fun t => PgMore.is_value (project_id t) id)
                          (tasks (db w))) |}.
Proof.
  intros W. unfold get_api_projects_id, try_catch_reply.
  erewrite bind_pool_run_ok
    by (unfold PgMore.select_project; reflexivity).
  rewrite W.
  erewrite bind_pool_run_ok
    by (unfold PgMore.select_project_tasks; reflexivity).
  reflexivity.
Qed.

Lemma is_value_Some v k : PgMore.is_value v k = true <-> v = Some k.
Proof.
  unfold PgMore.is_value. destruct v as [s|].
  - rewrite String.eqb_eq. split; [now intros ->|now intros [= ->]].
  - split; discriminate.
Qed.

(** X23.  A project detail request answers 404 for an id that is not
    stored; for a stored project it lists exactly the tasks whose
    project_id is that id, whoever created them and whoever asks; a
    task without a project appears in no project. *)
Theorem project_detail_lists_its_tasks id w :
  (Pg.has p_project_id id (projects (db w)) = false ->
   fst (get_api_projects_id id w)
   = plain (send 404 (message_only "Project not found")))
  /\ (Pg.has p_project_id id (projects (db w)) = true ->
      reply_status (fst (get_api_projects_id id w)) = 200
      /\ forall x,
           In x (project_tasks (fst (get_api_projects_id id w))) <->
           exists t, In t (tasks (db w)) /\ project_id t = Some id
                     /\ x = project_task_of t).
Proof.
  split.
  - intros N. apply where_eq_nil in N.
    unfold get_api_projects_id, try_catch_reply.
    erewrite bind_pool_run_ok
      by (unfold PgMore.select_project; reflexivity).
    now rewrite N.
  - intros S.
    destruct (Pg.where_eq p_project_id id (projects (db w))) as [|p rest] eqn:W.
    + apply where_eq_nil in W. congruence.
    + rewrite (get_api_projects_id_tasks id w p rest W).
      split; [reflexivity|]. intros x. cbn [project_tasks pd_tasks].
      rewrite in_map_iff. split.
      * intros [t [<- I]]. apply filter_In in I. destruct I as [I V].
        exists t. repeat split; auto. now apply is_value_Some.
      * intros [t [I [P ->]]]. exists t. split; [reflexivity|].
        apply filter_In. split; [exact I|]. now apply is_value_Some.
Qed.

(** ** ORDER BY *)

Lemma insert_by_In {A} leb (key : A -> string) x y rows :
  In y (PgMore.insert_by leb key x rows) <-> y = x \/ In y rows.
Proof.
  induction rows as [|r rows IH]; simpl.
  - split; [intros [E|[]]; auto|intros [E|[]]; auto].
  - destruct (leb (key x) (key r)); simpl; [|rewrite IH]; intuition.
Qed.

Lemma order_by_In {A} leb (key : A -> string) y rows :
  In y (PgMore.order_by leb key rows) <-> In y rows.
Proof.
  induction rows as [|r rows IH]; simpl; [reflexivity|].
  rewrite insert_by_In, IH. intuition.
Qed.

Lemma insert_by_length {A} leb (key : A -> string) x rows :
  length (PgMore.insert_by leb key x rows) = S (length rows).
Proof.
  induction rows as [|r rows IH]; simpl; [reflexivity|].
  destruct (leb (key x) (key r)); simpl; [|rewrite IH]; reflexivity.
Qed.

Lemma order_by_length {A} leb (key : A -> string) rows :
  length (PgMore.order_by leb key rows) = length rows.
Proof.
  induction rows as [|r rows IH]; simpl; [reflexivity|].
  now rewrite insert_by_length, IH.
Qed.

Lemma insert_by_HdRel {A} leb (key : A -> string) x y rows :
  leb (key y) (key x) = true ->
  HdRel (fun a b => leb (key a) (key b) = true) y rows ->
  HdRel (fun a b => leb (key a) (key b) = true) y
    (PgMore.insert_by leb key x rows).
Proof.
  intros L Hd. destruct rows as [|r rows]; simpl.
  - now constructor.
  - destruct (leb (key x) (key r)); constructor; auto.
    now inversion Hd.
Qed.

Lemma insert_by_Sorted {A} leb (key : A -> string) x rows :
  total_order leb ->
  Sorted (fun a b => leb (key a) (key b) = true) rows ->
  Sorted (fun a b => leb (key a) (key b) = true)
    (PgMore.insert_by leb key x rows).
Proof.
  intros T S. induction S as [|r rows S IH Hd]; simpl.
  - repeat constructor.
  - destruct (leb (key x) (key r)) eqn:L.
    + constructor; [now constructor|now constructor].
    + constructor; [exact IH|].
      apply insert_by_HdRel; [|exact Hd].
      destruct (T (key x) (key r)) as [K|K]; [congruence|exact K].
Qed.

Lemma order_by_Sorted {A} leb (key : A -> string) rows :
  total_order leb ->
  Sorted (fun a b => leb (key a) (key b) = true)
    (PgMore.order_by leb key rows).
Proof.
  intros T. induction rows as [|r rows IH]; simpl; [constructor|].
  now apply insert_by_Sorted.
Qed.

Lemma firstn_incl {A} n (l : list A) x : In x (firstn n l) -> In x l.
Proof.
  intros I. rewrite <- (firstn_skipn n l). apply in_or_app. now left.
Qed.

(** ** Dashboard *)

Lemma count_status_bound rows :
  (PgMore.count_status "pending" rows
   + PgMore.count_status "in_progress" rows
   + PgMore.count_status "completed" rows <= length rows)%nat
  /\ (Forall (fun t => In (status t) statuses) rows ->
      (PgMore.count_status "pending" rows
       + PgMore.count_status "in_progress" rows
       + PgMore.count_status "completed" rows = length rows)%nat).
Proof.
  unfold PgMore.count_status.
  induction rows as [|r rows [IH1 IH2]]; [split; reflexivity|].
  cbn [filter length].
  destruct (String.eqb_spec (status r) "pending") as [E1|N1];
    destruct (String.eqb_spec (status r) "in_progress") as [E2|N2];
    destruct (String.eqb_spec (status r) "completed") as [E3|N3];
    try congruence; cbn [length]; (split; [lia|]); intros F;
    inversion F as [|? ? I F']; subst; specialize (IH2 F'); try lia.
  simpl in I. destruct I as [I|[I|[I|[]]]]; congruence.
Qed.

Lemma where_eq_In {A} (key : A -> string) k rows r :
  In r (Pg.where_eq key k rows) <-> In r rows /\ key r = k.
Proof.
  unfold Pg.where_eq. rewrite filter_In, String.eqb_eq. reflexivity.
Qed.

(** X24.  The dashboard is answered 200 and reads only.  Its counts are
    over the tasks the caller created, assigned ones do not count:
    total_tasks is their number, the three status counts sum to at most
    that, and to exactly that when every stored status is one of
    pending, in_progress and completed.  At most five deadlines are
    listed, each the id, title and due date of a task the caller created
    that has a due date. *)
Theorem dashboard_counts_created_tasks user w :
  exists s upcoming,
    get_api_dashboard user w
    = (with_body 200 {| dash_statistics := Val s;
                        dash_upcoming_deadlines := upcoming |}, w)
    /\ total_tasks s
       = length (Pg.where_eq creator_id (user_id user) (tasks (db w)))
    /\ (pending s + in_progress s + completed s <= total_tasks s)%nat
    /\ (Forall (fun t => In (status t) statuses) (tasks (db w)) ->
        (pending s + in_progress s + completed s = total_tasks s)%nat)
    /\ (length upcoming <= 5)%nat
    /\ forall x, In x upcoming ->
                 exists t, In t (tasks (db w))
                           /\ creator_id t = user_id user
                           /\ is_deadline_of t x.
Proof.
  unfold get_api_dashboard, try_catch_reply.
  erewrite bind_pool_run_ok
    by (unfold PgMore.select_statistics; reflexivity).
  erewrite bind_pool_run_ok
    by (unfold PgMore.select_deadlines; reflexivity).
  rewrite !set_db_same. do 2 eexists. split; [reflexivity|].
  cbn [total_tasks pending in_progress completed].
  destruct (count_status_bound
              (Pg.where_eq creator_id (user_id user) (tasks (db w))))
    as [B1 B2].
  split; [reflexivity|]. split; [exact B1|]. split.
  { intros F. apply B2. apply Forall_forall. intros t I.
    apply where_eq_In in I. destruct I as [I _].
    revert t I. now apply Forall_forall. }
  split.
  { apply firstn_le_length. }
  intros x I. apply firstn_incl in I. apply order_by_In in I.
  apply in_flat_map in I. destruct I as [t [I D]].
  apply where_eq_In in I. destruct I as [I C].
  exists t. split; [exact I|]. split; [exact C|].
  unfold PgMore.deadline_of in D. unfold is_deadline_of.
  destruct (due_date t) as [due|]; [|destruct D].
  destruct D as [<-|[]]. cbn. auto.
Qed.

(** ** Notification list *)

(** X25.  The notification list is answered 200 and reads only.  It
    holds one row for each stored notification of the caller and no
    row of anyone else's; under a text order that compares any two
    texts, each row is at or after the next one in created_at. *)
Theorem notification_list_is_the_callers user w :
  exists rows,
    get_api_notifications user w = (with_body 200 rows, w)
    /\ length rows
       = length (Pg.where_eq n_user_id (user_id user)
                   (notifications (db w)))
    /\ (forall r, In r rows <->
                  exists n, In n (notifications (db w))
                            /\ n_user_id n = user_id user
                            /\ r = PgMore.notification_row_of n)
    /\ (total_order text_leb -> newest_first rows).
Proof.
  unfold get_api_notifications, try_catch_reply.
  erewrite bind_pool_run_ok
    by (unfold PgMore.select_notifications; reflexivity).
  rewrite set_db_same. eexists. split; [reflexivity|].
  split; [now rewrite order_by_length, length_map|]. split.
  - intros r. rewrite order_by_In, in_map_iff. split.
    + intros [n [<- I]]. apply where_eq_In in I. destruct I as [I U].
      exists n. auto.
    + intros [n [I [U ->]]]. exists n. split; [reflexivity|].
      apply where_eq_In. auto.
  - intros T. unfold newest_first.
    apply (order_by_Sorted (fun a b => text_leb b a) nr_created_at).
    intros a b. destruct (T b a); auto.
Qed.

(** ** Task detail *)

Lemma get_api_tasks_id_stored id w t rest :
  Pg.where_eq task_id id (tasks (db w)) = t :: rest ->
  get_api_tasks_id id w
  = (with_body 200
       {| td_task := t;
          td_subtasks :=
            map (fun s => {| sr_subtask_id := st_subtask_id s;
                             sr_title := st_title s;
                             sr_is_completed := st_is_completed s |})
              (Pg.where_eq st_task_id id (subtasks (db w)));
          td_comments :=
            PgMore.order_by text_leb cr_created_at
              (map comment_row_of
                 (Pg.where_eq c_task_id id (task_comments (db w))));
          td_assignees :=
            flat_map
              (fun ta =>
                 map (fun u => {| ar_user_id := u_user_id u;
                                  ar_name := u_name u |})
                   (Pg.where_eq u_user_id (ta_user_id ta) (users (db w))))
              (Pg.where_eq ta_task_id id (task_assignees (db w)));
          td_labels :=
            map tl_label_id
              (Pg.where_eq tl_task_id id (task_labels (db w))) |},
     {| db := db w; sockets := sockets w; emitted := emitted w;
        queries := queries w ++ [SELECT_tasks_WHERE_task_id id];
        uuids_drawn := uuids_drawn w |}).
Proof.
  intros W. unfold get_api_tasks_id, try_catch_reply.
  erewrite bind_pool_query_ok
    by (unfold Pg.select_tasks_by_id; rewrite W; reflexivity).
  cbv beta iota.
  erewrite bind_pool_run_ok by (unfold PgMore.select_subtasks; reflexivity).
  erewrite bind_pool_run_ok by (unfold PgMore.select_comments; reflexivity).
  erewrite bind_pool_run_ok by (unfold PgMore.select_assignees; reflexivity).
  erewrite bind_pool_run_ok
    by (unfold PgMore.select_task_labels; reflexivity).
  reflexivity.
Qed.

(** X26.  Task detail has no owner gate: with any header the middleware
    accepts, whoever the token names, a request for a stored task id is
    answered 200 with the stored row under that id, and the store and
    the event log are as before. *)
Theorem task_detail_is_not_owner_gated authHeader user id c w t rest :
  authenticateToken authHeader (seconds c) = next user ->
  Pg.where_eq task_id id (tasks (db w)) = t :: rest ->
  exists detail,
    fst (app_get_api_tasks_id authHeader id c w) = with_body 200 detail
    /\ td_task detail = t
    /\ db (snd (app_get_api_tasks_id authHeader id c w)) = db w
    /\ silent w (snd (app_get_api_tasks_id authHeader id c w)).
Proof.
  intros A W. unfold app_get_api_tasks_id, authenticated_reply.
  rewrite A, (get_api_tasks_id_stored id w t rest W).
  eexists. repeat split.
Qed.

Lemma post_api_tasks_comments_stored user id b c w :
  res_status (fst (post_api_tasks_comments user id b c w)) = 201 ->
  Pg.has task_id id (tasks (db w)) = true
  /\ db (snd (post_api_tasks_comments user id b c w))
     = Pg.with_task_comments
         (task_comments (db w) ++ [created_comment user id b c w]) (db w).
Proof.
  unfold post_api_tasks_comments.
  destruct (truthy (cb_comment_text b)); [|discriminate].
  cbn [negb]. unfold try_catch. rewrite bind_fresh_uuid.
  destruct (Pg.insert_task_comment (uuidv4 (uuids_drawn w)) id
              (user_id user) (text (cb_comment_text b)) (iso c) (db w))
    as [[[] d]|e] eqn:E.
  - erewrite bind_pool_query_ok by exact E. intros _.
    revert E. unfold Pg.insert_task_comment.
    destruct (Pg.has c_comment_id _ _); [discriminate|].
    destruct (Pg.has task_id id (tasks (db w))); [|discriminate].
    destruct (Pg.has u_user_id _ _); [|discriminate].
    cbn [negb]. intros [= <-]. split; reflexivity.
  - erewrite bind_pool_query_threw by exact E. discriminate.
Qed.

(** X27.  A comment that was answered 201 is in the detail of its task:
    the detail then lists, for that task, the rows of its earlier
    comments and the row of the new one, and no other. *)
Theorem posted_comment_is_in_the_detail user id b c w :
  res_status (fst (post_api_tasks_comments user id b c w)) = 201 ->
  reply_status
    (fst (get_api_tasks_id id (snd (post_api_tasks_comments user id b c w))))
  = 200
  /\ forall x,
       In x (detail_comments
               (fst (get_api_tasks_id id
                       (snd (post_api_tasks_comments user id b c w)))))
       <-> x = comment_row_of (created_comment user id b c w)
           \/ In x (detail_comments (fst (get_api_tasks_id id w))).
Proof.
  intros S. destruct (post_api_tasks_comments_stored user id b c w S)
    as [K D].
  destruct (Pg.where_eq task_id id (tasks (db w))) as [|t rest] eqn:W.
  { apply where_eq_nil in W. congruence. }
  rewrite (get_api_tasks_id_stored id w t rest W).
  rewrite (get_api_tasks_id_stored id _ t rest)
    by (rewrite D; exact W).
  split; [reflexivity|]. intros x.
  cbn [fst detail_comments td_comments]. rewrite D.
  cbn [task_comments Pg.with_task_comments].
  rewrite !order_by_In, where_eq_app, map_app, in_app_iff.
  unfold Pg.where_eq at 2. cbn [filter created_comment c_task_id].
  rewrite String.eqb_refl. cbn [map In]. intuition.
Qed.

(** ** The events and the client store *)

(** X28.  Whatever requests reach the four mutation routes, no event the
    server emits for them changes the client store when its listener
    runs: the listeners of init_realtime act on notification_created
    alone, a name the server never emits. *)
Theorem server_events_leave_the_store ms w :
  exists news,
    emitted (perform_all ms w) = emitted w ++ news
    /\ (forall ev, In ev news ->
                   fst ev <> "notification_created"
                   /\ forall payload s,
                        Store.on_event (fst ev) payload s = s).
Proof.
  destruct (perform_all_steps ms w) as [news [E [_ [_ N]]]].
  exists news. split; [exact E|]. intros ev I. specialize (N ev I).
  simpl in N.
  destruct N as [<-|[<-|[<-|[<-|[]]]]];
    (split; [discriminate|reflexivity]).
Qed.

End MoreProperties.

(** ** The client store *)

Lemma includes_In l x : Store.includes l x = true <-> In x l.
Proof.
  unfold Store.includes. rewrite existsb_exists. split.
  - intros [y [I E]]. apply String.eqb_eq in E. now subst.
  - intros I. exists x. split; [exact I|apply String.eqb_refl].
Qed.

Lemma includes_not_In l x : Store.includes l x = false <-> ~ In x l.
Proof.
  rewrite <- includes_In. destruct (Store.includes l x); split; intros;
    congruence.
Qed.

Lemma unread_app l n :
  unread (l ++ [n])
  = (unread l + (if Store.is_read n then 0 else 1))%Z.
Proof.
  unfold unread. rewrite filter_app, length_app. cbn [filter].
  destruct (Store.is_read n); cbn [negb length]; lia.
Qed.

Lemma act_counted a s : counted s -> counted (act a s).
Proof.
  unfold counted. intros C.
  destruct a as [data| |n|l| |connected|name|msg| |name|name payload];
    cbn [act].
  - exact C.
  - exact C.
  - unfold Store.add_notification.
    cbn [Store.set_notification_state Store.notification_state
         Store.notifications Store.unread_count].
    now rewrite unread_app, C.
  - reflexivity.
  - reflexivity.
  - exact C.
  - unfold Store.add_subscribed_event.
    destruct (Store.includes _ _); exact C.
  - exact C.
  - exact C.
  - unfold Store.subscribe.
    destruct (negb (Store.includes _ _)); exact C.
  - unfold Store.on_event. destruct (name =? "notification_created").
    + cbn [Store.set_notification_state Store.notification_state
           Store.notifications Store.unread_count].
      now rewrite unread_app, C.
    + exact C.
Qed.

(** X29.  The store starts with an unread counter that agrees with its
    notification list (it is the number of unread notifications held),
    and every action and listener that writes the list keeps it so, in
    any order and number, together with the actions on the other parts
    of the store.  reset_unread_count zeroes the counter and leaves the
    list, so it keeps the agreement exactly when the counter was 0
    already, that is when no unread notification is held. *)
Theorem unread_counter_agrees_with_the_list :
  counted Store.initial
  /\ (forall acts s, counted s -> counted (act_all acts s))
  /\ (forall s, counted s ->
                counted (Store.reset_unread_count s)
                <-> Store.unread_count (Store.notification_state s) = 0%Z)
  /\ (forall s n, counted s ->
                  Store.is_read n = false ->
                  In n (Store.notifications (Store.notification_state s)) ->
                  ~ counted (Store.reset_unread_count s)).
Proof.
  split; [reflexivity|]. split; [|split].
  - intros acts. unfold act_all.
    induction acts as [|a acts IH]; intros s C; [exact C|].
    cbn [fold_left]. apply IH. now apply act_counted.
  - unfold counted. cbn. intros s C. rewrite C. split; congruence.
  - unfold counted. cbn. intros s n C R I K.
    assert (F : In n (filter (fun n => negb (Store.is_read n))
                        (Store.notifications (Store.notification_state s))))
      by (apply filter_In; split; [exact I|now rewrite R]).
    unfold unread in K.
    destruct (filter (fun n => negb (Store.is_read n))
                (Store.notifications (Store.notification_state s)));
      [destruct F|discriminate].
Qed.

Lemma subscribe_all_adds names : forall s,
  exists added,
    subscribed (Store.subscribe_all names s) = subscribed s ++ added
    /\ NoDup added
    /\ (forall e, In e added -> In e names /\ ~ In e (subscribed s))
    /\ (forall e, In e names -> In e (subscribed s ++ added))
    /\ Store.auth_state (Store.subscribe_all names s) = Store.auth_state s
    /\ Store.notification_state (Store.subscribe_all names s)
       = Store.notification_state s
    /\ Store.global_ui_state (Store.subscribe_all names s)
       = Store.global_ui_state s
    /\ Store.socket_connected
         (Store.realtime_state (Store.subscribe_all names s))
       = Store.socket_connected (Store.realtime_state s).
Proof.
  unfold Store.subscribe_all.
  induction names as [|n names IH]; intros s.
  - exists []. cbn [fold_left]. rewrite app_nil_r.
    split; [reflexivity|]. split; [constructor|].
    split; [intros e []|]. split; [intros e []|]. repeat split.
  - cbn [fold_left]. unfold Store.subscribe at 2 4 6 8 10.
    destruct (Store.includes (Store.subscribed_events
                                (Store.realtime_state s)) n) eqn:I;
      cbn [negb].
    + destruct (IH s) as [added [E [D [F [G R]]]]].
      exists added. split; [exact E|]. split; [exact D|]. split.
      { intros e K. destruct (F e K). split; [now right|assumption]. }
      split; [|exact R].
      intros e [<-|K]; [|now apply G].
      apply in_or_app. left. now apply includes_In.
    + match goal with
      | |- context [fold_left _ names ?s1] => set (s' := s1)
      end.
      destruct (IH s') as [added [E [D [F [G R]]]]].
      assert (S' : subscribed s' = subscribed s ++ [n]) by reflexivity.
      rewrite S' in *.
      exists (n :: added). split; [|split; [|split; [|split]]].
      * rewrite E, <- app_assoc. reflexivity.
      * constructor; [|exact D]. intros K. destruct (F n K) as [_ N].
        apply N. apply in_or_app. right. now left.
      * intros e [<-|K].
        -- split; [now left|]. now apply includes_not_In.
        -- destruct (F e K) as [K1 K2]. split; [now right|].
           intros K3. apply K2. apply in_or_app. now left.
      * intros e K. change (n :: added) with ([n] ++ added).
        rewrite app_assoc. destruct K as [<-|K]; [|now apply G].
        apply in_or_app. left. apply in_or_app. right. now left.
      * exact R.
Qed.

Lemma subscribe_all_fixed names : forall s,
  (forall e, In e names -> In e (subscribed s)) ->
  Store.subscribe_all names s = s.
Proof.
  unfold Store.subscribe_all.
  induction names as [|n names IH]; intros s A; [reflexivity|].
  cbn [fold_left]. unfold Store.subscribe at 2.
  assert (I : Store.includes (Store.subscribed_events
                                (Store.realtime_state s)) n = true).
  { apply includes_In. apply A. now left. }
  rewrite I. cbn [negb]. apply IH. intros e K. apply A. now right.
Qed.

(** X30.  The subscriptions of init_realtime: afterwards the store
    subscribes to each of the six names; the names it held before stay,
    in place, and the new ones follow them, each once; nothing else of
    the store changes; a second init_realtime subscribes nothing more.
    The step it takes for one name is the add_subscribed_event action. *)
Theorem init_realtime_subscribes_once s :
  (exists added,
      subscribed (Store.subscribe_all Store.events s)
      = subscribed s ++ added
      /\ NoDup added
      /\ forall e, In e added <->
                   In e Store.events /\ ~ In e (subscribed s))
  /\ Store.auth_state (Store.subscribe_all Store.events s)
     = Store.auth_state s
  /\ Store.notification_state (Store.subscribe_all Store.events s)
     = Store.notification_state s
  /\ Store.subscribe_all Store.events
       (Store.subscribe_all Store.events s)
     = Store.subscribe_all Store.events s
  /\ forall name s0,
       Store.subscribe name s0 = Store.add_subscribed_event name s0.
Proof.
  destruct (subscribe_all_adds Store.events s)
    as [added [E [D [F [G [R1 [R2 _]]]]]]].
  split; [|split; [exact R1|split; [exact R2|split]]].
  - exists added. split; [exact E|]. split; [exact D|].
    intros e. split; [apply F|]. intros [K N].
    specialize (G e K). apply in_app_or in G.
    destruct G as [G|G]; [contradiction|exact G].
  - apply subscribe_all_fixed. intros e K. rewrite E. now apply G.
  - intros name s0. unfold Store.subscribe, Store.add_subscribed_event.
    destruct (Store.includes _ _); reflexivity.
Qed.

(** ** The further theorems at concrete inputs *)

Lemma bearer_token_second_word_witness :
  spaceless "Basic" = true /\ spaceless "alice" = true
  /\ bearer_token (Val "Basic alice") = Val "alice"
  /\ authenticateToken (H := Demo.platform) (Val "Basic alice") 500
     = next Demo.alice.
Proof.
  split; [reflexivity|]. split; [reflexivity|].
  destruct (bearer_token_second_word (H := Demo.platform) "Basic" "alice"
              eq_refl eq_refl) as [Token [Same _]].
  split; [exact Token|]. exact (eq_trans (Same 500%Z) eq_refl).
Defined.


Lemma login_after_registration_witness :
  fst (post_api_auth_login (H := Demo.platform) Walkthrough.carol_login
         Demo.at_noon Walkthrough.carol_registered)
  = send 200 (auth_body "Login successful" "uuid-0"
                {| pu_user_id := "uuid-0"; pu_name := "Carol Diaz";
                   pu_email := "carol@example.com";
                   pu_user_role := "user" |}).
Proof.
  exact (login_after_registration (H := Demo.platform) Walkthrough.carol
           Demo.at_noon Demo.at_noon Seed.started
           eq_refl eq_refl eq_refl eq_refl eq_refl eq_refl).
Defined.

Lemma login_token_matches_user_witness :
  res_status (fst (post_api_auth_login (H := Demo.platform)
                     Walkthrough.carol_login Demo.at_noon
                     Walkthrough.carol_registered)) = 200
  /\ exists u,
       In u (users (db Walkthrough.carol_registered))
       /\ u_email u = "carol@example.com"
       /\ bcrypt_compare (Platform := Demo.platform) "secret"
            (u_password_hash u) = true.
Proof.
  assert (S : res_status (fst (post_api_auth_login (H := Demo.platform)
                                 Walkthrough.carol_login Demo.at_noon
                                 Walkthrough.carol_registered)) = 200)
    by reflexivity.
  split; [exact S|].
  destruct (login_token_matches_user (H := Demo.platform)
              Walkthrough.carol_login Demo.at_noon
              Walkthrough.carol_registered S) as [u [I [E [[p [J P]] _]]]].
  exists u. split; [exact I|]. split; [exact E|].
  injection J as <-. exact P.
Defined.

Lemma created_task_is_stored_and_listed_witness :
  res_status (fst (post_api_tasks (H := Demo.platform) Demo.alice
                     Walkthrough.write_spec Demo.at_noon Seed.started))
  = 201
  /\ tasks (db Walkthrough.spec_written)
     = tasks (db Seed.started)
       ++ [created_task (H := Demo.platform) Demo.alice
             Walkthrough.write_spec Demo.at_noon Seed.started].
Proof.
  assert (S : res_status (fst (post_api_tasks (H := Demo.platform)
                                 Demo.alice Walkthrough.write_spec
                                 Demo.at_noon Seed.started)) = 201)
    by reflexivity.
  split; [exact S|].
  exact (proj1 (proj2 (created_task_is_stored_and_listed
                         (H := Demo.platform) Demo.alice
                         Walkthrough.write_spec Demo.at_noon Seed.started
                         S))).
Defined.

Lemma refused_label_leaves_the_task_witness :
  Pg.has l_label_id "no-such-label" (labels (db Seed.started)) = false
  /\ fst (post_api_tasks (H := Demo.platform) Demo.alice
            Walkthrough.mislabelled Demo.at_noon Seed.started)
     = internal_server_error
  /\ tasks (db (snd (post_api_tasks (H := Demo.platform) Demo.alice
                       Walkthrough.mislabelled Demo.at_noon Seed.started)))
     = tasks (db Seed.started)
       ++ [created_task (H := Demo.platform) Demo.alice
             Walkthrough.mislabelled Demo.at_noon Seed.started].
Proof.
  split; [reflexivity|].
  destruct (refused_label_leaves_the_task (H := Demo.platform) Demo.alice
              Walkthrough.mislabelled Demo.at_noon Seed.started
              "no-such-label" [] eq_refl eq_refl eq_refl eq_refl)
    as [R [T _]].
  split; [exact R|exact T].
Defined.

Lemma comment_accepted_witness :
  creator_id Seed.task1 = "user1"
  /\ res_status (fst (post_api_tasks_comments (H := Demo.platform)
                        Demo.bob "task1" Walkthrough.looks_good
                        Demo.at_noon Seed.started)) = 201
  /\ map fst (emitted (snd (post_api_tasks_comments (H := Demo.platform)
                              Demo.bob "task1" Walkthrough.looks_good
                              Demo.at_noon Seed.started)))
     = ["new_comment"].
Proof.
  split; [reflexivity|].
  destruct (comment_accepted (H := Demo.platform) Demo.bob "task1"
              Walkthrough.looks_good Demo.at_noon Seed.started
              eq_refl eq_refl eq_refl eq_refl) as [R [_ E]].
  split; [now rewrite R|now rewrite E].
Defined.

Lemma deleted_task_is_not_found_witness :
  res_status (fst (delete_api_tasks Demo.alice "uuid-0"
                     Walkthrough.spec_written)) = 200
  /\ fst (delete_api_tasks Demo.bob "uuid-0"
            (snd (delete_api_tasks Demo.alice "uuid-0"
                    Walkthrough.spec_written)))
     = task_not_found
  /\ fst (get_api_tasks_id (H0 := Walkthrough.by_code) "uuid-0"
            (snd (delete_api_tasks Demo.alice "uuid-0"
                    Walkthrough.spec_written)))
     = plain task_not_found.
Proof.
  assert (S : res_status (fst (delete_api_tasks Demo.alice "uuid-0"
                                 Walkthrough.spec_written)) = 200)
    by reflexivity.
  split; [exact S|].
  destruct (deleted_task_is_not_found (H0 := Walkthrough.by_code)
              Demo.alice "uuid-0" Walkthrough.spec_written S Demo.bob
              Demo.no_fields Demo.at_noon) as [_ [D G]].
  split; [exact D|exact G].
Defined.

Lemma task_delete_frame_witness :
  res_status (fst (delete_api_tasks Demo.alice "uuid-0"
                     Walkthrough.spec_written)) = 200
  /\ Pg.where_eq task_id "task1"
       (tasks (db (snd (delete_api_tasks Demo.alice "uuid-0"
                          Walkthrough.spec_written))))
     = Pg.where_eq task_id "task1" (tasks (db Walkthrough.spec_written)).
Proof.
  assert (S : res_status (fst (delete_api_tasks Demo.alice "uuid-0"
                                 Walkthrough.spec_written)) = 200)
    by reflexivity.
  split; [exact S|].
  destruct (task_delete_frame Demo.alice "uuid-0" Walkthrough.spec_written
              S) as [_ [_ [_ [_ Others]]]].
  assert (N : "uuid-0" <> "task1") by discriminate.
  exact (proj1 (Others "task1" N)).
Defined.

Lemma seed_user_ids_unique : NoDup (map u_user_id (users Seed.seed)).
Proof.
  repeat constructor; simpl; intuition discriminate.
Defined.

Lemma profile_update_round_trip_witness :
  fst (put_api_users_profile Demo.alice Walkthrough.renamed Demo.at_noon
         Seed.started)
  = with_body 200
      {| upd_message := "Profile updated";
         upd_user :=
           Val {| pf_user_id := "user1"; pf_name := "Alice J.";
                  pf_email := "alice.j@example.com";
                  pf_profile_picture := None; pf_user_role := "user" |} |}
  /\ fst (get_api_users_profile Demo.alice
            (snd (put_api_users_profile Demo.alice Walkthrough.renamed
                    Demo.at_noon Seed.started)))
     = with_body 200
         {| pf_user_id := "user1"; pf_name := "Alice J.";
            pf_email := "alice.j@example.com";
            pf_profile_picture := None; pf_user_role := "user" |}.
Proof.
  assert (I : In Seed.user1 (users (db Seed.started))) by (simpl; auto).
  assert (O : forall u', In u' (users (db Seed.started)) ->
                         u_email u' = text (pb_email Walkthrough.renamed) ->
                         u_user_id u' = user_id Demo.alice).
  { intros u' [<-|[<-|[<-|[]]]]; discriminate. }
  destruct (profile_update_round_trip Demo.alice Walkthrough.renamed
              Demo.at_noon Seed.started Seed.user1 eq_refl eq_refl
              seed_user_ids_unique I eq_refl O) as [P [G _]].
  split; [exact P|exact G].
Defined.

Lemma profile_of_unknown_user_witness :
  Pg.has u_user_id (user_id Walkthrough.stranger) (users (db Seed.started))
  = false
  /\ reply_status (fst (get_api_users_profile Walkthrough.stranger
                          Seed.started)) = 404
  /\ reply_status (fst (put_api_users_profile Walkthrough.stranger
                          Walkthrough.renamed Demo.at_noon Seed.started))
     = 200.
Proof.
  split; [reflexivity|].
  destruct (profile_of_unknown_user Walkthrough.stranger
              Walkthrough.renamed Demo.at_noon Seed.started eq_refl)
    as [G P].
  split; [now rewrite G|now rewrite (P eq_refl eq_refl)].
Defined.

Lemma task_detail_is_not_owner_gated_witness :
  creator_id Seed.task1 <> user_id Demo.bob
  /\ exists detail,
       fst (app_get_api_tasks_id (H := Demo.platform)
              (H0 := Walkthrough.by_code) (Val "Bearer bob") "task1"
              Demo.at_noon Seed.started)
       = with_body 200 detail
       /\ td_task detail = Seed.task1.
Proof.
  split; [discriminate|].
  destruct (task_detail_is_not_owner_gated (H := Demo.platform)
              (H0 := Walkthrough.by_code) (Val "Bearer bob") Demo.bob
              "task1" Demo.at_noon Seed.started Seed.task1 [] eq_refl
              eq_refl) as [detail [R [T _]]].
  exists detail. auto.
Defined.

Lemma posted_comment_is_in_the_detail_witness :
  res_status (fst (post_api_tasks_comments (H := Demo.platform) Demo.bob
                     "task1" Walkthrough.looks_good Demo.at_noon
                     Seed.started)) = 201
  /\ In (comment_row_of
           (created_comment (H := Demo.platform) Demo.bob "task1"
              Walkthrough.looks_good Demo.at_noon Seed.started))
       (detail_comments
          (fst (get_api_tasks_id (H0 := Walkthrough.by_code) "task1"
                  (snd (post_api_tasks_comments (H := Demo.platform)
                          Demo.bob "task1" Walkthrough.looks_good
                          Demo.at_noon Seed.started))))).
Proof.
  assert (S : res_status (fst (post_api_tasks_comments
                                 (H := Demo.platform) Demo.bob "task1"
                                 Walkthrough.looks_good Demo.at_noon
                                 Seed.started)) = 201) by reflexivity.
  split; [exact S|].
  destruct (posted_comment_is_in_the_detail (H := Demo.platform)
              (H0 := Walkthrough.by_code) Demo.bob "task1"
              Walkthrough.looks_good Demo.at_noon Seed.started S)
    as [_ Rows].
  apply Rows. now left.
Defined.

Lemma comment_refused_witness :
  Pg.has task_id "task9" (tasks (db Seed.started)) = false
  /\ fst (post_api_tasks_comments (H := Demo.platform) Demo.alice "task9"
            Walkthrough.looks_good Demo.at_noon Seed.started)
     = internal_server_error.
Proof.
  split; [reflexivity|].
  exact (proj1 (proj2 (comment_refused (H := Demo.platform) Demo.alice
                         "task9" Walkthrough.looks_good Demo.at_noon
                         Seed.started) eq_refl eq_refl)).
Defined.


Lemma project_create_round_trip_witness :
  reply_status (fst (post_api_projects (H := Demo.platform) Demo.alice
                       Walkthrough.q4_plan Demo.at_noon Seed.started))
  = 201
  /\ reply_status
       (fst (get_api_projects_id "uuid-0"
               (snd (post_api_projects (H := Demo.platform) Demo.alice
                       Walkthrough.q4_plan Demo.at_noon Seed.started))))
     = 200.
Proof.
  destruct (proj2 (project_create_round_trip (H := Demo.platform)
                     Demo.alice Walkthrough.q4_plan Demo.at_noon
                     Seed.started) eq_refl eq_refl eq_refl)
    as [R [_ G]].
  split; [now rewrite R|].
  exact (eq_trans (f_equal reply_status G) eq_refl).
Defined.

Lemma project_detail_lists_its_tasks_witness :
  In (project_task_of Seed.task1)
    (project_tasks (fst (get_api_projects_id "project1" Seed.started)))
  /\ ~ In (project_task_of Seed.task2)
         (project_tasks (fst (get_api_projects_id "project1"
                                Seed.started))).
Proof.
  destruct (proj2 (project_detail_lists_its_tasks "project1" Seed.started)
              eq_refl) as [_ Rows].
  split.
  - apply Rows. exists Seed.task1. split; [simpl; auto|].
    split; reflexivity.
  - intros I. apply Rows in I. destruct I as [t [I [P E]]].
    simpl in I. destruct I as [<-|[<-|[<-|[<-|[]]]]]; discriminate.
Defined.

Lemma dashboard_counts_created_tasks_witness :
  exists s upcoming,
    fst (get_api_dashboard (H0 := Walkthrough.by_code) Demo.alice
           Seed.started)
    = with_body 200 {| dash_statistics := Val s;
                       dash_upcoming_deadlines := upcoming |}
    /\ total_tasks s
       = length (Pg.where_eq creator_id "user1" (tasks Seed.seed))
    /\ (length upcoming <= 5)%nat.
Proof.
  destruct (dashboard_counts_created_tasks (H0 := Walkthrough.by_code)
              Demo.alice Seed.started)
    as [s [upcoming [E [T [_ [_ [L _]]]]]]].
  exists s, upcoming. split; [now rewrite E|]. split; [exact T|exact L].
Defined.

Lemma notification_list_is_the_callers_witness :
  exists rows,
    fst (get_api_notifications (H0 := Walkthrough.by_code) Demo.alice
           Seed.started)
    = with_body 200 rows
    /\ map (fun r => (nr_notification_id r, nr_created_at r)) rows
       = [("notif5", "2023-10-05 08:20:00");
          ("notif3", "2023-10-05 08:10:00")]
    /\ newest_first (H := Walkthrough.by_code) rows.
Proof.
  destruct (notification_list_is_the_callers (H0 := Walkthrough.by_code)
              Demo.alice Seed.started) as [rows [E [_ [_ N]]]].
  exists rows. split; [now rewrite E|]. split.
  - assert (R : with_body 200 rows
                = fst (get_api_notifications (H0 := Walkthrough.by_code)
                         Demo.alice Seed.started)) by (now rewrite E).
    vm_compute in R. injection R as ->. reflexivity.
  - apply N. exact String.leb_total.
Defined.
